(** * DGuard audit bot: route/call-site reconciliation, verified model

    A shallow embedding of the audit core (path normalisation, the backend
    and frontend extractors, the endpoint, security and component
    validators, and the read path of the cache manager), followed by the
    properties established about it.

    JavaScript strings are modelled as lists of code units ([list ascii]),
    insertion-ordered [Map]s as association lists with unique keys, objects
    built by the extractors as finite lists of own properties, and the
    side effects of the source (pushing to an [issues] array, flipping
    [used] flags, touching the cache directory) by returning the pushed
    issues and the updated store. *)

From Stdlib Require Import String Ascii DecimalString Bool Arith ZArith Lia List.
Import ListNotations.

Set Implicit Arguments.

(** ** JavaScript strings *)

Module JS.

Definition jsstring := list ascii.

(** A string literal of the source. *)
Definition str (s : string) : jsstring := list_ascii_of_string s.

Fixpoint eqb (a b : jsstring) : bool :=
  match a, b with
  | [], [] => true
  | x :: a', y :: b' => Ascii.eqb x y && eqb a' b'
  | _, _ => false
  end.

Definition isEmpty (s : jsstring) : bool :=
  match s with [] => true | _ => false end.

(** [s.startsWith(p)] *)
Fixpoint startsWith (s p : jsstring) {struct p} : bool :=
  match p, s with
  | [], _ => true
  | x :: p', y :: s' => Ascii.eqb x y && startsWith s' p'
  | _ :: _, [] => false
  end.

(** [s.endsWith(p)] *)
Definition endsWith (s p : jsstring) : bool :=
  startsWith (rev s) (rev p).

(** [s.includes(p)] *)
Fixpoint includes (s p : jsstring) : bool :=
  startsWith s p ||
  match s with
  | [] => false
  | _ :: s' => includes s' p
  end.

(** The rest of [s] after the prefix [p], when [s] starts with [p]. *)
Fixpoint stripPrefix (p s : jsstring) {struct p} : option jsstring :=
  match p, s with
  | [], _ => Some s
  | x :: p', y :: s' => if Ascii.eqb x y then stripPrefix p' s' else None
  | _ :: _, [] => None
  end.

(** [s.indexOf(c)] for a one-character needle; [None] stands for [-1]. *)
Fixpoint indexOf (c : ascii) (s : jsstring) : option nat :=
  match s with
  | [] => None
  | x :: s' => if Ascii.eqb x c then Some 0 else option_map S (indexOf c s')
  end.

(** [s.substring(i)] *)
Definition substringFrom (i : nat) (s : jsstring) : jsstring := skipn i s.

(** [s.split(c)] for a one-character separator: never empty, the pieces
    between consecutive separators in order. *)
Fixpoint split (c : ascii) (s : jsstring) : list jsstring :=
  match s with
  | [] => [[]]
  | x :: s' =>
      if Ascii.eqb x c then [] :: split c s'
      else match split c s' with
           | piece :: rest => (x :: piece) :: rest
           | [] => [[x]]
           end
  end.

(** [s.split(c)[0]]. *)
Definition splitHead (c : ascii) (s : jsstring) : jsstring :=
  match split c s with
  | piece :: _ => piece
  | [] => []
  end.

Definition isUpperAZ (c : ascii) : bool :=
  let n := nat_of_ascii c in (65 <=? n) && (n <=? 90).

Definition isLowerAZ (c : ascii) : bool :=
  let n := nat_of_ascii c in (97 <=? n) && (n <=? 122).

(** Code units 0xC0-0xDE except 0xD7 are the Latin-1 capitals. *)
Definition isUpperLatin1 (c : ascii) : bool :=
  let n := nat_of_ascii c in (192 <=? n) && (n <=? 222) && negb (n =? 215).

(** Code units 0xE0-0xFE except 0xF7 have a capital 32 below; 0xFF and 0xB5
    capitalise outside Latin-1 and are left alone by this model. *)
Definition isLowerLatin1 (c : ascii) : bool :=
  let n := nat_of_ascii c in (224 <=? n) && (n <=? 254) && negb (n =? 247).

Definition lowerChar (c : ascii) : ascii :=
  if isUpperAZ c || isUpperLatin1 c then ascii_of_nat (nat_of_ascii c + 32) else c.

Definition upperChar (c : ascii) : ascii :=
  if isLowerAZ c || isLowerLatin1 c then ascii_of_nat (nat_of_ascii c - 32) else c.

(** [s.toLowerCase()] and [s.toUpperCase()] on code units below 256. *)
Definition toLowerCase (s : jsstring) : jsstring := map lowerChar s.
Definition toUpperCase (s : jsstring) : jsstring := map upperChar s.

(** [list.includes(s)] on an array of strings. *)
Definition arrayIncludes (l : list jsstring) (s : jsstring) : bool :=
  existsb (eqb s) l.

(** [parts.join(sep)] *)
Fixpoint join (sep : jsstring) (parts : list jsstring) : jsstring :=
  match parts with
  | [] => []
  | [p] => p
  | p :: rest => p ++ sep ++ join sep rest
  end.

(** [String(n)] for an array index. *)
Definition ofNat (n : nat) : jsstring :=
  str (NilZero.string_of_uint (Nat.to_uint n)).

(** The first match of the alternation [a1|a2|...] of literal strings is
    replaced by [repl]: [s.replace(/a1|a2/, repl)] without the [g] flag.  At
    each position the alternatives are tried in the order written. *)
Fixpoint firstAlt (alts : list jsstring) (s : jsstring) : option jsstring :=
  match alts with
  | [] => None
  | a :: alts' =>
      match stripPrefix a s with
      | Some rest => Some rest
      | None => firstAlt alts' s
      end
  end.

Fixpoint replaceFirstAlt (alts : list jsstring) (repl s : jsstring) : jsstring :=
  match firstAlt alts s with
  | Some rest => repl ++ rest
  | None =>
      match s with
      | [] => []
      | c :: s' => c :: replaceFirstAlt alts repl s'
      end
  end.

(** [s.replace(/^p/, '')] *)
Definition dropPrefix (p s : jsstring) : jsstring :=
  match stripPrefix p s with
  | Some rest => rest
  | None => s
  end.

(** [s.replace(/p$/, '')] *)
Definition dropSuffix (p s : jsstring) : jsstring :=
  if endsWith s p then firstn (length s - length p) s else s.

(** Line terminators, which [.] in a regular expression does not match. *)
Definition isLineTerminator (c : ascii) : bool :=
  Ascii.eqb c "010" || Ascii.eqb c "013".

(** The text up to the first line terminator. *)
Fixpoint firstLine (s : jsstring) : jsstring :=
  match s with
  | [] => []
  | c :: s' => if isLineTerminator c then [] else c :: firstLine s'
  end.

(** [/@.*word/.test(s)]: an [@] with [word] later on the same line. *)
Fixpoint atThen (word s : jsstring) : bool :=
  match s with
  | [] => false
  | c :: s' => (Ascii.eqb c "@" && includes (firstLine s') word) || atThen word s'
  end.

End JS.

Import JS.

(** ** The two path normalisers *)

Module Normalize.

Definition isSlash (c : ascii) : bool := Ascii.eqb c "/".

(** [path.replace(/\/+/g, '/')]: every maximal run of slashes becomes one
    slash; a slash followed by another slash is dropped. *)
Fixpoint collapseSlashes (s : jsstring) : jsstring :=
  match s with
  | [] => []
  | c :: s' =>
      match s' with
      | d :: _ =>
          if isSlash c && isSlash d then collapseSlashes s'
          else c :: collapseSlashes s'
      | [] => [c]
      end
  end.

(** [if (!s.startsWith('/')) s = '/' + s] *)
Definition ensureLeadingSlash (s : jsstring) : jsstring :=
  if startsWith s (str "/") then s else "/"%char :: s.

(** BackendAnalyzer.normalizePath *)
Definition normalizePath (path : jsstring) : jsstring :=
  let normalized := collapseSlashes path in
  let normalized := ensureLeadingSlash normalized in
  if (1 <? length normalized) && endsWith normalized (str "/")
  then removelast normalized
  else normalized.

(** The text left after the longest run of characters other than [/]. *)
Fixpoint dropHost (s : jsstring) : jsstring :=
  match s with
  | [] => []
  | c :: s' => if isSlash c then s else dropHost s'
  end.

(** What follows [http://] or [https://] at the start of [s]. *)
Definition afterScheme (s : jsstring) : option jsstring :=
  match stripPrefix (str "https://") s with
  | Some rest => Some rest
  | None => stripPrefix (str "http://") s
  end.

(** [endpoint.replace(/^https?:\/\/[^\/]+/, '')]: the scheme must be followed
    by at least one character other than [/]. *)
Definition stripOrigin (s : jsstring) : jsstring :=
  match afterScheme s with
  | Some (c :: rest) => if isSlash c then s else dropHost rest
  | _ => s
  end.

(** Scanning the body of a candidate [${...}]: [scanBody k seen r] looks for
    the first [}] of [r]; the body must hold at least one character ([seen]
    records that one was passed).  On success the continuation [k] is
    applied to the text after the brace. *)
Definition scanBody (A : Type) (k : jsstring -> A) : bool -> jsstring -> option A :=
  fix scan (seen : bool) (r : jsstring) : option A :=
    match r with
    | [] => None
    | d :: r' =>
        if Ascii.eqb d "}" then (if seen then Some (k r') else None)
        else scan true r'
    end.

(** The text after the [}] closing an interpolation body at the start of [r]. *)
Definition closeBrace : bool -> jsstring -> option jsstring :=
  scanBody (fun after => after).

(** [endpoint.replace(/\$\{[^}]+\}/g, ':param')] *)
Fixpoint replaceTemplates (s : jsstring) : jsstring :=
  match s with
  | [] => []
  | c :: s' =>
      let hit :=
        if Ascii.eqb c "$" then
          match s' with
          | d :: r => if Ascii.eqb d "{" then scanBody replaceTemplates false r else None
          | [] => None
          end
        else None in
      match hit with
      | Some out => str ":param" ++ out
      | None => c :: replaceTemplates s'
      end
  end.

(** FrontendAnalyzer.cleanEndpoint *)
Definition cleanEndpoint (endpoint : jsstring) : jsstring :=
  if isEmpty endpoint then []
  else
    let endpoint := stripOrigin endpoint in
    let endpoint := splitHead "?" endpoint in
    let endpoint := replaceTemplates endpoint in
    ensureLeadingSlash endpoint.

(** Names captured by [/:([^...]+)/g], where [stop] recognises the excluded
    characters: after a colon, the longest non-empty run of characters that
    are not excluded.  [cur] holds the run being read, reversed. *)
Fixpoint colonParams (stop : ascii -> bool) (cur : option jsstring) (s : jsstring)
  : list jsstring :=
  match s with
  | [] => match cur with Some acc => [rev acc] | None => [] end
  | c :: s' =>
      match cur with
      | Some acc =>
          if stop c then rev acc :: colonParams stop None s'
          else colonParams stop (Some (c :: acc)) s'
      | None =>
          if Ascii.eqb c ":" then
            match s' with
            | d :: _ => if stop d then colonParams stop None s'
                        else colonParams stop (Some []) s'
            | [] => []
            end
          else colonParams stop None s'
      end
  end.

(** BackendAnalyzer.extractPathParams: [path.match(/:([^/]+)/g)] *)
Definition extractPathParams (path : jsstring) : list jsstring :=
  colonParams isSlash None path.

(** FrontendAnalyzer.extractURLParams: [url.match(/:([^/?]+)/g)] *)
Definition extractURLParams (url : jsstring) : list jsstring :=
  colonParams (fun c => isSlash c || Ascii.eqb c "?") None url.

(** FrontendAnalyzer.extractQueryParams *)
Definition extractQueryParams (url : jsstring) : list jsstring :=
  match indexOf "?" url with
  | None => []
  | Some queryIndex =>
      let queryString := substringFrom (queryIndex + 1) url in
      let params := split "&" queryString in
      flat_map (fun param =>
                  let key := splitHead "=" param in
                  if isEmpty key then [] else [key]) params
  end.

End Normalize.

Import Normalize.

(** ** Insertion-ordered maps

    A JavaScript [Map] keyed by strings: [forEach] visits the entries in the
    order in which their keys were first inserted, and [set] on a key that
    is present replaces the value in place. *)

Module JSMap.

Section Ops.

Variable V : Type.

Definition t := list (jsstring * V).

Fixpoint get (k : jsstring) (m : t) : option V :=
  match m with
  | [] => None
  | (k', v) :: m' => if JS.eqb k k' then Some v else get k m'
  end.

Definition has (k : jsstring) (m : t) : bool :=
  match get k m with Some _ => true | None => false end.

Fixpoint set (k : jsstring) (v : V) (m : t) : t :=
  match m with
  | [] => [(k, v)]
  | (k', v') :: m' =>
      if JS.eqb k k' then (k, v) :: m' else (k', v') :: set k v m'
  end.

Definition keys (m : t) : list jsstring := map fst m.
Definition values (m : t) : list V := map snd m.

End Ops.

Arguments get {V}.
Arguments has {V}.
Arguments set {V}.
Arguments keys {V}.
Arguments values {V}.

End JSMap.

(** ** Values built by the extractors

    The plain data the extractors assemble from object and array literals.
    An object is the list of its own enumerable properties in [Object.keys]
    order.  Numbers are integer literals; only whether they are zero is ever
    observed.  Property names that shadow [Object.prototype] members, and
    integer-like keys (which [Object.keys] lists first), are outside the
    model. *)

Module Value.

#[local] Unset Elimination Schemes.

(** A value: [null], a boolean, a number, a string, an array or an object. *)
Inductive jsval : Type :=
| VNull
| VBool (b : bool)
| VNum (z : Z)
| VStr (s : jsstring)
| VArr (elements : list jsval)
| VObj (properties : list (jsstring * jsval)).

#[local] Set Elimination Schemes.

(** An object literal under construction: [structure[key] = v]. *)
Definition object := JSMap.t jsval.

(** Truthiness, as tested by [if (v)] and [a || b]. *)
Definition truthy (v : jsval) : bool :=
  match v with
  | VNull => false
  | VBool b => b
  | VNum z => negb (Z.eqb z 0)
  | VStr s => negb (isEmpty s)
  | VArr _ | VObj _ => true
  end.

(** [typeof v === 'object'] *)
Definition isObjectType (v : jsval) : bool :=
  match v with
  | VNull | VArr _ | VObj _ => true
  | _ => false
  end.

(** The index keys ["0"], ..., ["n-1"]. *)
Definition indexKeys (n : nat) : list jsstring := map ofNat (seq 0 n).

(** [Object.keys(v)] for a value other than [null]. *)
Definition Object_keys (v : jsval) : list jsstring :=
  match v with
  | VObj props => JSMap.keys props
  | VArr elements => indexKeys (length elements)
  | VStr s => indexKeys (length s)
  | VNull | VBool _ | VNum _ => []
  end.

(** [v.hasOwnProperty(field)] for a value other than [null] on which the
    name [hasOwnProperty] still reaches the method of [Object.prototype];
    on a value with an own property of that name the call throws. *)
Definition hasOwnProperty (v : jsval) (field : jsstring) : bool :=
  match v with
  | VObj props => JSMap.has field props
  | VArr elements =>
      arrayIncludes (indexKeys (length elements)) field || JS.eqb field (str "length")
  | VStr s =>
      arrayIncludes (indexKeys (length s)) field || JS.eqb field (str "length")
  | VNull | VBool _ | VNum _ => false
  end.

End Value.

Import Value.

(** ** Syntax trees and the helpers of astUtils *)

Module AstUtils.

#[local] Unset Elimination Schemes.

(** The part of a Babel syntax tree that the extractors read.  A
    [CallExpression] carries the line of [loc.start]; a property of an
    [ObjectExpression] is [Some (key, value)] for an [ObjectProperty] and
    [None] for a spread or a method; an element of an [ArrayExpression] is
    [None] for a hole. *)
Inductive node : Type :=
| StringLiteral (value : jsstring)
| NumericLiteral (value : Z)
| BooleanLiteral (value : bool)
| TemplateLiteral (quasis : list jsstring) (expressions : list node)
| Identifier (name : jsstring)
| MemberExpression (object property : node)
| CallExpression (callee : node) (arguments : list node) (line : option nat)
| ObjectExpression (properties : list (option (node * node)))
| ArrayExpression (elements : list (option node))
| OtherNode (type : jsstring).

#[local] Set Elimination Schemes.

(** [node.type] *)
Definition nodeType (n : node) : jsstring :=
  match n with
  | StringLiteral _ => str "StringLiteral"
  | NumericLiteral _ => str "NumericLiteral"
  | BooleanLiteral _ => str "BooleanLiteral"
  | TemplateLiteral _ _ => str "TemplateLiteral"
  | Identifier _ => str "Identifier"
  | MemberExpression _ _ => str "MemberExpression"
  | CallExpression _ _ _ => str "CallExpression"
  | ObjectExpression _ => str "ObjectExpression"
  | ArrayExpression _ => str "ArrayExpression"
  | OtherNode type => type
  end.

(** [node.name]; [None] is [undefined]. *)
Definition nodeName (n : node) : option jsstring :=
  match n with
  | Identifier name => Some name
  | _ => None
  end.

(** A value interpolated into a template string: [undefined] prints as such. *)
Definition interpolate (s : option jsstring) : jsstring :=
  match s with
  | Some s => s
  | None => str "undefined"
  end.

(** [name === lit] and [list.includes(name)] for a possibly undefined name. *)
Definition nameIs (name : option jsstring) (lit : jsstring) : bool :=
  match name with
  | Some s => JS.eqb s lit
  | None => false
  end.

Definition nameIn (name : option jsstring) (lits : list jsstring) : bool :=
  match name with
  | Some s => arrayIncludes lits s
  | None => false
  end.

(** [extractStringValue(node)]; the argument is [None] when the call has no
    such argument, the result is [None] for [null]. *)
Definition extractStringValue (n : option node) : option jsstring :=
  match n with
  | None => None
  | Some (StringLiteral value) => Some value
  | Some (TemplateLiteral quasis expressions) =>
      match expressions with
      | [] =>
          match quasis with
          | cooked :: _ => if isEmpty cooked then None else Some cooked
          | [] => None
          end
      | _ :: _ => Some (join (str "${...}") quasis)
      end
  | Some _ => None
  end.

(** [prop.key.name || prop.key.value], when truthy, as a property name. *)
Definition keyName (key : node) : option jsstring :=
  match key with
  | Identifier name => if isEmpty name then None else Some name
  | StringLiteral value => if isEmpty value then None else Some value
  | NumericLiteral value =>
      if Z.eqb value 0 then None else Some (ofNat (Z.to_nat value))
  | BooleanLiteral value => if value then Some (str "true") else None
  | _ => None
  end.

(** [`<${name}>`] *)
Definition angle (name : jsstring) : jsstring := str "<" ++ name ++ str ">".

(** [extractObjectStructure(node)] and [extractArrayStructure(node)],
    together with the case analysis both apply to a nested value. *)
Fixpoint extractObjectStructure (n : node) : object :=
  match n with
  | ObjectExpression properties =>
      (fix eachProperty (props : list (option (node * node))) (structure : object) : object :=
         match props with
         | [] => structure
         | prop :: props' =>
             eachProperty props'
               match prop with
               | Some (key, value) =>
                   match keyName key with
                   | Some name =>
                       JSMap.set name
                         match value with
                         | ObjectExpression _ => VObj (extractObjectStructure value)
                         | ArrayExpression _ => VArr (extractArrayStructure value)
                         | StringLiteral v => VStr v
                         | NumericLiteral v => VNum v
                         | BooleanLiteral v => VBool v
                         | Identifier name => VStr (angle name)
                         | _ => VStr (angle (nodeType value))
                         end
                         structure
                   | None => structure
                   end
               | None => structure
               end
         end) properties []
  | _ => []
  end

with extractArrayStructure (n : node) : list jsval :=
  match n with
  | ArrayExpression elements =>
      (fix eachElement (els : list (option node)) : list jsval :=
         match els with
         | [] => []
         | element :: els' =>
             match element with
             | None => VNull
             | Some e =>
                 match e with
                 | StringLiteral v => VStr v
                 | NumericLiteral v => VNum v
                 | ObjectExpression _ => VObj (extractObjectStructure e)
                 | ArrayExpression _ => VArr (extractArrayStructure e)
                 | _ => VStr (angle (nodeType e))
                 end
             end :: eachElement els'
         end) elements
  | _ => []
  end.

(** [structure.name]: an own property, or [undefined]. *)
Definition prop (structure : object) (name : string) : option jsval :=
  JSMap.get (str name) structure.

(** [if (structure.name)] *)
Definition truthyProp (structure : object) (name : string) : option jsval :=
  match prop structure name with
  | Some v => if truthy v then Some v else None
  | None => None
  end.

End AstUtils.

Import AstUtils.

(** ** Outcome of code that may throw *)

Inductive completion (A : Type) : Type :=
| Normal (a : A)
| Throw.

Arguments Normal {A}.
Arguments Throw {A}.

(** ** BackendAnalyzer: route extraction *)

Module BackendAnalyzer.

(** An entry of [expectedBody]; only [required] is read. *)
Record bodyField : Type := { required : bool }.

(** The endpoint object built by [extractEndpointFromCall].  The fields
    [responseStructure], [statusCodes] and [description], which no
    validator reads, are left out. *)
Record endpoint : Type := {
  method : jsstring;
  path : jsstring;
  originalPath : jsstring;
  basePath : jsstring;
  file : jsstring;
  line : nat;
  middleware : list jsstring;
  controller : option jsstring;
  requiresAuth : bool;
  params : list jsstring;
  queryParams : list jsstring;
  expectedBody : JSMap.t bodyField;
  used : bool
}.

(** [endpoint.used = true] *)
Definition markUsed (e : endpoint) : endpoint :=
  {| method := method e; path := path e; originalPath := originalPath e;
     basePath := basePath e; file := file e; line := line e;
     middleware := middleware e; controller := controller e;
     requiresAuth := requiresAuth e; params := params e;
     queryParams := queryParams e; expectedBody := expectedBody e;
     used := true |}.

(** [`${endpoint.method} ${endpoint.path}`] *)
Definition endpointKey (e : endpoint) : jsstring :=
  method e ++ str " " ++ path e.

Definition routerObjects : list jsstring := [str "router"; str "app"; str "express"].

Definition routeVerbs : list jsstring :=
  [str "get"; str "post"; str "put"; str "patch"; str "delete"; str "options"; str "head"].

(** The patterns [/auth/i], [/jwt/i], ... of [detectAuthRequirement], each a
    case-insensitive search for a word. *)
Definition authWords : list jsstring :=
  [str "auth"; str "jwt"; str "verify"; str "protect"; str "authenticate";
   str "authorize"; str "guard"; str "secure"].

(** BackendAnalyzer.detectAuthRequirement *)
Definition detectAuthRequirement (middleware : list jsstring) : bool :=
  existsb (fun mw => existsb (fun word => includes (toLowerCase mw) word) authWords)
          middleware.

(** [`${node.object.name}.${node.property.name}`] *)
Definition memberName (object property : node) : jsstring :=
  interpolate (nodeName object) ++ str "." ++ interpolate (nodeName property).

(** The [forEach] over the elements of an array of middleware: reading
    [element.type] of a hole throws. *)
Fixpoint pushIdentifiers (elements : list (option node)) (middleware : list jsstring)
  : completion (list jsstring) :=
  match elements with
  | [] => Normal middleware
  | None :: _ => Throw
  | Some (Identifier name) :: rest => pushIdentifiers rest (middleware ++ [name])
  | Some _ :: rest => pushIdentifiers rest middleware
  end.

(** The loop of [extractMiddlewareAndController] over the arguments after
    the path; the last one is the one with nothing behind it. *)
Fixpoint classifyArguments (args : list node) (middleware : list jsstring)
         (controller : option jsstring)
  : completion (list jsstring * option jsstring) :=
  match args with
  | [] => Normal (middleware, controller)
  | arg :: rest =>
      let isLast := match rest with [] => true | _ => false end in
      match arg with
      | Identifier name =>
          if isLast then classifyArguments rest middleware (Some name)
          else classifyArguments rest (middleware ++ [name]) controller
      | MemberExpression object property =>
          let name := memberName object property in
          if isLast then classifyArguments rest middleware (Some name)
          else classifyArguments rest (middleware ++ [name]) controller
      | CallExpression callee _ _ =>
          let fallback :=
            match callee with
            | MemberExpression object property => memberName object property
            | _ => str "unknown"
            end in
          let name :=
            match nodeName callee with
            | Some n => if isEmpty n then fallback else n
            | None => fallback
            end in
          classifyArguments rest (middleware ++ [name]) controller
      | ArrayExpression elements =>
          match pushIdentifiers elements middleware with
          | Normal middleware' => classifyArguments rest middleware' controller
          | Throw => Throw
          end
      | _ => classifyArguments rest middleware controller
      end
  end.

(** BackendAnalyzer.extractMiddlewareAndController *)
Definition extractMiddlewareAndController (args : list node)
  : completion (list jsstring * option jsstring) :=
  classifyArguments (tl args) [] None.

(** BackendAnalyzer.extractEndpointFromCall; [Normal None] is [null]. *)
Definition extractEndpointFromCall (n : node) (basePath file : jsstring)
  : completion (option endpoint) :=
  match n with
  | CallExpression (MemberExpression object property) args loc =>
      if nameIn (nodeName object) routerObjects && nameIn (nodeName property) routeVerbs
      then
        let method := toUpperCase (interpolate (nodeName property)) in
        match extractStringValue (nth_error args 0) with
        | None => Normal None
        | Some routePath =>
            if isEmpty routePath then Normal None
            else
              let fullPath := normalizePath (basePath ++ routePath) in
              match extractMiddlewareAndController args with
              | Throw => Throw
              | Normal (middleware, controller) =>
                  Normal (Some
                    {| method := method;
                       path := fullPath;
                       originalPath := routePath;
                       basePath := basePath;
                       file := file;
                       line := match loc with Some l => l | None => 0 end;
                       middleware := middleware;
                       controller := controller;
                       requiresAuth := detectAuthRequirement middleware;
                       params := extractPathParams fullPath;
                       queryParams := [];
                       expectedBody := [];
                       used := false |})
              end
        end
      else Normal None
  | _ => Normal None
  end.

(** A parsed route file: its path relative to the project, the base path
    found by [detectBasePath] in its text, and the call expressions of its
    tree in the order in which the traversal visits them. *)
Record routeFile : Type := {
  relativePath : jsstring;
  detectedBasePath : jsstring;
  callExpressions : list node
}.

(** The [CallExpression] visitor of [analyzeRouteFile], call after call. *)
Fixpoint visitCalls (basePath file : jsstring) (calls : list node)
         (endpoints : JSMap.t endpoint) : completion (JSMap.t endpoint) :=
  match calls with
  | [] => Normal endpoints
  | n :: rest =>
      match extractEndpointFromCall n basePath file with
      | Throw => Throw
      | Normal None => visitCalls basePath file rest endpoints
      | Normal (Some e) =>
          visitCalls basePath file rest (JSMap.set (endpointKey e) e endpoints)
      end
  end.

(** BackendAnalyzer.analyzeRouteFile, from the parsed file on. *)
Definition analyzeRouteFile (f : routeFile) (endpoints : JSMap.t endpoint)
  : completion (JSMap.t endpoint) :=
  visitCalls (detectedBasePath f) (relativePath f) (callExpressions f) endpoints.

(** BackendAnalyzer.analyzeRoutes: the route files one after the other. *)
Fixpoint analyzeRoutes (files : list routeFile) (endpoints : JSMap.t endpoint)
  : completion (JSMap.t endpoint) :=
  match files with
  | [] => Normal endpoints
  | f :: rest =>
      match analyzeRouteFile f endpoints with
      | Throw => Throw
      | Normal endpoints' => analyzeRoutes rest endpoints'
      end
  end.

End BackendAnalyzer.

(** ** FrontendAnalyzer: call-site extraction *)

Module FrontendAnalyzer.

(** [call.type] *)
Inductive callShape : Type := fetch | axios | api | request | service.

(** The object returned by [detectAPICall]; a field the matched shape does
    not set is [None] ([undefined]). *)
Record apiCall : Type := {
  type : callShape;
  callMethod : option jsstring;
  urlArg : option node;
  optionsArg : option node;
  dataArg : option node;
  configArg : option node;
  serviceName : option jsstring;
  args : list node
}.

Definition clientVerbs : list jsstring :=
  [str "get"; str "post"; str "put"; str "patch"; str "delete"; str "head"; str "options"].

Definition apiObjects : list jsstring :=
  [str "api"; str "API"; str "client"; str "httpClient"].

(** [/api|service|client/i.test(name)] *)
Definition looksLikeService (name : jsstring) : bool :=
  existsb (fun word => includes (toLowerCase name) word)
          [str "api"; str "service"; str "client"].

(** FrontendAnalyzer.detectAPICall on a call expression. *)
Definition detectAPICall (n : node) : option apiCall :=
  match n with
  | CallExpression callee arguments _ =>
      let arg i := nth_error arguments i in
      let member :=
        match callee with
        | MemberExpression object property => Some (nodeName object, nodeName property)
        | _ => None
        end in
      let upper name := option_map toUpperCase name in
      if nameIs (nodeName callee) (str "fetch") then
        Some {| type := fetch; callMethod := None; urlArg := arg 0; optionsArg := arg 1;
                dataArg := None; configArg := None; serviceName := None; args := [] |}
      else
        match member with
        | Some (objectName, propertyName) =>
            if nameIs objectName (str "axios") && nameIn propertyName clientVerbs then
              Some {| type := axios; callMethod := upper propertyName; urlArg := arg 0;
                      optionsArg := None; dataArg := arg 1; configArg := arg 2;
                      serviceName := None; args := [] |}
            else if nameIn objectName apiObjects && nameIn propertyName clientVerbs then
              Some {| type := api; callMethod := upper propertyName; urlArg := arg 0;
                      optionsArg := None; dataArg := arg 1; configArg := arg 2;
                      serviceName := None; args := [] |}
            else if nameIs propertyName (str "request") then
              Some {| type := request; callMethod := None; urlArg := None;
                      optionsArg := None; dataArg := None; configArg := arg 0;
                      serviceName := None; args := [] |}
            else
              match objectName with
              | Some name =>
                  if negb (isEmpty name) && looksLikeService name then
                    Some {| type := service; callMethod := propertyName; urlArg := None;
                            optionsArg := None; dataArg := None; configArg := None;
                            serviceName := Some name; args := arguments |}
                  else None
              | None => None
              end
        | None =>
            if nameIs (nodeName callee) (str "request") then
              Some {| type := request; callMethod := None; urlArg := None;
                      optionsArg := None; dataArg := None; configArg := arg 0;
                      serviceName := None; args := [] |}
            else None
        end
  | _ => None
  end.

Definition authHeaders : list jsstring :=
  [str "authorization"; str "Authorization"; str "auth"; str "token";
   str "x-auth-token"; str "bearer"].

(** FrontendAnalyzer.checkAuthInHeaders: inside the [typeof headers ===
    'object'] branch the string test of the source can never hold. *)
Definition checkAuthInHeaders (headers : jsval) : bool :=
  if isObjectType headers
  then existsb (fun header => hasOwnProperty headers header) authHeaders
  else false.

Definition methodMapping : JSMap.t jsstring :=
  [(str "get", str "GET"); (str "fetch", str "GET"); (str "find", str "GET");
   (str "list", str "GET"); (str "create", str "POST"); (str "add", str "POST");
   (str "save", str "POST"); (str "update", str "PUT"); (str "edit", str "PUT");
   (str "patch", str "PATCH"); (str "delete", str "DELETE");
   (str "remove", str "DELETE"); (str "destroy", str "DELETE")].

(** FrontendAnalyzer.inferMethodFromServiceCall: an exact name gives the
    mapped verb; otherwise the first key contained in the name is returned
    as it is, and ['POST'] when there is none.  The names [constructor] and
    [__proto__], which index [Object.prototype], are outside the model. *)
Definition inferMethodFromServiceCall (methodName : jsstring) : jsstring :=
  let lowerMethod := toLowerCase methodName in
  match JSMap.get lowerMethod methodMapping with
  | Some verb => verb
  | None =>
      match find (fun key => includes lowerMethod key) (JSMap.keys methodMapping) with
      | Some key => key
      | None => str "POST"
      end
  end.

(** The call-site record returned by [normalizeAPICall]; the constant
    [expectedResponse] is left out. *)
Record callSite : Type := {
  method : jsstring;
  endpoint : jsstring;
  originalUrl : option jsstring;
  file : jsstring;
  line : nat;
  shape : callShape;
  data : jsval;
  hasAuth : bool;
  params : list jsstring;
  queryParams : list jsstring
}.

(** [call.method || 'GET'] *)
Definition initialMethod (call : apiCall) : jsstring :=
  match callMethod call with
  | Some m => if isEmpty m then str "GET" else m
  | None => str "GET"
  end.

(** [hasAuth] as computed from an options or config object. *)
Definition authOf (structure : object) : bool :=
  match truthyProp structure "headers" with
  | Some headers => checkAuthInHeaders headers
  | None => false
  end.

(** The first half of [normalizeAPICall]: method, raw endpoint, data and
    auth flag by call shape.  [None] stands for the exception that the
    [try] of the source turns into [null]. *)
Definition readCall (call : apiCall)
  : option (jsstring * option jsstring * jsval * bool) :=
  match type call with
  | fetch =>
      let endpoint := extractStringValue (urlArg call) in
      match optionsArg call with
      | Some optionsNode =>
          let options := extractObjectStructure optionsNode in
          let method :=
            match truthyProp options "method" with
            | Some (VStr m) => toUpperCase m
            | Some _ => str "GET"
            | None => initialMethod call
            end in
          let data :=
            match truthyProp options "body" with
            | Some body => body
            | None => VObj []
            end in
          Some (method, endpoint, data, authOf options)
      | None => Some (initialMethod call, endpoint, VObj [], false)
      end
  | axios | api =>
      let endpoint := extractStringValue (urlArg call) in
      let data :=
        match dataArg call with
        | Some dataNode => VObj (extractObjectStructure dataNode)
        | None => VObj []
        end in
      let hasAuth :=
        match configArg call with
        | Some configNode => authOf (extractObjectStructure configNode)
        | None => false
        end in
      Some (initialMethod call, endpoint, data, hasAuth)
  | service =>
      let endpoint :=
        str "/" ++ interpolate (serviceName call) ++ str "/" ++ interpolate (callMethod call) in
      match callMethod call with
      | None => None
      | Some name =>
          let data :=
            match args call with
            | first :: _ => VObj (extractObjectStructure first)
            | [] => VObj []
            end in
          Some (inferMethodFromServiceCall name, Some endpoint, data, false)
      end
  | request => Some (initialMethod call, None, VObj [], false)
  end.

(** FrontendAnalyzer.normalizeAPICall for a call detected in [file] at
    [line]; [None] is [null]. *)
Definition normalizeAPICall (call : apiCall) (file : jsstring) (line : nat)
  : option callSite :=
  match readCall call with
  | None => None
  | Some (method, None, _, _) => None
  | Some (method, Some rawEndpoint, data, hasAuth) =>
      if isEmpty rawEndpoint then None
      else
        let endpoint := cleanEndpoint rawEndpoint in
        Some {| method := method;
                endpoint := endpoint;
                originalUrl := extractStringValue (urlArg call);
                file := file;
                line := line;
                shape := type call;
                data := data;
                hasAuth := hasAuth;
                params := extractURLParams endpoint;
                queryParams := extractQueryParams endpoint |}
  end.

(** [`${call.method} ${call.endpoint}`] *)
Definition callKey (c : callSite) : jsstring :=
  method c ++ str " " ++ endpoint c.

(** [if (!apiCalls.has(key)) apiCalls.set(key, []); apiCalls.get(key).push(c)] *)
Definition addCall (apiCalls : JSMap.t (list callSite)) (c : callSite)
  : JSMap.t (list callSite) :=
  let key := callKey c in
  match JSMap.get key apiCalls with
  | Some calls => JSMap.set key (calls ++ [c]) apiCalls
  | None => JSMap.set key [c] apiCalls
  end.

(** The line recorded for a call expression: [node.loc?.start?.line || 0]. *)
Definition lineOf (n : node) : nat :=
  match n with
  | CallExpression _ _ (Some l) => l
  | _ => 0
  end.

(** FrontendAnalyzer.extractAPICalls over the call expressions of one file,
    in traversal order. *)
Definition extractAPICalls (calls : list node) (file : jsstring)
           (apiCalls : JSMap.t (list callSite)) : JSMap.t (list callSite) :=
  let detected :=
    flat_map (fun n => match detectAPICall n with
                       | Some call => [(call, lineOf n)]
                       | None => []
                       end) calls in
  fold_left (fun acc '(call, line) =>
               match normalizeAPICall call file line with
               | Some normalizedCall => addCall acc normalizedCall
               | None => acc
               end) detected apiCalls.

End FrontendAnalyzer.

(** Short names for the two analyzers. *)
Module B := BackendAnalyzer.
Module F := FrontendAnalyzer.

(** ** Issues and rules *)

Module Issues.

Inductive issueType : Type :=
| MISSING_BACKEND_ENDPOINT
| UNUSED_ENDPOINT
| MISSING_URL_PARAM
| EXTRA_URL_PARAM
| MISSING_BODY_FIELD
| EXTRA_BODY_FIELD
| MISSING_QUERY_PARAM
| SENSITIVE_ENDPOINT_NO_AUTH
| MISSING_AUTH_HEADER
| PUBLIC_ENDPOINT_HAS_AUTH
| SENSITIVE_METHOD_NO_AUTH
| DUPLICATE_COMPONENT
| UNUSED_DS_COMPONENT
| VERIFY_PROPS_USAGE.

Inductive severityLevel : Type := CRITICAL | HIGH | MEDIUM | LOW.

(** An issue object.  A field that a given kind of issue does not carry is
    [None]; [message], [details] and [suggestions], which repeat the same
    data in prose, are left out. *)
Record issue : Type := {
  type : issueType;
  severity : severityLevel;
  endpoint : option jsstring;
  frontend : option jsstring;
  backend : option jsstring;
  designSystem : option jsstring;
  line : option nat;
  param : option jsstring;
  field : option jsstring;
  component : option jsstring;
  dsComponent : option jsstring;
  file : option jsstring
}.

Definition issueType_eqb (a b : issueType) : bool :=
  match a, b with
  | MISSING_BACKEND_ENDPOINT, MISSING_BACKEND_ENDPOINT
  | UNUSED_ENDPOINT, UNUSED_ENDPOINT
  | MISSING_URL_PARAM, MISSING_URL_PARAM
  | EXTRA_URL_PARAM, EXTRA_URL_PARAM
  | MISSING_BODY_FIELD, MISSING_BODY_FIELD
  | EXTRA_BODY_FIELD, EXTRA_BODY_FIELD
  | MISSING_QUERY_PARAM, MISSING_QUERY_PARAM
  | SENSITIVE_ENDPOINT_NO_AUTH, SENSITIVE_ENDPOINT_NO_AUTH
  | MISSING_AUTH_HEADER, MISSING_AUTH_HEADER
  | PUBLIC_ENDPOINT_HAS_AUTH, PUBLIC_ENDPOINT_HAS_AUTH
  | SENSITIVE_METHOD_NO_AUTH, SENSITIVE_METHOD_NO_AUTH
  | DUPLICATE_COMPONENT, DUPLICATE_COMPONENT
  | UNUSED_DS_COMPONENT, UNUSED_DS_COMPONENT
  | VERIFY_PROPS_USAGE, VERIFY_PROPS_USAGE => true
  | _, _ => false
  end.

(** The issues of a given type, in the order in which they were pushed. *)
Definition ofType (t : issueType) (issues : list issue) : list issue :=
  filter (fun i => issueType_eqb (type i) t) issues.

(** A pattern of the configuration: a regular expression, known by its
    [test], or a string. *)
Inductive pattern : Type :=
| PRegExp (test : jsstring -> bool)
| PString (s : jsstring).

(** [rules.severity]; [None] is an entry that is missing or falsy. *)
Record severityRules : Type := {
  missingEndpoint : option severityLevel;
  missingAuth : option severityLevel;
  missingParam : option severityLevel;
  missingBodyField : option severityLevel;
  unusedEndpoint : option severityLevel;
  sensitiveEndpointNoAuth : option severityLevel;
  unusedComponent : option severityLevel
}.

(** [rules.security] *)
Record securityRules : Type := {
  publicEndpoints : option (list pattern);
  sensitiveMethods : option (list jsstring)
}.

Record rules : Type := {
  requireAuthPatterns : option (list pattern);
  severityOf : severityRules;
  security : option securityRules
}.

(** [configured || fallback] *)
Definition orElse (A : Type) (configured : option A) (fallback : A) : A :=
  match configured with
  | Some v => v
  | None => fallback
  end.

(** The [rules] block of config/default.config.js. *)
Definition defaultRules : rules :=
  {| requireAuthPatterns :=
       Some [PRegExp (fun key => includes (toLowerCase key) (str "delete"));
             PRegExp (fun key => includes (toLowerCase key) (str "admin"));
             PRegExp (fun key => includes (toLowerCase key) (str "create"))];
     severityOf :=
       {| missingEndpoint := Some CRITICAL;
          missingAuth := Some HIGH;
          missingParam := Some HIGH;
          missingBodyField := Some MEDIUM;
          unusedEndpoint := Some LOW;
          sensitiveEndpointNoAuth := None;
          unusedComponent := None |};
     security := None |}.

End Issues.

Import Issues.

(** ** EndpointValidator *)

Module EndpointValidator.

Section Validator.

Variable R : rules.

Definition missingEndpointIssue (key : jsstring) (call : F.callSite) : issue :=
  {| type := MISSING_BACKEND_ENDPOINT;
     severity := orElse (missingEndpoint (severityOf R)) CRITICAL;
     endpoint := Some key;
     frontend := Some (F.file call);
     backend := None; designSystem := None;
     line := Some (F.line call);
     param := None; field := None; component := None; dsComponent := None;
     file := None |}.

Definition unusedEndpointIssue (key : jsstring) (e : B.endpoint) : issue :=
  {| type := UNUSED_ENDPOINT;
     severity := orElse (unusedEndpoint (severityOf R)) LOW;
     endpoint := Some key;
     frontend := None;
     backend := Some (B.file e); designSystem := None;
     line := Some (B.line e);
     param := None; field := None; component := None; dsComponent := None;
     file := None |}.

Definition missingUrlParamIssue (e : B.endpoint) (call : F.callSite) (p : jsstring) : issue :=
  {| type := MISSING_URL_PARAM;
     severity := orElse (missingParam (severityOf R)) HIGH;
     endpoint := Some (B.endpointKey e);
     frontend := Some (F.file call);
     backend := Some (B.file e); designSystem := None;
     line := None;
     param := Some p; field := None; component := None; dsComponent := None;
     file := None |}.

Definition extraUrlParamIssue (e : B.endpoint) (call : F.callSite) (p : jsstring) : issue :=
  {| type := EXTRA_URL_PARAM;
     severity := LOW;
     endpoint := Some (B.endpointKey e);
     frontend := Some (F.file call);
     backend := None; designSystem := None;
     line := None;
     param := Some p; field := None; component := None; dsComponent := None;
     file := None |}.

Definition missingBodyFieldIssue (e : B.endpoint) (call : F.callSite) (f : jsstring) : issue :=
  {| type := MISSING_BODY_FIELD;
     severity := orElse (missingBodyField (severityOf R)) MEDIUM;
     endpoint := Some (B.endpointKey e);
     frontend := Some (F.file call);
     backend := Some (B.file e); designSystem := None;
     line := None;
     param := None; field := Some f; component := None; dsComponent := None;
     file := None |}.

Definition extraBodyFieldIssue (e : B.endpoint) (call : F.callSite) (f : jsstring) : issue :=
  {| type := EXTRA_BODY_FIELD;
     severity := LOW;
     endpoint := Some (B.endpointKey e);
     frontend := Some (F.file call);
     backend := None; designSystem := None;
     line := None;
     param := None; field := Some f; component := None; dsComponent := None;
     file := None |}.

Definition missingQueryParamIssue (e : B.endpoint) (call : F.callSite) (p : jsstring) : issue :=
  {| type := MISSING_QUERY_PARAM;
     severity := LOW;
     endpoint := Some (B.endpointKey e);
     frontend := Some (F.file call);
     backend := Some (B.file e); designSystem := None;
     line := None;
     param := Some p; field := None; component := None; dsComponent := None;
     file := None |}.

(** EndpointValidator.validateURLParams: the issues it pushes, in order. *)
Definition validateURLParams (e : B.endpoint) (call : F.callSite) : list issue :=
  flat_map (fun p =>
              if negb (arrayIncludes (F.params call) p)
                 && negb (includes (F.endpoint call) (":"%char :: p))
              then [missingUrlParamIssue e call p] else [])
           (B.params e)
  ++
  flat_map (fun p =>
              if negb (arrayIncludes (B.params e) p)
              then [extraUrlParamIssue e call p] else [])
           (F.params call).

(** EndpointValidator.validateRequestBody: nothing is checked when the call
    site's data has no own enumerable property.  The two calls of
    [hasOwnProperty] are those of [Object.prototype]: data or a schema with
    an own property of that name, on which the source throws, is outside
    the model. *)
Definition validateRequestBody (e : B.endpoint) (call : F.callSite) : list issue :=
  let body := F.data call in
  if negb (truthy body) || Nat.eqb (length (Object_keys body)) 0 then []
  else
    flat_map (fun '(f, bodyField) =>
                if B.required bodyField && negb (hasOwnProperty body f)
                then [missingBodyFieldIssue e call f] else [])
             (B.expectedBody e)
    ++
    flat_map (fun f =>
                if negb (JSMap.has f (B.expectedBody e))
                then [extraBodyFieldIssue e call f] else [])
             (Object_keys body).

(** EndpointValidator.validateQueryParams *)
Definition validateQueryParams (e : B.endpoint) (call : F.callSite) : list issue :=
  flat_map (fun p =>
              if negb (arrayIncludes (F.queryParams call) p)
              then [missingQueryParamIssue e call p] else [])
           (B.queryParams e).

(** EndpointValidator.validateEndpointUsage *)
Definition validateEndpointUsage (e : B.endpoint) (call : F.callSite) : list issue :=
  validateURLParams e call ++ validateRequestBody e call ++ validateQueryParams e call.

(** The body of the inner [calls.forEach] of [validate] for one call site:
    the endpoint map after the call and the issues pushed. *)
Definition validateCall (key : jsstring) (backendEndpoints : JSMap.t B.endpoint)
           (call : F.callSite) : JSMap.t B.endpoint * list issue :=
  match JSMap.get key backendEndpoints with
  | None => (backendEndpoints, [missingEndpointIssue key call])
  | Some e =>
      let e' := B.markUsed e in
      (JSMap.set key e' backendEndpoints, validateEndpointUsage e' call)
  end.

Fixpoint validateCalls (key : jsstring) (backendEndpoints : JSMap.t B.endpoint)
         (calls : list F.callSite) : JSMap.t B.endpoint * list issue :=
  match calls with
  | [] => (backendEndpoints, [])
  | call :: rest =>
      let (endpoints', issues) := validateCall key backendEndpoints call in
      let (endpoints'', issues') := validateCalls key endpoints' rest in
      (endpoints'', issues ++ issues')
  end.

(** The first loop of [validate], over the entries of the call-site map. *)
Fixpoint reconcile (backendEndpoints : JSMap.t B.endpoint)
         (frontendAPICalls : JSMap.t (list F.callSite))
  : JSMap.t B.endpoint * list issue :=
  match frontendAPICalls with
  | [] => (backendEndpoints, [])
  | (key, calls) :: rest =>
      let (endpoints', issues) := validateCalls key backendEndpoints calls in
      let (endpoints'', issues') := reconcile endpoints' rest in
      (endpoints'', issues ++ issues')
  end.

(** The second loop of [validate], over the endpoints after reconciliation. *)
Definition findUnusedEndpoints (backendEndpoints : JSMap.t B.endpoint) : list issue :=
  flat_map (fun '(key, e) => if negb (B.used e) then [unusedEndpointIssue key e] else [])
           backendEndpoints.

(** EndpointValidator.validate: the endpoint map as the run leaves it and
    the issues returned. *)
Definition validate (backendEndpoints : JSMap.t B.endpoint)
           (frontendAPICalls : JSMap.t (list F.callSite))
  : JSMap.t B.endpoint * list issue :=
  let (endpoints', issues) := reconcile backendEndpoints frontendAPICalls in
  (endpoints', issues ++ findUnusedEndpoints endpoints').

End Validator.

End EndpointValidator.

(** ** SecurityValidator *)

Module SecurityValidator.

Definition sensitiveKeywords : list jsstring :=
  [str "admin"; str "delete"; str "remove"; str "destroy"; str "create"; str "add";
   str "update"; str "edit"; str "modify"; str "password"; str "auth"; str "login";
   str "register"; str "user"; str "profile"; str "settings"; str "config";
   str "upload"; str "file"].

Definition staticExtensions : list jsstring :=
  [str ".css"; str ".js"; str ".png"; str ".jpg"; str ".gif"; str ".ico"].

(** [/^GET .*\.(css|js|png|jpg|gif|ico)$/.test(key)] *)
Definition isStaticFile (key : jsstring) : bool :=
  match stripPrefix (str "GET ") key with
  | Some rest =>
      negb (existsb isLineTerminator rest)
      && existsb (fun ext => endsWith rest ext) staticExtensions
  | None => false
  end.

(** SecurityValidator.isExemptFromAuth: the patterns in the order of the
    source. *)
Definition isExemptFromAuth (key : jsstring) : bool :=
  endsWith key (str "/health")
  || endsWith key (str "/status")
  || endsWith key (str "/version")
  || endsWith key (str "/ping")
  || includes key (str "/public/")
  || includes key (str "/static/")
  || includes key (str "/assets/")
  || JS.eqb key (str "GET /")
  || isStaticFile key
  || endsWith key (str "/auth/login")
  || endsWith key (str "/auth/register")
  || endsWith key (str "/auth/forgot-password")
  || endsWith key (str "/auth/reset-password").

Definition authMiddlewareWords : list jsstring :=
  [str "auth"; str "jwt"; str "verify"; str "protect"; str "authenticate";
   str "authorize"; str "guard"; str "secure"; str "token"].

(** SecurityValidator.isAuthMiddleware *)
Definition isAuthMiddleware (middlewareName : jsstring) : bool :=
  existsb (fun word => includes (toLowerCase middlewareName) word) authMiddlewareWords.

Section Validator.

Variable R : rules.

(** SecurityValidator.isSensitiveEndpoint *)
Definition isSensitiveEndpoint (key : jsstring) : bool :=
  let patterns := orElse (requireAuthPatterns R) [] in
  let matchesPattern :=
    existsb (fun p =>
               match p with
               | PRegExp test => test key
               | PString s => includes (toLowerCase key) (toLowerCase s)
               end) patterns in
  if matchesPattern then true
  else existsb (fun keyword => includes (toLowerCase key) keyword) sensitiveKeywords.

(** SecurityValidator.isPublicEndpoint *)
Definition isPublicEndpoint (key : jsstring) (publicPatterns : list pattern) : bool :=
  existsb (fun p =>
             match p with
             | PString s =>
                 if endsWith s (str "*") then startsWith key (removelast s)
                 else JS.eqb key s
             | PRegExp test => test key
             end) publicPatterns.

Definition sensitiveEndpointNoAuthIssue (key : jsstring) (e : B.endpoint) : issue :=
  {| type := SENSITIVE_ENDPOINT_NO_AUTH;
     severity := orElse (sensitiveEndpointNoAuth (severityOf R)) CRITICAL;
     endpoint := Some key;
     frontend := None;
     backend := Some (B.file e); designSystem := None;
     line := Some (B.line e);
     param := None; field := None; component := None; dsComponent := None;
     file := None |}.

Definition missingAuthHeaderIssue (key : jsstring) (e : B.endpoint) (call : F.callSite) : issue :=
  {| type := MISSING_AUTH_HEADER;
     severity := orElse (missingAuth (severityOf R)) HIGH;
     endpoint := Some key;
     frontend := Some (F.file call);
     backend := Some (B.file e); designSystem := None;
     line := Some (F.line call);
     param := None; field := None; component := None; dsComponent := None;
     file := None |}.

Definition publicEndpointHasAuthIssue (key : jsstring) (e : B.endpoint) : issue :=
  {| type := PUBLIC_ENDPOINT_HAS_AUTH;
     severity := MEDIUM;
     endpoint := Some key;
     frontend := None;
     backend := Some (B.file e); designSystem := None;
     line := None;
     param := None; field := None; component := None; dsComponent := None;
     file := None |}.

Definition sensitiveMethodNoAuthIssue (key : jsstring) (e : B.endpoint) : issue :=
  {| type := SENSITIVE_METHOD_NO_AUTH;
     severity := HIGH;
     endpoint := Some key;
     frontend := None;
     backend := Some (B.file e); designSystem := None;
     line := Some (B.line e);
     param := None; field := None; component := None; dsComponent := None;
     file := None |}.

(** SecurityValidator.validateAuthenticationRequirements *)
Definition validateAuthenticationRequirements (backendEndpoints : JSMap.t B.endpoint)
  : list issue :=
  flat_map (fun '(key, e) =>
              let isSensitive := isSensitiveEndpoint key in
              if isSensitive && negb (B.requiresAuth e)
              then [sensitiveEndpointNoAuthIssue key e] else [])
           backendEndpoints.

(** SecurityValidator.validateFrontendAuthentication *)
Definition validateFrontendAuthentication (backendEndpoints : JSMap.t B.endpoint)
           (frontendAPICalls : JSMap.t (list F.callSite)) : list issue :=
  flat_map (fun '(key, calls) =>
              match JSMap.get key backendEndpoints with
              | Some e =>
                  if B.requiresAuth e
                  then flat_map (fun call =>
                                   if negb (F.hasAuth call)
                                   then [missingAuthHeaderIssue key e call] else [])
                                calls
                  else []
              | None => []
              end)
           frontendAPICalls.

(** SecurityValidator.validatePublicEndpoints *)
Definition validatePublicEndpoints (backendEndpoints : JSMap.t B.endpoint) : list issue :=
  let publicPatterns :=
    match security R with
    | Some s => orElse (publicEndpoints s) []
    | None => []
    end in
  flat_map (fun '(key, e) =>
              let isPublic := isPublicEndpoint key publicPatterns in
              if isPublic && B.requiresAuth e
              then [publicEndpointHasAuthIssue key e] else [])
           backendEndpoints.

Definition defaultSensitiveMethods : list jsstring :=
  [str "POST"; str "PUT"; str "PATCH"; str "DELETE"].

(** SecurityValidator.validateSensitiveMethods *)
Definition validateSensitiveMethods (backendEndpoints : JSMap.t B.endpoint) : list issue :=
  let sensitive :=
    match security R with
    | Some s => orElse (sensitiveMethods s) defaultSensitiveMethods
    | None => defaultSensitiveMethods
    end in
  flat_map (fun '(key, e) =>
              if arrayIncludes sensitive (B.method e) && negb (B.requiresAuth e)
              then
                let isExempt := isExemptFromAuth key in
                if negb isExempt then [sensitiveMethodNoAuthIssue key e] else []
              else [])
           backendEndpoints.

(** SecurityValidator.validate *)
Definition validate (backendEndpoints : JSMap.t B.endpoint)
           (frontendAPICalls : JSMap.t (list F.callSite)) : list issue :=
  validateAuthenticationRequirements backendEndpoints
  ++ validateFrontendAuthentication backendEndpoints frontendAPICalls
  ++ validatePublicEndpoints backendEndpoints
  ++ validateSensitiveMethods backendEndpoints.

End Validator.

End SecurityValidator.

(** ** ComponentValidator *)

Module ComponentValidator.

(** An entry of [props]. *)
Record propInfo : Type := {
  propName : jsstring;
  hasDefault : bool
}.

(** A design-system component as DesignSystemAnalyzer stores it; the
    descriptive fields that only go into [details] are left out. *)
Record dsComponentInfo : Type := {
  name : jsstring;
  file : jsstring;
  line : nat;
  props : list propInfo;
  used : bool;
  usedIn : list jsstring
}.

(** A frontend component as FrontendAnalyzer stores it. *)
Record feComponentInfo : Type := {
  feName : jsstring;
  feFile : jsstring
}.

(** [component.used = true; component.usedIn.push(file)] *)
Definition markUsedIn (usageFile : jsstring) (c : dsComponentInfo) : dsComponentInfo :=
  {| name := name c; file := file c; line := line c; props := props c;
     used := true; usedIn := usedIn c ++ [usageFile] |}.

(** An import declaration as [extractImportsFromFrontend] records it. *)
Record importInfo : Type := {
  source : jsstring;
  specifiers : list (option jsstring * option jsstring);
  isDefault : bool;
  defaultName : option jsstring
}.

(** The import that [extractImportsFromFrontend] records once for every
    frontend component. *)
Definition simulatedImport : importInfo :=
  {| source := str "@design-system/components";
     specifiers := [(Some (str "Button"), Some (str "Button"));
                    (Some (str "Input"), Some (str "Input"))];
     isDefault := false;
     defaultName := None |}.

(** ComponentValidator.extractImportsFromFrontend *)
Definition extractImportsFromFrontend (frontendComponents : JSMap.t feComponentInfo)
  : JSMap.t (list importInfo) :=
  fold_left (fun imports '(_, component) =>
               let f := feFile component in
               let existing := match JSMap.get f imports with
                               | Some l => l
                               | None => []
                               end in
               JSMap.set f (existing ++ [simulatedImport]) imports)
            frontendComponents [].

(** ComponentValidator.isDesignSystemImport *)
Definition isDesignSystemImport (source : jsstring) : bool :=
  atThen (str "design-system") source
  || atThen (str "ui") source
  || atThen (str "components") source
  || includes source (str "design-system")
  || includes source (str "ui-kit")
  || includes source (str "component-library")
  || includes source (str "../design-system")
  || includes source (str "../components").

(** A truthy string, as in [spec.imported || spec.local]. *)
Definition truthyName (s : option jsstring) : option jsstring :=
  match s with
  | Some n => if isEmpty n then None else Some n
  | None => None
  end.

(** Marking one name imported in [usageFile]. *)
Definition markName (usageFile : jsstring) (ds : JSMap.t dsComponentInfo)
           (componentName : option jsstring) : JSMap.t dsComponentInfo :=
  match componentName with
  | Some n =>
      match JSMap.get n ds with
      | Some c => JSMap.set n (markUsedIn usageFile c) ds
      | None => ds
      end
  | None => ds
  end.

(** The body of [importInfo.forEach] in [validateComponentUsage]. *)
Definition markImport (usageFile : jsstring) (ds : JSMap.t dsComponentInfo)
           (imp : importInfo) : JSMap.t dsComponentInfo :=
  if isDesignSystemImport (source imp) then
    let ds' :=
      fold_left (fun acc '(imported, local) =>
                   markName usageFile acc
                     match truthyName imported with
                     | Some n => Some n
                     | None => local
                     end)
                (specifiers imp) ds in
    if isDefault imp then
      match truthyName (defaultName imp) with
      | Some n => markName usageFile ds' (Some n)
      | None => ds'
      end
    else ds'
  else ds.

(** The marking loop of [validateComponentUsage]. *)
Definition markUsage (ds : JSMap.t dsComponentInfo)
           (frontendComponents : JSMap.t feComponentInfo) : JSMap.t dsComponentInfo :=
  fold_left (fun acc '(usageFile, imports) =>
               fold_left (markImport usageFile) imports acc)
            (extractImportsFromFrontend frontendComponents) ds.

(** The cells [1..] of row [i] of the matrix of [levenshteinDistance]:
    [diagonal] is [matrix[i-1][j-1]], [above] the rest of row [i-1] from
    column [j], [left] is [matrix[i][j-1]]. *)
Fixpoint rowCells (c2 : ascii) (str1 : jsstring) (diagonal : nat) (above : list nat)
         (left : nat) : list nat :=
  match str1, above with
  | c1 :: str1', up :: above' =>
      let cell :=
        if Ascii.eqb c2 c1 then diagonal
        else Nat.min (diagonal + 1) (Nat.min (left + 1) (up + 1)) in
      cell :: rowCells c2 str1' up above' cell
  | _, _ => []
  end.

(** Row [i] from row [i-1]. *)
Definition nextRow (str1 : jsstring) (previous : list nat) (i : nat) (c2 : ascii)
  : list nat :=
  match previous with
  | first :: above => i :: rowCells c2 str1 first above i
  | [] => [i]
  end.

Fixpoint fillRows (str1 : jsstring) (previous : list nat) (i : nat) (str2 : jsstring)
  : list nat :=
  match str2 with
  | [] => previous
  | c2 :: str2' => fillRows str1 (nextRow str1 previous i c2) (S i) str2'
  end.

(** ComponentValidator.levenshteinDistance: [matrix[str2.length][str1.length]] *)
Definition levenshteinDistance (str1 str2 : jsstring) : nat :=
  last (fillRows str1 (seq 0 (S (length str1))) 1 str2) 0.

(** ComponentValidator.calculateSimilarity, as the fraction
    [(numerator, denominator)] that the source divides out. *)
Definition calculateSimilarity (str1 str2 : jsstring) : Z * Z :=
  let longer := if length str2 <? length str1 then str1 else str2 in
  let shorter := if length str2 <? length str1 then str2 else str1 in
  if Nat.eqb (length longer) 0 then (1, 1)%Z
  else
    let distance := levenshteinDistance longer shorter in
    ((Z.of_nat (length longer) - Z.of_nat distance)%Z, Z.of_nat (length longer)).

(** [similarity > 0.8].  For a quotient of string lengths the rounding of
    the division and of the constant cannot change the comparison with
    four fifths. *)
Definition above80 (similarity : Z * Z) : bool :=
  let (numerator, denominator) := similarity in
  (4 * denominator <? 5 * numerator)%Z.

(** The [normalize] of [areComponentsSimilar]. *)
Definition normalizeName (n : jsstring) : jsstring :=
  let n := toLowerCase n in
  let n := dropSuffix (str "component") n in
  let n := dropPrefix (str "ui") n in
  let n := dropPrefix (str "ds") n in
  let n := replaceFirstAlt [str "button"; str "btn"] (str "button") n in
  let n := replaceFirstAlt [str "input"; str "field"] (str "input") n in
  let n := replaceFirstAlt [str "modal"; str "dialog"] (str "modal") n in
  replaceFirstAlt [str "card"; str "panel"] (str "card") n.

(** ComponentValidator.areComponentsSimilar *)
Definition areComponentsSimilar (name1 name2 : jsstring) : bool :=
  let norm1 := normalizeName name1 in
  let norm2 := normalizeName name2 in
  if JS.eqb norm1 norm2 then true
  else if includes norm1 norm2 || includes norm2 norm1 then true
  else above80 (calculateSimilarity norm1 norm2).

Section Validator.

Variable R : rules.

Definition duplicateComponentIssue (component : feComponentInfo) (ds : dsComponentInfo)
  : issue :=
  {| type := DUPLICATE_COMPONENT;
     severity := MEDIUM;
     endpoint := None;
     frontend := Some (feFile component);
     backend := None;
     designSystem := Some (file ds);
     Issues.line := None;
     param := None; field := None;
     Issues.component := Some (feName component);
     dsComponent := Some (name ds);
     Issues.file := None |}.

Definition unusedComponentIssue (componentName : jsstring) (c : dsComponentInfo) : issue :=
  {| type := UNUSED_DS_COMPONENT;
     severity := orElse (unusedComponent (severityOf R)) LOW;
     endpoint := None;
     frontend := None;
     backend := None;
     designSystem := Some (file c);
     Issues.line := Some (line c);
     param := None; field := None;
     Issues.component := Some componentName;
     dsComponent := None;
     Issues.file := None |}.

Definition verifyPropsUsageIssue (c : dsComponentInfo) (usageFile : jsstring) : issue :=
  {| type := VERIFY_PROPS_USAGE;
     severity := LOW;
     endpoint := None;
     frontend := None;
     backend := None;
     designSystem := None;
     Issues.line := None;
     param := None; field := None;
     Issues.component := Some (name c);
     dsComponent := None;
     Issues.file := Some usageFile |}.

(** ComponentValidator.detectIncorrectUsage *)
Definition detectIncorrectUsage (ds : JSMap.t dsComponentInfo)
           (frontendComponents : JSMap.t feComponentInfo) : list issue :=
  let dsComponentNames := map toLowerCase (JSMap.keys ds) in
  flat_map (fun '(_, component) =>
              let componentName := toLowerCase (feName component) in
              match find (fun dsName => areComponentsSimilar componentName dsName)
                         dsComponentNames with
              | Some similarDSComponent =>
                  if isEmpty similarDSComponent then []
                  else
                    match find (fun c => JS.eqb (toLowerCase (name c)) similarDSComponent)
                               (JSMap.values ds) with
                    | Some dsComponent =>
                        if negb (used dsComponent)
                        then [duplicateComponentIssue component dsComponent]
                        else []
                    | None => []
                    end
              | None => []
              end)
           frontendComponents.

(** ComponentValidator.validateComponentUsage: the design-system map after
    the marking, and the issues pushed. *)
Definition validateComponentUsage (ds : JSMap.t dsComponentInfo)
           (frontendComponents : JSMap.t feComponentInfo)
  : JSMap.t dsComponentInfo * list issue :=
  let ds' := markUsage ds frontendComponents in
  (ds', detectIncorrectUsage ds' frontendComponents).

(** ComponentValidator.findUnusedComponents *)
Definition findUnusedComponents (ds : JSMap.t dsComponentInfo) : list issue :=
  flat_map (fun '(componentName, c) =>
              if negb (used c) then [unusedComponentIssue componentName c] else [])
           ds.

(** ComponentValidator.validateBasicPropsUsage *)
Definition validateBasicPropsUsage (c : dsComponentInfo) (usageFiles : list jsstring)
  : list issue :=
  let requiredProps :=
    filter (fun p => negb (hasDefault p) && negb (JS.eqb (propName p) (str "children")))
           (props c) in
  if 0 <? length requiredProps
  then map (verifyPropsUsageIssue c) usageFiles
  else [].

(** ComponentValidator.validatePropsConsistency *)
Definition validatePropsConsistency (ds : JSMap.t dsComponentInfo) : list issue :=
  flat_map (fun '(_, c) =>
              if used c && (0 <? length (props c))
              then validateBasicPropsUsage c (usedIn c)
              else [])
           ds.

(** ComponentValidator.validate; an argument is [None] when the caller
    passes [null] or [undefined]. *)
Definition validate (designSystemComponents : option (JSMap.t dsComponentInfo))
           (frontendComponents : option (JSMap.t feComponentInfo)) : list issue :=
  match designSystemComponents, frontendComponents with
  | Some ds, Some fe =>
      let (ds', usageIssues) := validateComponentUsage ds fe in
      usageIssues
      ++ findUnusedComponents ds'
      ++ detectIncorrectUsage ds' fe
      ++ validatePropsConsistency ds'
  | _, _ => []
  end.

End Validator.

End ComponentValidator.

(** ** CacheManager: the read path *)

Module CacheManager.

(** A file of the cache directory: its modification time in milliseconds
    and its text. *)
Record fileEntry : Type := {
  mtime : Z;
  content : jsstring
}.

(** An entry of the in-memory cache (node-cache, an external library):
    the stored value, [None] for [undefined], and the time in
    milliseconds after which [get] no longer returns it. *)
Record memoryEntry : Type := {
  value : option jsval;
  expiresAt : Z
}.

Record statistics : Type := {
  hits : nat;
  misses : nat;
  writes : nat;
  deletes : nat
}.

(** The cache manager with the part of the file system it owns. *)
Record cache : Type := {
  cacheDir : jsstring;
  ttl : Z;
  maxAge : Z;
  memoryCache : JSMap.t memoryEntry;
  disk : JSMap.t fileEntry;
  stats : statistics
}.

Definition withStats (c : cache) (s : statistics) : cache :=
  {| cacheDir := cacheDir c; ttl := ttl c; maxAge := maxAge c;
     memoryCache := memoryCache c; disk := disk c; stats := s |}.

Definition withDisk (c : cache) (d : JSMap.t fileEntry) : cache :=
  {| cacheDir := cacheDir c; ttl := ttl c; maxAge := maxAge c;
     memoryCache := memoryCache c; disk := d; stats := stats c |}.

Definition withMemory (c : cache) (m : JSMap.t memoryEntry) : cache :=
  {| cacheDir := cacheDir c; ttl := ttl c; maxAge := maxAge c;
     memoryCache := m; disk := disk c; stats := stats c |}.

(** [this.stats.hits++], [this.stats.misses++], [this.stats.deletes++] *)
Definition countHit (c : cache) : cache :=
  withStats c {| hits := S (hits (stats c)); misses := misses (stats c);
                 writes := writes (stats c); deletes := deletes (stats c) |}.

Definition countMiss (c : cache) : cache :=
  withStats c {| hits := hits (stats c); misses := S (misses (stats c));
                 writes := writes (stats c); deletes := deletes (stats c) |}.

Definition countDelete (c : cache) : cache :=
  withStats c {| hits := hits (stats c); misses := misses (stats c);
                 writes := writes (stats c); deletes := S (deletes (stats c)) |}.

(** [fs.unlinkSync(filePath)] *)
Definition unlink (filePath : jsstring) (d : JSMap.t fileEntry) : JSMap.t fileEntry :=
  filter (fun '(p, _) => negb (JS.eqb p filePath)) d.

(** [fs.existsSync(filePath)] *)
Definition existsSync (filePath : jsstring) (c : cache) : bool :=
  JSMap.has filePath (disk c).

(** [path.join(this.cacheDir, category, `${key}.json`)] *)
Definition cachePath (c : cache) (category key : jsstring) : jsstring :=
  cacheDir c ++ str "/" ++ category ++ str "/" ++ key ++ str ".json".

(** [this.memoryCache.get(memKey)] at time [now]: an entry past its time is
    not returned. *)
Definition memoryGet (now : Z) (memKey : jsstring) (c : cache) : option jsval :=
  match JSMap.get memKey (memoryCache c) with
  | Some entry => if (expiresAt entry <? now)%Z then None else value entry
  | None => None
  end.

(** [this.memoryCache.set(memKey, data, seconds)] *)
Definition memorySet (now : Z) (memKey : jsstring) (data : option jsval) (seconds : Z)
           (c : cache) : cache :=
  withMemory c (JSMap.set memKey {| value := data; expiresAt := (now + seconds * 1000)%Z |}
                          (memoryCache c)).

(** [cached.expires && Date.now() > cached.expires], for the number that
    [set] writes there, or a missing or falsy entry.  A truthy value of
    another kind, which JavaScript converts to a number before comparing,
    is outside the model and counts as not expired. *)
Definition expired (now : Z) (expires : option jsval) : bool :=
  match expires with
  | Some (VNum at_) => negb (Z.eqb at_ 0) && (at_ <? now)%Z
  | _ => false
  end.

Section Read.

(** [JSON.parse]; [None] when it throws. *)
Variable JSON_parse : jsstring -> option jsval.

(** What the [try] block of [get] and of [clearExpired] reads from a cache
    file. *)
Inductive readOutcome : Type :=
| TooOld
| Expired
| Valid (data : option jsval)
| ReadError.

Definition readEntry (now : Z) (maxAgeSeconds : Z) (f : fileEntry) : readOutcome :=
  if (maxAgeSeconds * 1000 <? now - mtime f)%Z then TooOld
  else
    match JSON_parse (content f) with
    | None => ReadError
    | Some VNull => ReadError
    | Some (VObj cached) =>
        if expired now (JSMap.get (str "expires") cached) then Expired
        else Valid (JSMap.get (str "data") cached)
    | Some _ => Valid None
    end.

(** [if (v)] for a value that may be [undefined]. *)
Definition truthyValue (v : option jsval) : bool :=
  match v with
  | Some x => truthy x
  | None => false
  end.

(** CacheManager.get at time [now]: the value returned ([None] for [null]
    or [undefined]) and the cache afterwards. *)
Definition get (now : Z) (key category : jsstring) (c : cache) : option jsval * cache :=
  let memKey := category ++ str ":" ++ key in
  let memResult := memoryGet now memKey c in
  if truthyValue memResult then (memResult, countHit c)
  else
    let filePath := cachePath c category key in
    match JSMap.get filePath (disk c) with
    | None => (None, countMiss c)
    | Some f =>
        match readEntry now (maxAge c) f with
        | TooOld => (None, countMiss (withDisk c (unlink filePath (disk c))))
        | Expired => (None, countMiss (withDisk c (unlink filePath (disk c))))
        | Valid data => (data, memorySet now memKey data 300 (countHit c))
        | ReadError => (None, countMiss c)
        end
    end.

(** The body of the inner loop of [clearExpired] for one file: the cache
    afterwards and whether the file was deleted. *)
Definition clearExpiredFile (now : Z) (filePath : jsstring) (c : cache) : cache * bool :=
  match JSMap.get filePath (disk c) with
  | None => (c, false)
  | Some f =>
      match readEntry now (maxAge c) f with
      | Valid _ => (c, false)
      | TooOld | Expired | ReadError =>
          (countDelete (withDisk c (unlink filePath (disk c))), true)
      end
  end.

Definition categories : list jsstring :=
  [str "files"; str "ast"; str "analysis"; str "reports"].

(** [fs.readdirSync(categoryDir)], as full paths: the files directly in
    the directory of [category]. *)
Definition filesOf (c : cache) (category : jsstring) : list jsstring :=
  filter (fun p =>
            match stripPrefix (cacheDir c ++ str "/" ++ category ++ str "/") p with
            | Some fileName => negb (isEmpty fileName) && negb (includes fileName (str "/"))
            | None => false
            end)
         (JSMap.keys (disk c)).

(** CacheManager.clearExpired at time [now]: the cache afterwards and the
    number of files deleted. *)
Definition clearExpired (now : Z) (c : cache) : cache * nat :=
  fold_left (fun acc category =>
               fold_left (fun '(c', deletedCount) filePath =>
                            let (c'', deleted) := clearExpiredFile now filePath c' in
                            (c'', if deleted then S deletedCount else deletedCount))
                         (filesOf (fst acc) category) acc)
            categories (c, 0).

End Read.

End CacheManager.

(** Short names for the validators and the cache manager. *)
Module EV := EndpointValidator.
Module SV := SecurityValidator.
Module CV := ComponentValidator.
Module CM := CacheManager.

(** ** Auxiliary predicates used to state intermediate lemmas *)

Module Aux.

(** Two adjacent slashes occur in [s]. *)
Fixpoint hasDoubleSlash (s : jsstring) : bool :=
  match s with
  | c :: s' =>
      match s' with
      | d :: _ => (isSlash c && isSlash d) || hasDoubleSlash s'
      | [] => false
      end
  | [] => false
  end.

(** Every call site is filed under its own key, as [extractAPICalls]
    files it. *)
Definition wellKeyed (apiCalls : JSMap.t (list F.callSite)) : bool :=
  forallb (fun '(key, calls) =>
             forallb (fun call => JS.eqb key (F.callKey call)) calls)
          apiCalls.

(** All the call sites of a call-site map, in the order of [forEach]. *)
Definition allCalls (apiCalls : JSMap.t (list F.callSite))
  : list F.callSite :=
  flat_map snd apiCalls.

(** Some call site is filed under [key]. *)
Definition called (key : jsstring) (apiCalls : JSMap.t (list F.callSite))
  : bool :=
  existsb (fun '(k, calls) => JS.eqb k key && negb (Nat.eqb (length calls) 0)) apiCalls.

(** The endpoint map [E] with every endpoint whose key satisfies [hit]
    marked used. *)
Definition markWhere (hit : jsstring -> bool) (E : JSMap.t B.endpoint)
  : JSMap.t B.endpoint :=
  map (fun '(k, e) => (k, if hit k then B.markUsed e else e)) E.

(** The endpoints declared in a route file, in the order in which the
    traversal observes them. *)
Definition declared (f : B.routeFile) : list B.endpoint :=
  flat_map (fun n =>
              match B.extractEndpointFromCall
                      n (B.detectedBasePath f) (B.relativePath f) with
              | Normal (Some e) => [e]
              | _ => []
              end)
           (B.callExpressions f).

(** The declarations of a run, file after file. *)
Definition observed (files : list B.routeFile) : list B.endpoint :=
  flat_map declared files.

(** [this.endpoints.set(key, endpoint)] for each declaration in turn. *)
Definition register (declarations : list B.endpoint)
           (endpoints : JSMap.t B.endpoint) : JSMap.t B.endpoint :=
  fold_left (fun acc e => JSMap.set (B.endpointKey e) e acc)
            declarations endpoints.

End Aux.

Import Aux.

(** ** A small project used to instantiate the statements *)

Module Sample.

Definition member (object property : string) : node :=
  MemberExpression (Identifier (str object)) (Identifier (str property)).

Definition property (key : string) (value : node) : option (node * node) :=
  Some (Identifier (str key), value).

(** routes/orders.js; [detectBasePath] finds the prefix [/api] in its
    [router.use]:
[[
router.use('/api', logger);
router.post('/orders', requireAuth, createOrder);
router.get('/orders/', listOrders);
router.get('/orders', requireAuth, listAllOrders);
router.delete('/orders/:id', removeOrder);
router.post('/auth/login', login);
]] *)
Definition ordersFile : B.routeFile :=
  {| B.relativePath := str "routes/orders.js";
     B.detectedBasePath := str "/api";
     B.callExpressions :=
       [CallExpression (member "router" "use")
          [StringLiteral (str "/api"); Identifier (str "logger")] (Some 2);
        CallExpression (member "router" "post")
          [StringLiteral (str "/orders"); Identifier (str "requireAuth");
           Identifier (str "createOrder")] (Some 3);
        CallExpression (member "router" "get")
          [StringLiteral (str "/orders/"); Identifier (str "listOrders")] (Some 4);
        CallExpression (member "router" "get")
          [StringLiteral (str "/orders"); Identifier (str "requireAuth");
           Identifier (str "listAllOrders")] (Some 5);
        CallExpression (member "router" "delete")
          [StringLiteral (str "/orders/:id"); Identifier (str "removeOrder")] (Some 6);
        CallExpression (member "router" "post")
          [StringLiteral (str "/auth/login"); Identifier (str "login")] (Some 7)] |}.

Definition endpoints : JSMap.t B.endpoint :=
  match B.analyzeRoutes [ordersFile] [] with
  | Normal m => m
  | Throw => []
  end.

(** The endpoints declared on lines 4 and 5 of routes/orders.js. *)
Definition listOrders : B.endpoint :=
  {| B.method := str "GET";
     B.path := str "/api/orders";
     B.originalPath := str "/orders/";
     B.basePath := str "/api";
     B.file := str "routes/orders.js";
     B.line := 4;
     B.middleware := [];
     B.controller := Some (str "listOrders");
     B.requiresAuth := false;
     B.params := [];
     B.queryParams := [];
     B.expectedBody := [];
     B.used := false |}.

Definition listAllOrders : B.endpoint :=
  {| B.method := str "GET";
     B.path := str "/api/orders";
     B.originalPath := str "/orders";
     B.basePath := str "/api";
     B.file := str "routes/orders.js";
     B.line := 5;
     B.middleware := [str "requireAuth"];
     B.controller := Some (str "listAllOrders");
     B.requiresAuth := true;
     B.params := [];
     B.queryParams := [];
     B.expectedBody := [];
     B.used := false |}.

(** src/services/orders.js:
[[
api.post('/api/orders', { items: cart }, { headers: { Authorization: token } });
axios.get('/api/orders?page=2&size=10');
axios.get(`/api/users/${id}`);
fetch('/api/orders', { method: 'post' });
]] *)
Definition ordersService : list node :=
  [CallExpression (member "api" "post")
     [StringLiteral (str "/api/orders");
      ObjectExpression [property "items" (Identifier (str "cart"))];
      ObjectExpression
        [property "headers"
           (ObjectExpression [property "Authorization" (Identifier (str "token"))])]]
     (Some 10);
   CallExpression (member "axios" "get")
     [StringLiteral (str "/api/orders?page=2&size=10")] (Some 11);
   CallExpression (member "axios" "get")
     [TemplateLiteral [str "/api/users/"; []] [Identifier (str "id")]] (Some 12);
   CallExpression (Identifier (str "fetch"))
     [StringLiteral (str "/api/orders");
      ObjectExpression [property "method" (StringLiteral (str "post"))]]
     (Some 13)].

Definition apiCalls : JSMap.t (list F.callSite) :=
  F.extractAPICalls ordersService (str "src/services/orders.js") [].

(** The endpoint [POST /api/orders] with a body schema that requires
    [items], and a call site that sends no body: [api.post('/api/orders')]. *)
Definition orderEndpoint : B.endpoint :=
  {| B.method := str "POST";
     B.path := str "/api/orders";
     B.originalPath := str "/orders";
     B.basePath := str "/api";
     B.file := str "routes/orders.js";
     B.line := 3;
     B.middleware := [str "requireAuth"];
     B.controller := Some (str "createOrder");
     B.requiresAuth := true;
     B.params := [];
     B.queryParams := [];
     B.expectedBody := [(str "items", {| B.required := true |})];
     B.used := false |}.

Definition schemaEndpoints : JSMap.t B.endpoint :=
  [(str "POST /api/orders", orderEndpoint)].



(** routes/index.js; [detectBasePath] finds the prefix [/auth] in its
    [router.use]:
[[
router.use('/auth', limiter);
router.post('/login', login);
]] *)
Definition authFile : B.routeFile :=
  {| B.relativePath := str "routes/index.js";
     B.detectedBasePath := str "/auth";
     B.callExpressions :=
       [CallExpression (member "router" "use")
          [StringLiteral (str "/auth"); Identifier (str "limiter")] (Some 2);
        CallExpression (member "router" "post")
          [StringLiteral (str "/login"); Identifier (str "login")] (Some 3)] |}.

Definition loginEndpoints : JSMap.t B.endpoint :=
  match B.analyzeRoutes [authFile] [] with
  | Normal m => m
  | Throw => []
  end.



(** The call site recorded for [axios.get('/api/orders?page=2&size=10')]. *)
Definition pagedCall : F.callSite :=
  {| F.method := str "GET";
     F.endpoint := str "/api/orders";
     F.originalUrl := Some (str "/api/orders?page=2&size=10");
     F.file := str "src/services/orders.js";
     F.line := 11;
     F.shape := F.axios;
     F.data := VObj [];
     F.hasAuth := false;
     F.params := [];
     F.queryParams := [] |}.

(** A design system with [Card] and [Button], and a frontend that declares
    its own [Panel]. *)
Definition card : CV.dsComponentInfo :=
  {| CV.name := str "Card"; CV.file := str "src/components/Card.jsx"; CV.line := 3;
     CV.props := []; CV.used := false; CV.usedIn := [] |}.

Definition button : CV.dsComponentInfo :=
  {| CV.name := str "Button"; CV.file := str "src/components/Button.jsx"; CV.line := 5;
     CV.props := []; CV.used := false; CV.usedIn := [] |}.

Definition designSystem : JSMap.t CV.dsComponentInfo :=
  [(str "Card", card); (str "Button", button)].

Definition frontendComponents : JSMap.t CV.feComponentInfo :=
  [(str "src/ui/Panel.jsx:Panel",
    {| CV.feName := str "Panel"; CV.feFile := str "src/ui/Panel.jsx" |})].

(** A cache directory whose only file, [files/k1.json], does not hold
    JSON; it was written one second before the read. *)
Definition corruptCache : CM.cache :=
  {| CM.cacheDir := str ".audit-cache";
     CM.ttl := 3600;
     CM.maxAge := 86400;
     CM.memoryCache := [];
     CM.disk := [(str ".audit-cache/files/k1.json",
                  {| CM.mtime := 1000; CM.content := str "{ not json" |})];
     CM.stats := {| CM.hits := 0; CM.misses := 0; CM.writes := 0; CM.deletes := 0 |} |}.

(** A parser that accepts the empty object and nothing else. *)
Definition parseEmptyObject (text : jsstring) : option jsval :=
  if JS.eqb text (str "{}") then Some (VObj []) else None.

End Sample.

(** ** Auxiliary predicates for the extractors' invariants *)

Module Shape.

(** What every endpoint built by [extractEndpointFromCall] looks like. *)
Definition extractedEndpoint (e : B.endpoint) : Prop :=
  In (B.method e) (map toUpperCase B.routeVerbs) /\
  B.path e = normalizePath (B.basePath e ++ B.originalPath e) /\
  B.originalPath e <> [] /\
  B.params e = extractPathParams (B.path e) /\
  B.requiresAuth e = B.detectAuthRequirement (B.middleware e) /\
  B.queryParams e = [] /\
  B.expectedBody e = [] /\
  B.used e = false.

(** What every call site built by [normalizeAPICall] looks like. *)
Definition extractedCallSite (c : F.callSite) : Prop :=
  startsWith (F.endpoint c) (str "/") = true /\
  ~ In "?"%char (F.endpoint c) /\
  F.params c = extractURLParams (F.endpoint c) /\
  F.shape c <> F.request.

(** What the call-site map of a run looks like at every moment. *)
Definition callSiteMap (m : JSMap.t (list F.callSite)) : Prop :=
  NoDup (JSMap.keys m) /\
  wellKeyed m = true /\
  (forall k calls, In (k, calls) m -> calls <> []) /\
  (forall site, In site (allCalls m) -> extractedCallSite site).

End Shape.

Import Shape.

(** ** Further sample data *)

Module Sample2.

(** The endpoint declared on line 3 of routes/orders.js. *)
Definition createOrder : B.endpoint :=
  {| B.method := str "POST";
     B.path := str "/api/orders";
     B.originalPath := str "/orders";
     B.basePath := str "/api";
     B.file := str "routes/orders.js";
     B.line := 3;
     B.middleware := [str "requireAuth"];
     B.controller := Some (str "createOrder");
     B.requiresAuth := true;
     B.params := [];
     B.queryParams := [];
     B.expectedBody := [];
     B.used := false |}.

(** The call site recorded for
    [api.post('/api/orders', { items: cart }, { headers: { Authorization: token } })]. *)
Definition cartCall : F.callSite :=
  {| F.method := str "POST";
     F.endpoint := str "/api/orders";
     F.originalUrl := Some (str "/api/orders");
     F.file := str "src/services/orders.js";
     F.line := 10;
     F.shape := F.api;
     F.data := VObj [(str "items", VStr (str "<cart>"))];
     F.hasAuth := true;
     F.params := [];
     F.queryParams := [] |}.

(** The endpoint declared on line 6 of routes/orders.js. *)
Definition removeOrder : B.endpoint :=
  {| B.method := str "DELETE";
     B.path := str "/api/orders/:id";
     B.originalPath := str "/orders/:id";
     B.basePath := str "/api";
     B.file := str "routes/orders.js";
     B.line := 6;
     B.middleware := [];
     B.controller := Some (str "removeOrder");
     B.requiresAuth := false;
     B.params := [str "id"];
     B.queryParams := [];
     B.expectedBody := [];
     B.used := false |}.

(** The endpoint declared on line 3 of routes/index.js. *)
Definition login : B.endpoint :=
  {| B.method := str "POST";
     B.path := str "/auth/login";
     B.originalPath := str "/login";
     B.basePath := str "/auth";
     B.file := str "routes/index.js";
     B.line := 3;
     B.middleware := [];
     B.controller := Some (str "login");
     B.requiresAuth := false;
     B.params := [];
     B.queryParams := [];
     B.expectedBody := [];
     B.used := false |}.

(** A configuration that lists no pattern of its own and keeps the
    default severities. *)
Definition noPatterns : rules :=
  {| requireAuthPatterns := Some [];
     severityOf := severityOf defaultRules;
     security := None |}.

End Sample2.

(** ** AuditBot: the validation phase and the figures of the summary *)

Module AuditBot.

(** [results.frontend]: the call-site map and the component map. *)
Record frontendResults : Type := {
  apiCalls : JSMap.t (list F.callSite);
  components : JSMap.t CV.feComponentInfo
}.

(** The analyses of [this.results] that the validators read; [None] is the
    [null] of a project that was not analysed or whose analysis failed.
    Of [results.backend] and [results.designSystem] only the endpoint map
    and the component map are read. *)
Record results : Type := {
  backend : option (JSMap.t B.endpoint);
  frontend : option frontendResults;
  designSystem : option (JSMap.t CV.dsComponentInfo)
}.

Section Validations.

Variable R : rules.

(** AuditBot.performValidations: the analyses as the validators leave them
    (they flip [used] flags in place) and the issues pushed to
    [results.issues], in order.  On the results of the analysers none of
    the three validators throws (the endpoint validator can throw only
    while checking a body schema, and the route extractor leaves every
    schema empty), so the [catch] blocks are not modelled. *)
Definition performValidations (res : results) : results * list issue :=
  let '(backend', endpointIssues) :=
    match backend res, frontend res with
    | Some endpoints, Some fe =>
        let (endpoints', found) := EV.validate R endpoints (apiCalls fe) in
        (Some endpoints', found)
    | b, _ => (b, [])
    end in
  let securityIssues :=
    match backend', frontend res with
    | Some endpoints, Some fe => SV.validate R endpoints (apiCalls fe)
    | _, _ => []
    end in
  let '(designSystem', componentIssues) :=
    match designSystem res, frontend res with
    | Some ds, Some fe =>
        (Some (fst (CV.validateComponentUsage ds (components fe))),
         CV.validate R (Some ds) (Some (components fe)))
    | d, _ => (d, [])
    end in
  ({| backend := backend'; frontend := frontend res; designSystem := designSystem' |},
   endpointIssues ++ securityIssues ++ componentIssues).

End Validations.

(** The local constants [totalEndpoints] and [usedEndpoints] of
    [calculateCoverage]. *)
Definition totalEndpoints (endpoints : JSMap.t B.endpoint) : nat := length endpoints.

Definition usedEndpoints (endpoints : JSMap.t B.endpoint) : nat :=
  length (filter B.used (JSMap.values endpoints)).

(** AuditBot.calculateUsedComponents and AuditBot.calculateUnusedComponents *)
Definition calculateUsedComponents (res : results) : nat :=
  match designSystem res with
  | Some ds => length (filter CV.used (JSMap.values ds))
  | None => 0
  end.

Definition calculateUnusedComponents (res : results) : nat :=
  match designSystem res with
  | Some ds => length (filter (fun c => negb (CV.used c)) (JSMap.values ds))
  | None => 0
  end.

(** [i.severity === 'CRITICAL'] *)
Definition isCritical (i : issue) : bool :=
  match severity i with CRITICAL => true | _ => false end.

(** AuditBot.hasFailures on the issues of a run. *)
Definition hasFailures (issues : list issue) : bool := existsb isCritical issues.

End AuditBot.

(** ** CacheManager: the write path *)

Module CacheWrites.

Import CacheManager.

(** [this.stats.writes++] *)
Definition countWrite (c : cache) : cache :=
  withStats c {| hits := hits (stats c); misses := misses (stats c);
                 writes := S (writes (stats c)); deletes := deletes (stats c) |}.

(** [customTTL || this.ttl]; [None] is [null]. *)
Definition effectiveTTL (c : cache) (customTTL : option Z) : Z :=
  match customTTL with
  | Some seconds => if Z.eqb seconds 0 then ttl c else seconds
  | None => ttl c
  end.

(** The object that [set] writes to disk. *)
Definition cachedRecord (now : Z) (key : jsstring) (data : jsval) (seconds : Z) : jsval :=
  VObj [(str "data", data);
        (str "created", VNum now);
        (str "expires", VNum (now + seconds * 1000)%Z);
        (str "key", VStr key)].

Section Write.

(** [JSON.stringify(v, null, 2)] *)
Variable JSON_stringify : jsval -> jsstring.

(** Whether [fs.writeFileSync] succeeds on a path. *)
Variable writable : jsstring -> bool.

(** CacheManager.set at time [now], for a time to live other than zero (the
    constructor never leaves [this.ttl] at zero); the file written gets
    [now] as its modification time. *)
Definition set (now : Z) (key : jsstring) (data : jsval) (category : jsstring)
           (customTTL : option Z) (c : cache) : cache :=
  let seconds := effectiveTTL c customTTL in
  let memKey := category ++ str ":" ++ key in
  let c1 := memorySet now memKey (Some data) (Z.min seconds 300) c in
  let filePath := cachePath c category key in
  if writable filePath
  then countWrite
         (withDisk c1
            (JSMap.set filePath
                       {| mtime := now;
                          content := JSON_stringify (cachedRecord now key data seconds) |}
                       (disk c1)))
  else c1.

End Write.

(** The name that [fs.readdirSync] lists for a file of the directory of
    [category]. *)
Definition fileName (c : cache) (category filePath : jsstring) : option jsstring :=
  stripPrefix (cacheDir c ++ str "/" ++ category ++ str "/") filePath.

(** The body of the inner loop of [invalidatePattern] for one file. *)
Definition invalidateFile (pattern category : jsstring) (c : cache) (filePath : jsstring)
  : cache :=
  match fileName c category filePath with
  | Some file =>
      if startsWith file pattern
      then countDelete (withDisk c (unlink filePath (disk c)))
      else c
  | None => c
  end.

(** CacheManager.invalidatePattern *)
Definition invalidatePattern (pattern : jsstring) (c : cache) : cache :=
  fold_left (fun acc category =>
               fold_left (invalidateFile pattern category) (filesOf acc category) acc)
            categories c.

End CacheWrites.

Module CW := CacheWrites.

Module Sample3.

(** The analyses of the sample project as the analysis phase leaves them. *)
Definition analysed : AuditBot.results :=
  {| AuditBot.backend := Some Sample.endpoints;
     AuditBot.frontend :=
       Some {| AuditBot.apiCalls := Sample.apiCalls;
               AuditBot.components := Sample.frontendComponents |};
     AuditBot.designSystem := Some Sample.designSystem |}.

(** A cache manager as the constructor leaves it with the default options. *)
Definition emptyCache : CM.cache :=
  {| CM.cacheDir := str ".audit-cache";
     CM.ttl := 3600;
     CM.maxAge := 86400;
     CM.memoryCache := [];
     CM.disk := [];
     CM.stats := {| CM.hits := 0; CM.misses := 0; CM.writes := 0; CM.deletes := 0 |} |}.

(** The analysis stored for a file, and the record that [set] writes for
    it under the key [k7] at time 1000. *)
Definition analysis : jsval := VObj [(str "filePath", VStr (str "src/app.js"))].

Definition record : jsval := CW.cachedRecord 1000 (str "k7") analysis 3600.

(** A printer and a parser that agree on that record. *)
Definition printRecord (v : jsval) : jsstring := str "<record>".

Definition parseRecord (text : jsstring) : option jsval :=
  if JS.eqb text (str "<record>") then Some record else None.

Definition everyPath (filePath : jsstring) : bool := true.

(** The cache after [set('k7', analysis)] at time 1000. *)
Definition storedCache : CM.cache :=
  CW.set printRecord everyPath 1000 (str "k7") analysis (str "files") None emptyCache.

End Sample3.

(** ** Auxiliary definitions for the sweep of the cache *)

Module Sweep.

(** The body of the inner loop of [clearExpired] on the pair of the cache
    and the running count. *)
Definition sweepFile (JSON_parse : jsstring -> option jsval) (now : Z)
           (acc : CM.cache * nat) (filePath : jsstring) : CM.cache * nat :=
  let (c, deletedCount) := acc in
  let (c', deleted) := CM.clearExpiredFile JSON_parse now filePath c in
  (c', if deleted then S deletedCount else deletedCount).

(** The loop over the categories. *)
Definition sweepCategories (JSON_parse : jsstring -> option jsval) (now : Z)
           (cats : list jsstring) (acc : CM.cache * nat) : CM.cache * nat :=
  fold_left (fun acc category =>
               fold_left (sweepFile JSON_parse now) (CM.filesOf (fst acc) category) acc)
            cats acc.

End Sweep.

Import Sweep.

Module Captures.

(** [p] is a non-empty run of characters not excluded by [stop] that
    follows a colon in [s]. *)
Definition capturedAfterColon (stop : ascii -> bool) (s p : jsstring) : Prop :=
  exists before after,
    s = before ++ ":"%char :: p ++ after /\
    p <> [] /\
    forallb (fun c => negb (stop c)) p = true.

End Captures.

Import Captures.

(** ** BackendAnalyzer: the common prefix of the route paths of a file *)

Module BasePath.

(** [s.lastIndexOf(c)] for a one-character needle; [None] stands for [-1]. *)
Fixpoint lastIndexOf (c : ascii) (s : jsstring) : option nat :=
  match s with
  | [] => None
  | x :: s' =>
      match lastIndexOf c s' with
      | Some i => Some (S i)
      | None => if Ascii.eqb x c then Some 0 else None
      end
  end.

(** [prefix.substring(0, prefix.lastIndexOf('/'))]; a negative end counts
    as zero. *)
Definition dropLastSegment (prefix : jsstring) : jsstring :=
  match lastIndexOf "/" prefix with
  | Some i => firstn i prefix
  | None => []
  end.

(** [while (prefix && !path.startsWith(prefix)) prefix = ...]: every round
    shortens a non-empty prefix, so its length bounds the number of
    rounds. *)
Fixpoint shrink (rounds : nat) (path prefix : jsstring) : jsstring :=
  match rounds with
  | 0 => prefix
  | S rounds' =>
      if negb (isEmpty prefix) && negb (startsWith path prefix)
      then shrink rounds' path (dropLastSegment prefix)
      else prefix
  end.

Definition shrinkTo (prefix path : jsstring) : jsstring :=
  shrink (length prefix) path prefix.

(** BackendAnalyzer.findCommonPrefix *)
Definition findCommonPrefix (paths : list jsstring) : jsstring :=
  match paths with
  | [] => []
  | [only] =>
      let segments := filter (fun s => negb (isEmpty s)) (split "/" only) in
      if 1 <? length segments
      then str "/" ++ join (str "/") (removelast segments)
      else []
  | first :: rest =>
      let prefix := fold_left shrinkTo rest first in
      if negb (isEmpty prefix) && negb (JS.eqb prefix (str "/"))
         && negb (endsWith prefix (str "/"))
      then
        match lastIndexOf "/" prefix with
        | Some lastSlash => if 0 <? lastSlash then firstn lastSlash prefix else prefix
        | None => prefix
        end
      else prefix
  end.

End BasePath.

(** ** The inputs on which the model follows the code

    The validators and the cache manager are modelled on the values the
    analysers and [set] produce.  Two kinds of value make the JavaScript
    code leave the paths modelled here, and statements that would reach
    them exclude them with the predicates below. *)

Module Domain.



(** [cached.expires] as read from a cache file; [None] is [undefined]. *)
Definition expiryOf (JSON_parse : jsstring -> option jsval) (f : CM.fileEntry)
  : option jsval :=
  match JSON_parse (CM.content f) with
  | Some (VObj cached) => JSMap.get (str "expires") cached
  | _ => None
  end.

(** An expiry that the test [cached.expires && Date.now() > cached.expires]
    reads without coercion: absent, falsy, or a number, as [set] writes it.
    A non-empty string, [true], an array or an object there is converted to
    a number by JavaScript before the comparison and is not modelled. *)
Definition numericExpiry (expires : option jsval) : bool :=
  match expires with
  | None => true
  | Some (VNum _) => true
  | Some v => negb (truthy v)
  end.

End Domain.

Import Domain.

Module Sample4.

(** A configuration that raises the severity of unused endpoints. *)
Definition strictRules : rules :=
  {| requireAuthPatterns := requireAuthPatterns defaultRules;
     severityOf :=
       {| missingEndpoint := Some CRITICAL;
          missingAuth := Some HIGH;
          missingParam := Some HIGH;
          missingBodyField := Some MEDIUM;
          unusedEndpoint := Some HIGH;
          sensitiveEndpointNoAuth := None;
          unusedComponent := None |};
     security := None |}.

(** The [rules.security] block of the project configuration, with its list
    of sensitive methods. *)
Definition projectRules : rules :=
  {| requireAuthPatterns := requireAuthPatterns defaultRules;
     severityOf := severityOf defaultRules;
     security :=
       Some {| publicEndpoints :=
                 Some [PString (str "GET /api/health"); PString (str "GET /api/version");
                       PString (str "POST /api/auth/login");
                       PString (str "POST /api/auth/register");
                       PString (str "GET /api/public/*")];
               sensitiveMethods :=
                 Some [str "POST"; str "PUT"; str "PATCH"; str "DELETE"] |} |}.

End Sample4.

(** ** EndpointValidator with its error path

    [validateRequestBody] calls [hasOwnProperty] on the call site's data and
    on the endpoint's body schema.  When either has a property of its own
    under that name, the property (never a function here) is called
    instead of the method of [Object.prototype], a TypeError is thrown and
    the promise of [validate] is rejected.  The definitions below follow
    the source through that path; on all other inputs they agree with
    [EndpointValidator]. *)

Module CheckedEndpointValidator.

(** [c] followed by [k] unless [c] throws. *)
Definition andThen (A B : Type) (c : completion A) (k : A -> completion B) : completion B :=
  match c with
  | Normal a => k a
  | Throw => Throw
  end.

(** [call.data.hasOwnProperty(field)] *)
Definition dataHasOwnProperty (data : jsval) (field : jsstring) : completion bool :=
  if hasOwnProperty data (str "hasOwnProperty") then Throw
  else Normal (hasOwnProperty data field).

(** [endpoint.expectedBody.hasOwnProperty(field)] *)
Definition schemaHasOwnProperty (expectedBody : JSMap.t B.bodyField) (field : jsstring)
  : completion bool :=
  if JSMap.has (str "hasOwnProperty") expectedBody then Throw
  else Normal (JSMap.has field expectedBody).

Section Validator.

Variable R : rules.

(** The first loop of [validateRequestBody]: [required] is tested first, so
    the data is only asked about required fields. *)
Fixpoint requiredFields (e : B.endpoint) (call : F.callSite)
         (schema : list (jsstring * B.bodyField)) : completion (list issue) :=
  match schema with
  | [] => Normal []
  | (f, bodyField) :: rest =>
      andThen
        (if B.required bodyField
         then andThen (dataHasOwnProperty (F.data call) f)
                      (fun present =>
                         Normal (if present then []
                                 else [EV.missingBodyFieldIssue R e call f]))
         else Normal [])
        (fun found =>
           andThen (requiredFields e call rest) (fun more => Normal (found ++ more)))
  end.

(** The second loop of [validateRequestBody]. *)
Fixpoint extraFields (e : B.endpoint) (call : F.callSite) (fields : list jsstring)
  : completion (list issue) :=
  match fields with
  | [] => Normal []
  | f :: rest =>
      andThen (schemaHasOwnProperty (B.expectedBody e) f)
              (fun expected =>
                 andThen (extraFields e call rest)
                         (fun more =>
                            Normal ((if expected then []
                                     else [EV.extraBodyFieldIssue e call f]) ++ more)))
  end.

(** EndpointValidator.validateRequestBody *)
Definition validateRequestBody (e : B.endpoint) (call : F.callSite)
  : completion (list issue) :=
  let body := F.data call in
  if negb (truthy body) || Nat.eqb (length (Object_keys body)) 0 then Normal []
  else
    andThen (requiredFields e call (B.expectedBody e))
            (fun missing =>
               andThen (extraFields e call (Object_keys body))
                       (fun extra => Normal (missing ++ extra))).

(** EndpointValidator.validateEndpointUsage *)
Definition validateEndpointUsage (e : B.endpoint) (call : F.callSite)
  : completion (list issue) :=
  andThen (validateRequestBody e call)
          (fun body =>
             Normal (EV.validateURLParams R e call ++ body ++ EV.validateQueryParams e call)).

(** The body of the inner [calls.forEach] of [validate] for one call site:
    the endpoint map after it, and the issues pushed unless it throws. *)
Definition validateCall (key : jsstring) (backendEndpoints : JSMap.t B.endpoint)
           (call : F.callSite) : JSMap.t B.endpoint * completion (list issue) :=
  match JSMap.get key backendEndpoints with
  | None => (backendEndpoints, Normal [EV.missingEndpointIssue R key call])
  | Some e =>
      let e' := B.markUsed e in
      (JSMap.set key e' backendEndpoints, validateEndpointUsage e' call)
  end.

(** A throw ends the loops; the flags set so far stay set. *)
Fixpoint validateCalls (key : jsstring) (backendEndpoints : JSMap.t B.endpoint)
         (calls : list F.callSite) : JSMap.t B.endpoint * completion (list issue) :=
  match calls with
  | [] => (backendEndpoints, Normal [])
  | call :: rest =>
      match validateCall key backendEndpoints call with
      | (endpoints', Throw) => (endpoints', Throw)
      | (endpoints', Normal issues) =>
          let (endpoints'', more) := validateCalls key endpoints' rest in
          (endpoints'', andThen more (fun issues' => Normal (issues ++ issues')))
      end
  end.

Fixpoint reconcile (backendEndpoints : JSMap.t B.endpoint)
         (frontendAPICalls : JSMap.t (list F.callSite))
  : JSMap.t B.endpoint * completion (list issue) :=
  match frontendAPICalls with
  | [] => (backendEndpoints, Normal [])
  | (key, calls) :: rest =>
      match validateCalls key backendEndpoints calls with
      | (endpoints', Throw) => (endpoints', Throw)
      | (endpoints', Normal issues) =>
          let (endpoints'', more) := reconcile endpoints' rest in
          (endpoints'', andThen more (fun issues' => Normal (issues ++ issues')))
      end
  end.

(** EndpointValidator.validate: the endpoint map as the run leaves it, and
    the issues returned, or [Throw] when the promise is rejected. *)
Definition validate (backendEndpoints : JSMap.t B.endpoint)
           (frontendAPICalls : JSMap.t (list F.callSite))
  : JSMap.t B.endpoint * completion (list issue) :=
  let (endpoints', found) := reconcile backendEndpoints frontendAPICalls in
  (endpoints',
   andThen found (fun issues => Normal (issues ++ EV.findUnusedEndpoints R endpoints'))).

End Validator.

End CheckedEndpointValidator.

Module EVC := CheckedEndpointValidator.

Module Sample5.

(** The call site recorded for
    [api.post('/api/orders', { hasOwnProperty: 1, note: text })]. *)
Definition shadowCall : F.callSite :=
  {| F.method := str "POST";
     F.endpoint := str "/api/orders";
     F.originalUrl := Some (str "/api/orders");
     F.file := str "src/services/orders.js";
     F.line := 22;
     F.shape := F.api;
     F.data := VObj [(str "hasOwnProperty", VNum 1); (str "note", VStr (str "<text>"))];
     F.hasAuth := false;
     F.params := [];
     F.queryParams := [] |}.

Definition shadowCalls : JSMap.t (list F.callSite) :=
  [(str "POST /api/orders", [shadowCall])].

End Sample5.

(** * Properties *)

Unset Implicit Arguments.

(** ** Strings *)

(** Unfolds the string literals of the source into lists of characters. *)
Ltac lit := cbv [str list_ascii_of_string] in *.

Lemma eqb_refl (s : jsstring) : JS.eqb s s = true.
Proof.
  induction s as [|c s IH]; simpl; [reflexivity|].
  now rewrite Ascii.eqb_refl, IH.
Qed.

Lemma eqb_eq (a b : jsstring) : JS.eqb a b = true <-> a = b.
Proof.
  split.
  - revert b; induction a as [|x a IH]; intros [|y b]; simpl; try easy.
    rewrite andb_true_iff, Ascii.eqb_eq. intros [-> H]. now rewrite (IH _ H).
  - intros ->. apply eqb_refl.
Qed.

Lemma eqb_neq (a b : jsstring) : JS.eqb a b = false <-> a <> b.
Proof.
  rewrite <- eqb_eq. destruct (JS.eqb a b); split; congruence.
Qed.

Lemma eqb_sym (a b : jsstring) : JS.eqb a b = JS.eqb b a.
Proof.
  destruct (JS.eqb a b) eqn:E.
  - apply eqb_eq in E. subst. symmetry. apply eqb_refl.
  - symmetry. apply eqb_neq. apply eqb_neq in E. congruence.
Qed.

Lemma startsWith_slash (s : jsstring) :
  startsWith s (str "/") = true <-> exists t, s = "/"%char :: t.
Proof.
  lit. destruct s as [|c t]; cbn [startsWith].
  - split; [discriminate | intros [t H]; discriminate].
  - rewrite andb_true_r, Ascii.eqb_eq. split.
    + intros ->. now exists t.
    + intros [t' H]. now injection H.
Qed.

Lemma endsWith_char (s : jsstring) (c : ascii) :
  endsWith s [c] = true <-> exists t, s = t ++ [c].
Proof.
  unfold endsWith. cbn [rev app]. split.
  - destruct (rev s) as [|y r] eqn:E; cbn [startsWith]; [discriminate|].
    rewrite andb_true_r, Ascii.eqb_eq. intros ->.
    exists (rev r). rewrite <- (rev_involutive s), E. reflexivity.
  - intros [t ->]. rewrite rev_app_distr. cbn [rev app startsWith].
    now rewrite Ascii.eqb_refl.
Qed.

Lemma indexOf_None (c : ascii) (s : jsstring) :
  indexOf c s = None <-> ~ In c s.
Proof.
  induction s as [|x s IH]; simpl.
  - tauto.
  - destruct (Ascii.eqb_spec x c) as [->|N].
    + split; [discriminate | intros H; exfalso; apply H; now left].
    + destruct (indexOf c s); simpl.
      * split; [discriminate|]. intros H. exfalso. apply H. right.
        destruct IH as [_ IH]. destruct (in_dec ascii_dec c s) as [Hi|Hn]; [exact Hi|].
        now specialize (IH Hn).
      * split; [|reflexivity]. intros _ [E|I]; [congruence|]. now apply IH.
Qed.

Lemma splitHead_not_In (c : ascii) (s : jsstring) : ~ In c (splitHead c s).
Proof.
  unfold splitHead. induction s as [|x s IH]; simpl; [tauto|].
  destruct (Ascii.eqb_spec x c) as [->|N]; [simpl; tauto|].
  destruct (split c s) as [|p r]; simpl in *; intros [E|I]; congruence || tauto.
Qed.

Lemma splitHead_id (c : ascii) (s : jsstring) : ~ In c s -> splitHead c s = s.
Proof.
  unfold splitHead. induction s as [|x s IH]; simpl; [reflexivity|].
  intros H. destruct (Ascii.eqb_spec x c) as [->|N]; [exfalso; now apply H; left|].
  assert (Hs : ~ In c s) by tauto. specialize (IH Hs).
  destruct (split c s) as [|p r]; simpl in *; congruence.
Qed.

(** ** Normalisation *)

Section CollapseSlashes.

Lemma collapseSlashes_step (c d : ascii) (s : jsstring) :
  collapseSlashes (c :: d :: s) =
  if isSlash c && isSlash d then collapseSlashes (d :: s)
  else c :: collapseSlashes (d :: s).
Proof. reflexivity. Qed.

Lemma collapseSlashes_cons (c : ascii) (s : jsstring) :
  exists t, collapseSlashes (c :: s) = c :: t.
Proof.
  revert c. induction s as [|d s IH]; intros c.
  - now exists [].
  - rewrite collapseSlashes_step.
    destruct (isSlash c) eqn:Ec, (isSlash d) eqn:Ed; cbn [andb]; eauto.
    destruct (IH d) as [t Ht]. exists t. rewrite Ht.
    unfold isSlash in *. apply Ascii.eqb_eq in Ec, Ed. congruence.
Qed.

Lemma hasDoubleSlash_step (c d : ascii) (s : jsstring) :
  hasDoubleSlash (c :: d :: s) = (isSlash c && isSlash d) || hasDoubleSlash (d :: s).
Proof. reflexivity. Qed.

Lemma collapseSlashes_canonical (s : jsstring) :
  hasDoubleSlash (collapseSlashes s) = false.
Proof.
  induction s as [|c s IH]; [reflexivity|].
  destruct s as [|d s]; [reflexivity|].
  rewrite collapseSlashes_step.
  destruct (isSlash c && isSlash d) eqn:E; [exact IH|].
  destruct (collapseSlashes_cons d s) as [t Ht].
  rewrite Ht in *. rewrite hasDoubleSlash_step, E. exact IH.
Qed.

Lemma collapseSlashes_fixed (s : jsstring) :
  hasDoubleSlash s = false -> collapseSlashes s = s.
Proof.
  induction s as [|c s IH]; [reflexivity|].
  destruct s as [|d s]; [reflexivity|].
  rewrite hasDoubleSlash_step, collapseSlashes_step.
  intros H. apply orb_false_iff in H as [-> H]. now rewrite (IH H).
Qed.

Lemma hasDoubleSlash_app_false (a b : jsstring) :
  hasDoubleSlash (a ++ b) = false -> hasDoubleSlash a = false.
Proof.
  induction a as [|c a IH]; [reflexivity|].
  destruct a as [|d a]; [reflexivity|].
  simpl app in *. rewrite !hasDoubleSlash_step.
  intros H. apply orb_false_iff in H as [-> H]. simpl. now apply IH.
Qed.

Lemma hasDoubleSlash_two_slashes (m : jsstring) :
  hasDoubleSlash (m ++ ["/"; "/"]%char) = true.
Proof.
  induction m as [|c m IH]; [reflexivity|].
  destruct m as [|d m]; simpl app in *.
  - rewrite hasDoubleSlash_step. simpl. apply orb_true_r.
  - rewrite hasDoubleSlash_step, IH. apply orb_true_r.
Qed.

Lemma ensureLeadingSlash_starts (s : jsstring) :
  startsWith (ensureLeadingSlash s) (str "/") = true.
Proof.
  unfold ensureLeadingSlash. destruct (startsWith s (str "/")) eqn:E; [exact E|reflexivity].
Qed.

Lemma ensureLeadingSlash_canonical (s : jsstring) :
  hasDoubleSlash s = false -> hasDoubleSlash (ensureLeadingSlash s) = false.
Proof.
  unfold ensureLeadingSlash. destruct (startsWith s (str "/")) eqn:E; [easy|].
  destruct s as [|d s]; [reflexivity|].
  intros H. rewrite hasDoubleSlash_step, H.
  lit. cbn [startsWith] in E. rewrite andb_true_r in E.
  unfold isSlash. rewrite (Ascii.eqb_sym d), E. reflexivity.
Qed.

End CollapseSlashes.

(** The result of [normalizePath] is in normal form: no repeated slash, a
    leading slash, and no trailing slash unless it is the root. *)
Lemma normalizePath_normal (x : jsstring) :
  let n := normalizePath x in
  hasDoubleSlash n = false /\
  startsWith n (str "/") = true /\
  ((1 <? length n) && endsWith n (str "/") = false).
Proof.
  unfold normalizePath.
  set (m := ensureLeadingSlash (collapseSlashes x)).
  assert (Hc : hasDoubleSlash m = false)
    by (apply ensureLeadingSlash_canonical, collapseSlashes_canonical).
  assert (Hs : startsWith m (str "/") = true) by apply ensureLeadingSlash_starts.
  destruct ((1 <? length m) && endsWith m (str "/")) eqn:E; [|easy].
  apply andb_true_iff in E as [El Ee].
  apply Nat.ltb_lt in El. apply endsWith_char in Ee as [t Ht].
  rewrite Ht in *. rewrite removelast_last. cbv zeta.
  split; [now apply hasDoubleSlash_app_false in Hc|].
  split.
  - destruct t as [|c t]; [simpl in El; lia|]. exact Hs.
  - destruct (endsWith t (str "/")) eqn:E2; [|apply andb_false_r].
    apply endsWith_char in E2 as [u ->].
    rewrite <- app_assoc in Hc. simpl in Hc.
    now rewrite hasDoubleSlash_two_slashes in Hc.
Qed.

Lemma normalizePath_fixed (n : jsstring) :
  hasDoubleSlash n = false ->
  startsWith n (str "/") = true ->
  (1 <? length n) && endsWith n (str "/") = false ->
  normalizePath n = n.
Proof.
  intros Hc Hs He. unfold normalizePath.
  rewrite (collapseSlashes_fixed _ Hc).
  unfold ensureLeadingSlash. rewrite Hs, He. reflexivity.
Qed.

Lemma normalizePath_idempotent (x : jsstring) :
  normalizePath (normalizePath x) = normalizePath x.
Proof.
  destruct (normalizePath_normal x) as (Hc & Hs & He).
  now apply normalizePath_fixed.
Qed.

Section ReplaceTemplates.

Lemma scanBody_closeBrace (A : Type) (k : jsstring -> A) (seen : bool) (r : jsstring) :
  scanBody k seen r = option_map k (closeBrace seen r).
Proof.
  revert seen. induction r as [|d r IH]; intros seen; [reflexivity|].
  cbn [scanBody closeBrace]. destruct (Ascii.eqb d "}").
  - now destruct seen.
  - apply IH.
Qed.

Lemma closeBrace_shorter (seen : bool) (r after : jsstring) :
  closeBrace seen r = Some after -> length after < length r.
Proof.
  revert seen. induction r as [|d r IH]; intros seen; cbn [closeBrace scanBody]; [discriminate|].
  destruct (Ascii.eqb d "}").
  - destruct seen; [|discriminate]. intros [= ->]. simpl. lia.
  - intros H. apply IH in H. simpl. lia.
Qed.

Lemma closeBrace_seen_None (r : jsstring) :
  closeBrace true r = None <-> ~ In "}"%char r.
Proof.
  induction r as [|d r IH]; cbn [closeBrace scanBody]; [simpl; tauto|].
  destruct (Ascii.eqb_spec d "}") as [->|N]; simpl.
  - split; [discriminate | intros H; exfalso; apply H; now left].
  - fold (closeBrace true r). rewrite IH. split; [intros H [E|I]; congruence || tauto | tauto].
Qed.

Lemma replaceTemplates_other (c : ascii) (s : jsstring) :
  c <> "$"%char -> replaceTemplates (c :: s) = c :: replaceTemplates s.
Proof.
  intros N. cbn [replaceTemplates].
  destruct (Ascii.eqb_spec c "$"); [contradiction | reflexivity].
Qed.

Lemma replaceTemplates_dollar (s : jsstring) :
  startsWith s (str "{") = false ->
  replaceTemplates ("$"%char :: s) = "$"%char :: replaceTemplates s.
Proof.
  intros N. cbn [replaceTemplates]. rewrite Ascii.eqb_refl.
  destruct s as [|d r]; [reflexivity|].
  lit. cbn [startsWith] in N. rewrite andb_true_r, Ascii.eqb_sym in N. now rewrite N.
Qed.

Lemma replaceTemplates_open (r : jsstring) :
  replaceTemplates ("$"%char :: "{"%char :: r) =
  match closeBrace false r with
  | Some after => str ":param" ++ replaceTemplates after
  | None => "$"%char :: "{"%char :: replaceTemplates r
  end.
Proof.
  cbn [replaceTemplates]. rewrite !Ascii.eqb_refl.
  rewrite scanBody_closeBrace.
  destruct (closeBrace false r); reflexivity.
Qed.

(** Induction following the cases of [replaceTemplates]. *)
Lemma replaceTemplates_ind (P : jsstring -> Prop) :
  P [] ->
  (forall c s, c <> "$"%char -> P s -> P (c :: s)) ->
  (forall s, startsWith s (str "{") = false -> P s -> P ("$"%char :: s)) ->
  (forall r after, closeBrace false r = Some after -> P after ->
                   P ("$"%char :: "{"%char :: r)) ->
  (forall r, closeBrace false r = None -> P r -> P ("$"%char :: "{"%char :: r)) ->
  forall s, P s.
Proof.
  intros Hnil Hother Hdollar Hhit Hmiss s.
  remember (length s) as n eqn:En. revert s En.
  induction n as [n IH] using lt_wf_ind. intros s En.
  destruct s as [|c s]; [exact Hnil|].
  destruct (Ascii.eqb_spec c "$") as [->|N].
  2:{ apply Hother; [exact N|]. apply (IH (length s)); [subst; simpl; lia | reflexivity]. }
  destruct (startsWith s (str "{")) eqn:E.
  2:{ apply Hdollar; [exact E|]. apply (IH (length s)); [subst; simpl; lia | reflexivity]. }
  destruct s as [|d r]; [discriminate|].
  lit. cbn [startsWith] in E. rewrite andb_true_r in E. apply Ascii.eqb_eq in E. subst d.
  destruct (closeBrace false r) as [after|] eqn:Ec.
  - apply (Hhit _ _ Ec). apply closeBrace_shorter in Ec.
    apply (IH (length after)); [subst; simpl; lia | reflexivity].
  - apply (Hmiss _ Ec). apply (IH (length r)); [subst; simpl; lia | reflexivity].
Qed.

(** Every character of the result comes from the input or from [:param]. *)
Lemma replaceTemplates_In (c : ascii) (s : jsstring) :
  In c (replaceTemplates s) -> In c s \/ In c (str ":param").
Proof.
  induction s as [| d s N IH | s E IH | r after Ec IH | r Ec IH] using replaceTemplates_ind.
  - simpl. tauto.
  - rewrite (replaceTemplates_other _ _ N). simpl. tauto.
  - rewrite (replaceTemplates_dollar _ E). simpl. tauto.
  - rewrite replaceTemplates_open, Ec. rewrite in_app_iff.
    intros [H|H]; [now right|]. apply IH in H as [H|H]; [|now right].
    left. right. right. clear IH.
    revert Ec H. generalize false. induction r as [|d r IHr]; intros b; cbn [closeBrace scanBody]; [discriminate|].
    destruct (Ascii.eqb d "}").
    + destruct b; [|discriminate]. intros [= ->] H. now right.
    + intros Ec H. right. eapply IHr; eauto.
  - rewrite replaceTemplates_open, Ec. simpl. tauto.
Qed.

Lemma colon_param_chars (c : ascii) :
  In c (str ":param") -> c <> "$"%char /\ c <> "}"%char /\ c <> "?"%char /\ c <> "{"%char.
Proof.
  lit. simpl. intros H. repeat (destruct H as [<-|H]; [repeat split; discriminate|]). contradiction.
Qed.

Lemma replaceTemplates_param_app (s : jsstring) :
  replaceTemplates (str ":param" ++ s) = str ":param" ++ replaceTemplates s.
Proof.
  lit. cbn [app]. now rewrite !replaceTemplates_other by discriminate.
Qed.

(** A candidate that could not be closed still cannot be closed after the
    rewriting of the text behind it. *)
Lemma closeBrace_replaceTemplates_None (r : jsstring) :
  closeBrace false r = None -> closeBrace false (replaceTemplates r) = None.
Proof.
  destruct r as [|d r]; [reflexivity|].
  cbn [closeBrace scanBody]. destruct (Ascii.eqb_spec d "}") as [->|N].
  - intros _. now rewrite replaceTemplates_other by discriminate.
  - fold (closeBrace true r). intros H.
    assert (Hno : ~ In "}"%char (replaceTemplates (d :: r))).
    { intros I. apply replaceTemplates_In in I as [[E|I]|I].
      - congruence.
      - now apply closeBrace_seen_None in H.
      - apply colon_param_chars in I. tauto. }
    destruct (replaceTemplates (d :: r)) as [|e t]; [reflexivity|].
    cbn [closeBrace scanBody]. destruct (Ascii.eqb_spec e "}") as [->|N']; [reflexivity|].
    apply closeBrace_seen_None. intros I. apply Hno. now right.
Qed.

Lemma replaceTemplates_head_not_open (s : jsstring) :
  startsWith s (str "{") = false -> startsWith (replaceTemplates s) (str "{") = false.
Proof.
  destruct s as [|d s]; [reflexivity|]. intros H.
  destruct (Ascii.eqb_spec d "$") as [->|N].
  - destruct (startsWith s (str "{")) eqn:E.
    + destruct s as [|e r]; [discriminate|].
      lit. cbn [startsWith] in E. rewrite andb_true_r in E. apply Ascii.eqb_eq in E. subst e.
      rewrite replaceTemplates_open. now destruct (closeBrace false r).
    + now rewrite replaceTemplates_dollar.
  - rewrite replaceTemplates_other by exact N. exact H.
Qed.

Lemma replaceTemplates_idempotent (s : jsstring) :
  replaceTemplates (replaceTemplates s) = replaceTemplates s.
Proof.
  induction s as [| d s N IH | s E IH | r after Ec IH | r Ec IH] using replaceTemplates_ind.
  - reflexivity.
  - rewrite !(replaceTemplates_other _ _ N). now rewrite IH.
  - rewrite (replaceTemplates_dollar _ E).
    rewrite replaceTemplates_dollar by now apply replaceTemplates_head_not_open.
    now rewrite IH.
  - rewrite replaceTemplates_open, Ec, replaceTemplates_param_app. now rewrite IH.
  - rewrite replaceTemplates_open, Ec, replaceTemplates_open.
    rewrite (closeBrace_replaceTemplates_None _ Ec). now rewrite IH.
Qed.

End ReplaceTemplates.

(** The result of [cleanEndpoint] on a non-empty input starts with a slash,
    holds no [?] and no interpolation that could still be rewritten. *)
Lemma cleanEndpoint_clean (x : jsstring) :
  x <> [] ->
  let y := cleanEndpoint x in
  startsWith y (str "/") = true /\ ~ In "?"%char y /\ replaceTemplates y = y.
Proof.
  intros Hx. unfold cleanEndpoint. destruct x as [|c x]; [contradiction|].
  cbn [isEmpty]. set (z := splitHead "?" (stripOrigin (c :: x))). cbv zeta.
  assert (Hq : ~ In "?"%char (replaceTemplates z)).
  { intros I. apply replaceTemplates_In in I as [I|I].
    - now apply splitHead_not_In in I.
    - apply colon_param_chars in I. tauto. }
  split; [apply ensureLeadingSlash_starts|].
  unfold ensureLeadingSlash. destruct (startsWith (replaceTemplates z) (str "/")).
  - split; [exact Hq | apply replaceTemplates_idempotent].
  - split.
    + intros [E|I]; [discriminate | contradiction].
    + rewrite replaceTemplates_other by discriminate.
      now rewrite replaceTemplates_idempotent.
Qed.

Lemma stripOrigin_slash (t : jsstring) : stripOrigin ("/"%char :: t) = "/"%char :: t.
Proof. reflexivity. Qed.

Lemma cleanEndpoint_fixed (y : jsstring) :
  startsWith y (str "/") = true -> ~ In "?"%char y -> replaceTemplates y = y ->
  cleanEndpoint y = y.
Proof.
  intros Hs Hq Ht. pose proof Hs as Hs'. apply startsWith_slash in Hs' as [t ->].
  unfold cleanEndpoint. cbn [isEmpty]. rewrite stripOrigin_slash.
  rewrite (splitHead_id _ _ Hq), Ht.
  unfold ensureLeadingSlash. now rewrite Hs.
Qed.

Lemma cleanEndpoint_idempotent (x : jsstring) :
  cleanEndpoint (cleanEndpoint x) = cleanEndpoint x.
Proof.
  destruct x as [|c x]; [reflexivity|].
  destruct (cleanEndpoint_clean (c :: x)) as (Hs & Hq & Ht); [discriminate|].
  now apply cleanEndpoint_fixed.
Qed.

(** C3: both normalisers are idempotent: applying [normalizePath] or
    [cleanEndpoint] to its own result returns that result, for every raw
    path or URL. *)
Theorem normalizers_idempotent (x : jsstring) :
  normalizePath (normalizePath x) = normalizePath x /\
  cleanEndpoint (cleanEndpoint x) = cleanEndpoint x.
Proof.
  split; [apply normalizePath_idempotent | apply cleanEndpoint_idempotent].
Qed.


(** [normalizePath] only collapses slashes and fixes the two ends: scheme and
    host, query string and interpolations pass through it. *)
Example normalizePath_keeps_origin_and_templates :
  normalizePath (str "https://host/api//users/${id}/") = str "/https:/host/api/users/${id}".
Proof. reflexivity. Qed.

(** [cleanEndpoint] neither collapses slashes nor removes a trailing one. *)
Example cleanEndpoint_keeps_slashes :
  cleanEndpoint (str "https://host/api//users/${id}/") = str "/api//users/:param/".
Proof. reflexivity. Qed.



(** ** Insertion-ordered maps *)

Section JSMapFacts.

Variable V : Type.

Implicit Types (m : JSMap.t V) (k : jsstring) (v : V).

Lemma get_set_same k v m : JSMap.get k (JSMap.set k v m) = Some v.
Proof.
  induction m as [|[k' v'] m IH]; simpl.
  - now rewrite eqb_refl.
  - destruct (JS.eqb k k') eqn:E; simpl; [now rewrite eqb_refl | now rewrite E].
Qed.

Lemma get_set_other k k' v m :
  k <> k' -> JSMap.get k (JSMap.set k' v m) = JSMap.get k m.
Proof.
  intros N. induction m as [|[k0 v0] m IH]; simpl.
  - apply eqb_neq in N. now rewrite N.
  - destruct (JS.eqb k' k0) eqn:E; simpl.
    + apply eqb_eq in E. subst k0. apply eqb_neq in N. now rewrite N.
    + now rewrite IH.
Qed.

Lemma keys_set_present k v m :
  JSMap.has k m = true -> JSMap.keys (JSMap.set k v m) = JSMap.keys m.
Proof.
  unfold JSMap.has. induction m as [|[k' v'] m IH]; simpl; [discriminate|].
  destruct (JS.eqb k k') eqn:E; simpl.
  - apply eqb_eq in E. now subst.
  - intros H. now rewrite IH.
Qed.

Lemma keys_set_absent k v m :
  JSMap.has k m = false -> JSMap.keys (JSMap.set k v m) = JSMap.keys m ++ [k].
Proof.
  unfold JSMap.has. induction m as [|[k' v'] m IH]; simpl; [reflexivity|].
  destruct (JS.eqb k k') eqn:E; simpl; [discriminate|].
  intros H. now rewrite IH.
Qed.

Lemma has_In_keys k m : JSMap.has k m = true <-> In k (JSMap.keys m).
Proof.
  unfold JSMap.has. induction m as [|[k' v'] m IH]; simpl; [easy|].
  destruct (JS.eqb k k') eqn:E.
  - apply eqb_eq in E. subst. tauto.
  - apply eqb_neq in E. rewrite IH. split; [tauto | intros [H|H]; congruence].
Qed.

Lemma set_NoDup k v m : NoDup (JSMap.keys m) -> NoDup (JSMap.keys (JSMap.set k v m)).
Proof.
  intros H. destruct (JSMap.has k m) eqn:E.
  - now rewrite keys_set_present.
  - rewrite keys_set_absent by exact E.
    apply NoDup_app; [exact H | repeat constructor; easy |].
    intros x Hx [<-|[]]. apply has_In_keys in Hx. congruence.
Qed.

Lemma get_In k v m : JSMap.get k m = Some v -> In (k, v) m.
Proof.
  induction m as [|[k' v'] m IH]; simpl; [discriminate|].
  destruct (JS.eqb k k') eqn:E.
  - apply eqb_eq in E. intros [= ->]. subst. now left.
  - intros H. right. now apply IH.
Qed.

Lemma In_get k v m : NoDup (JSMap.keys m) -> In (k, v) m -> JSMap.get k m = Some v.
Proof.
  induction m as [|[k' v'] m IH]; simpl; [easy|].
  intros Hn [H|H].
  - injection H as -> ->. now rewrite eqb_refl.
  - inversion Hn as [|? ? Hk Hn']; subst.
    destruct (JS.eqb k k') eqn:E.
    + apply eqb_eq in E. subst. exfalso. apply Hk.
      change k' with (fst (k', v)). now apply in_map.
    + now apply IH.
Qed.

End JSMapFacts.

(** ** Lists of issues *)

Lemma ofType_app (t : issueType) (a b : list issue) :
  ofType t (a ++ b) = ofType t a ++ ofType t b.
Proof. apply filter_app. Qed.

Lemma ofType_none (t : issueType) (l : list issue) :
  Forall (fun i => type i <> t) l -> ofType t l = [].
Proof.
  induction 1 as [|i l Hi _ IH]; [reflexivity|].
  unfold ofType in *. simpl. rewrite IH.
  destruct (issueType_eqb (type i) t) eqn:E; [|reflexivity].
  exfalso. apply Hi. now destruct (type i), t.
Qed.

Lemma ofType_all (t : issueType) (l : list issue) :
  Forall (fun i => type i = t) l -> ofType t l = l.
Proof.
  induction 1 as [|i l Hi _ IH]; [reflexivity|].
  unfold ofType in *. simpl. rewrite IH, Hi. now destruct t.
Qed.

Lemma Forall_flat_map (A B : Type) (P : B -> Prop) (f : A -> list B) (l : list A) :
  (forall a, In a l -> Forall P (f a)) -> Forall P (flat_map f l).
Proof.
  induction l as [|a l IH]; simpl; intros H; [constructor|].
  apply Forall_app. split; [apply H; now left | apply IH; intros; apply H; now right].
Qed.

(** Closes goals stating that every issue pushed by a loop has, or has not,
    a given type. *)
Ltac issue_types :=
  repeat first
    [ apply Forall_nil
    | apply Forall_app; split
    | apply Forall_flat_map; intros; try match goal with p : (_ * _)%type |- _ => destruct p end
    | match goal with |- Forall _ (if ?c then _ else _) => destruct c end
    | apply Forall_cons; [simpl; repeat split; congruence|] ].

(** ** Reconciliation of call sites against endpoints *)

Section Reconciliation.

Variable R : rules.

Lemma usage_types (e : B.endpoint) (call : F.callSite) :
  Forall (fun i => type i <> MISSING_BACKEND_ENDPOINT /\ type i <> UNUSED_ENDPOINT)
         (EV.validateEndpointUsage R e call).
Proof.
  unfold EV.validateEndpointUsage, EV.validateURLParams, EV.validateRequestBody,
    EV.validateQueryParams.
  destruct (negb (truthy (F.data call)) || Nat.eqb (length (Object_keys (F.data call))) 0);
    issue_types.
Qed.

Lemma usage_not_missing (e : B.endpoint) (call : F.callSite) :
  ofType MISSING_BACKEND_ENDPOINT (EV.validateEndpointUsage R e call) = [].
Proof.
  apply ofType_none. eapply Forall_impl; [|apply usage_types]. simpl. tauto.
Qed.

Lemma usage_not_unused (e : B.endpoint) (call : F.callSite) :
  ofType UNUSED_ENDPOINT (EV.validateEndpointUsage R e call) = [].
Proof.
  apply ofType_none. eapply Forall_impl; [|apply usage_types]. simpl. tauto.
Qed.

Lemma findUnusedEndpoints_types (E : JSMap.t B.endpoint) :
  Forall (fun i => type i = UNUSED_ENDPOINT) (EV.findUnusedEndpoints R E).
Proof.
  unfold EV.findUnusedEndpoints. apply Forall_flat_map. intros [k e] _.
  destruct (negb (B.used e)); repeat constructor.
Qed.

(** Marking an endpoint used never adds or removes a key. *)
Lemma validateCall_has (key k : jsstring) (E : JSMap.t B.endpoint) (call : F.callSite) :
  JSMap.has k (fst (EV.validateCall R key E call)) = JSMap.has k E.
Proof.
  unfold EV.validateCall. destruct (JSMap.get key E) as [e|] eqn:G; [|reflexivity].
  cbn [fst]. unfold JSMap.has.
  destruct (JS.eqb k key) eqn:Ek.
  - apply eqb_eq in Ek. subst. now rewrite get_set_same, G.
  - apply eqb_neq in Ek. now rewrite get_set_other.
Qed.

Lemma validateCalls_has (key k : jsstring) (calls : list F.callSite) (E : JSMap.t B.endpoint) :
  JSMap.has k (fst (EV.validateCalls R key E calls)) = JSMap.has k E.
Proof.
  revert E. induction calls as [|call rest IH]; intros E; [reflexivity|].
  cbn [EV.validateCalls].
  pose proof (validateCall_has key k E call) as H1.
  destruct (EV.validateCall R key E call) as [E1 i1].
  specialize (IH E1). destruct (EV.validateCalls R key E1 rest) as [E2 i2].
  cbn [fst] in *. congruence.
Qed.

Lemma reconcile_has (k : jsstring) (C : JSMap.t (list F.callSite)) (E : JSMap.t B.endpoint) :
  JSMap.has k (fst (EV.reconcile R E C)) = JSMap.has k E.
Proof.
  revert E. induction C as [|[key calls] C IH]; intros E; [reflexivity|].
  cbn [EV.reconcile].
  pose proof (validateCalls_has key k calls E) as H1.
  destruct (EV.validateCalls R key E calls) as [E1 i1].
  specialize (IH E1). destruct (EV.reconcile R E1 C) as [E2 i2].
  cbn [fst] in *. congruence.
Qed.

Lemma validateCall_missing (key : jsstring) (E : JSMap.t B.endpoint) (call : F.callSite) :
  ofType MISSING_BACKEND_ENDPOINT (snd (EV.validateCall R key E call)) =
  if JSMap.has key E then [] else [EV.missingEndpointIssue R key call].
Proof.
  unfold EV.validateCall, JSMap.has. destruct (JSMap.get key E) as [e|]; cbn [snd].
  - apply usage_not_missing.
  - reflexivity.
Qed.

Lemma validateCalls_missing (key : jsstring) (calls : list F.callSite) (E : JSMap.t B.endpoint) :
  ofType MISSING_BACKEND_ENDPOINT (snd (EV.validateCalls R key E calls)) =
  if JSMap.has key E then [] else map (EV.missingEndpointIssue R key) calls.
Proof.
  revert E. induction calls as [|call rest IH]; intros E.
  - now destruct (JSMap.has key E).
  - cbn [EV.validateCalls].
    pose proof (validateCall_missing key E call) as H1.
    pose proof (validateCall_has key key E call) as H2.
    destruct (EV.validateCall R key E call) as [E1 i1].
    specialize (IH E1). destruct (EV.validateCalls R key E1 rest) as [E2 i2].
    cbn [fst snd] in *. rewrite ofType_app, H1, IH, H2.
    now destruct (JSMap.has key E).
Qed.

Lemma reconcile_missing (C : JSMap.t (list F.callSite)) (E : JSMap.t B.endpoint) :
  ofType MISSING_BACKEND_ENDPOINT (snd (EV.reconcile R E C)) =
  flat_map (fun '(key, calls) =>
              if JSMap.has key E then [] else map (EV.missingEndpointIssue R key) calls) C.
Proof.
  revert E. induction C as [|[key calls] C IH]; intros E; [reflexivity|].
  cbn [EV.reconcile flat_map].
  pose proof (validateCalls_missing key calls E) as H1.
  pose proof (fun k => validateCalls_has key k calls E) as H2.
  destruct (EV.validateCalls R key E calls) as [E1 i1].
  specialize (IH E1). destruct (EV.reconcile R E1 C) as [E2 i2].
  cbn [fst snd] in *. rewrite ofType_app, H1, IH. f_equal.
  apply flat_map_ext. intros [k cs]. now rewrite H2.
Qed.

Lemma validateCalls_unused (key : jsstring) (calls : list F.callSite) (E : JSMap.t B.endpoint) :
  ofType UNUSED_ENDPOINT (snd (EV.validateCalls R key E calls)) = [].
Proof.
  revert E. induction calls as [|call rest IH]; intros E; [reflexivity|].
  cbn [EV.validateCalls].
  assert (H1 : ofType UNUSED_ENDPOINT (snd (EV.validateCall R key E call)) = []).
  { unfold EV.validateCall. destruct (JSMap.get key E); cbn [snd];
      [apply usage_not_unused | reflexivity]. }
  destruct (EV.validateCall R key E call) as [E1 i1].
  specialize (IH E1). destruct (EV.validateCalls R key E1 rest) as [E2 i2].
  cbn [snd] in *. now rewrite ofType_app, H1, IH.
Qed.

Lemma reconcile_unused (C : JSMap.t (list F.callSite)) (E : JSMap.t B.endpoint) :
  ofType UNUSED_ENDPOINT (snd (EV.reconcile R E C)) = [].
Proof.
  revert E. induction C as [|[key calls] C IH]; intros E; [reflexivity|].
  cbn [EV.reconcile].
  pose proof (validateCalls_unused key calls E) as H1.
  destruct (EV.validateCalls R key E calls) as [E1 i1].
  specialize (IH E1). destruct (EV.reconcile R E1 C) as [E2 i2].
  cbn [snd] in *. now rewrite ofType_app, H1, IH.
Qed.

End Reconciliation.

Lemma wellKeyed_entry (key : jsstring) (calls : list F.callSite) (P : jsstring -> bool)
      (f : jsstring -> F.callSite -> issue) :
  forallb (fun call => JS.eqb key (F.callKey call)) calls = true ->
  (if P key then [] else map (f key) calls) =
  flat_map (fun call => if P (F.callKey call) then [] else [f (F.callKey call) call]) calls.
Proof.
  induction calls as [|call rest IH]; simpl.
  - now destruct (P key).
  - rewrite andb_true_iff, eqb_eq. intros [<- H]. rewrite <- (IH H).
    now destruct (P key).
Qed.

Lemma length_flat_map_guard (A B : Type) (keep : A -> bool) (f : A -> B) (l : list A) :
  length (flat_map (fun a => if keep a then [] else [f a]) l) =
  length (filter (fun a => negb (keep a)) l).
Proof.
  induction l as [|a l IH]; [reflexivity|].
  cbn [flat_map filter]. rewrite length_app, IH. now destruct (keep a).
Qed.

(** C2: for a call-site map in which every call site is filed under its
    own key (method, a space, the normalised path), the issues of type
    MISSING_BACKEND_ENDPOINT returned by [validate] are, in order, exactly
    one per call site whose key has no entry in the endpoint map, and none
    for a call site whose key has one; their number is the number of such
    call sites. *)
Theorem missing_endpoint_per_unmatched_call
        (R : rules) (E : JSMap.t B.endpoint) (C : JSMap.t (list F.callSite)) :
  wellKeyed C = true ->
  ofType MISSING_BACKEND_ENDPOINT (snd (EV.validate R E C)) =
  flat_map (fun call =>
              if JSMap.has (F.callKey call) E then []
              else [EV.missingEndpointIssue R (F.callKey call) call])
           (allCalls C)
  /\
  length (ofType MISSING_BACKEND_ENDPOINT (snd (EV.validate R E C))) =
  length (filter (fun call => negb (JSMap.has (F.callKey call) E)) (allCalls C)).
Proof.
  intros Hk.
  assert (Heq : ofType MISSING_BACKEND_ENDPOINT (snd (EV.validate R E C)) =
                flat_map (fun call =>
                            if JSMap.has (F.callKey call) E then []
                            else [EV.missingEndpointIssue R (F.callKey call) call])
                         (allCalls C)).
  { unfold EV.validate.
    pose proof (reconcile_missing R C E) as H.
    destruct (EV.reconcile R E C) as [E' issues]. cbn [snd] in *.
    rewrite ofType_app, H.
    rewrite (ofType_none MISSING_BACKEND_ENDPOINT (EV.findUnusedEndpoints R E')).
    2:{ eapply Forall_impl; [|apply findUnusedEndpoints_types]. simpl. congruence. }
    rewrite app_nil_r. clear H.
    unfold allCalls. induction C as [|[key calls] C IH]; [reflexivity|].
    simpl in Hk. apply andb_true_iff in Hk as [Hk1 Hk2].
    cbn [flat_map snd]. rewrite flat_map_app, (IH Hk2). f_equal.
    now apply (wellKeyed_entry key calls (fun k => JSMap.has k E) (EV.missingEndpointIssue R)). }
  split; [exact Heq|].
  rewrite Heq.
  apply (length_flat_map_guard _ _ (fun call => JSMap.has (F.callKey call) E)
                               (fun call => EV.missingEndpointIssue R (F.callKey call) call)).
Qed.

Lemma missing_endpoint_per_unmatched_call_witness :
  map (fun i => (endpoint i, line i))
      (ofType MISSING_BACKEND_ENDPOINT
              (snd (EV.validate defaultRules Sample.endpoints Sample.apiCalls))) =
    [(Some (str "GET /api/users/:param"), Some 12)] /\
  length (ofType MISSING_BACKEND_ENDPOINT
                 (snd (EV.validate defaultRules Sample.endpoints Sample.apiCalls))) =
  length (filter (fun call => negb (JSMap.has (F.callKey call) Sample.endpoints))
                 (allCalls Sample.apiCalls)).
Proof.
  split; [vm_compute; reflexivity|].
  refine (proj2 (missing_endpoint_per_unmatched_call
                   defaultRules Sample.endpoints Sample.apiCalls _)).
  vm_compute. reflexivity.
Defined.

(** The call-site map built by [extractAPICalls] files every call site under
    its own key. *)
Lemma set_wellKeyed (key : jsstring) (calls : list F.callSite)
      (m : JSMap.t (list F.callSite)) :
  forallb (fun call => JS.eqb key (F.callKey call)) calls = true ->
  wellKeyed m = true -> wellKeyed (JSMap.set key calls m) = true.
Proof.
  intros Hc. induction m as [|[k cs] m IH]; simpl.
  - intros _. now rewrite Hc.
  - rewrite andb_true_iff. intros [H1 H2].
    destruct (JS.eqb key k); simpl; rewrite ?Hc, ?H1, ?H2, ?IH; auto.
Qed.

Lemma get_wellKeyed (key : jsstring) (calls : list F.callSite)
      (m : JSMap.t (list F.callSite)) :
  wellKeyed m = true -> JSMap.get key m = Some calls ->
  forallb (fun call => JS.eqb key (F.callKey call)) calls = true.
Proof.
  induction m as [|[k cs] m IH]; simpl; [discriminate|].
  rewrite andb_true_iff. intros [H1 H2].
  destruct (JS.eqb key k) eqn:E; [|now apply IH].
  apply eqb_eq in E. subst. now intros [= <-].
Qed.

Lemma addCall_wellKeyed (m : JSMap.t (list F.callSite)) (c : F.callSite) :
  wellKeyed m = true -> wellKeyed (F.addCall m c) = true.
Proof.
  intros H. unfold F.addCall.
  destruct (JSMap.get (F.callKey c) m) as [calls|] eqn:G.
  - apply set_wellKeyed; [|exact H].
    rewrite forallb_app, (get_wellKeyed _ _ _ H G). simpl. now rewrite eqb_refl.
  - apply set_wellKeyed; [|exact H]. simpl. now rewrite eqb_refl.
Qed.

Lemma extractAPICalls_wellKeyed (calls : list node) (file : jsstring)
      (m : JSMap.t (list F.callSite)) :
  wellKeyed m = true -> wellKeyed (F.extractAPICalls calls file m) = true.
Proof.
  unfold F.extractAPICalls.
  generalize (flat_map (fun n => match F.detectAPICall n with
                                 | Some call => [(call, F.lineOf n)]
                                 | None => []
                                 end) calls).
  intros detected. revert m.
  induction detected as [|[call line] detected IH]; intros m H; [exact H|].
  simpl. apply IH. destruct (F.normalizeAPICall call file line); [|exact H].
  now apply addCall_wellKeyed.
Qed.

Section UsedFlags.

Variable R : rules.

Lemma markUsed_idempotent (e : B.endpoint) : B.markUsed (B.markUsed e) = B.markUsed e.
Proof. reflexivity. Qed.

Lemma markWhere_keys (hit : jsstring -> bool) (E : JSMap.t B.endpoint) :
  JSMap.keys (markWhere hit E) = JSMap.keys E.
Proof.
  unfold markWhere, JSMap.keys. rewrite map_map. apply map_ext. now intros [k e].
Qed.

Lemma markWhere_ext (hit hit' : jsstring -> bool) (E : JSMap.t B.endpoint) :
  (forall k, hit k = hit' k) -> markWhere hit E = markWhere hit' E.
Proof.
  intros H. unfold markWhere. apply map_ext. intros [k e]. now rewrite H.
Qed.

Lemma markWhere_false (E : JSMap.t B.endpoint) : markWhere (fun _ => false) E = E.
Proof.
  unfold markWhere. rewrite <- (map_id E) at 2. apply map_ext. now intros [k e].
Qed.

Lemma markWhere_twice (h1 h2 : jsstring -> bool) (E : JSMap.t B.endpoint) :
  markWhere h2 (markWhere h1 E) = markWhere (fun k => h1 k || h2 k) E.
Proof.
  unfold markWhere. rewrite map_map. apply map_ext. intros [k e].
  now destruct (h1 k), (h2 k).
Qed.

Lemma set_markUsed (key : jsstring) (e : B.endpoint) (E : JSMap.t B.endpoint) :
  NoDup (JSMap.keys E) -> JSMap.get key E = Some e ->
  JSMap.set key (B.markUsed e) E = markWhere (fun k => JS.eqb k key) E.
Proof.
  induction E as [|[k e0] E IH]; simpl; [discriminate|].
  intros Hn. inversion Hn as [|? ? Hk Hn']; subst.
  rewrite (eqb_sym k key). destruct (JS.eqb key k) eqn:Ek.
  - intros [= ->]. apply eqb_eq in Ek. subst k. f_equal.
    rewrite <- (map_id E) at 1. apply map_ext_in. intros [k' e'] Hin.
    destruct (JS.eqb k' key) eqn:E2; [|reflexivity].
    apply eqb_eq in E2. subst. exfalso. apply Hk.
    change key with (fst (key, e')). now apply in_map.
  - intros G. f_equal. now apply IH.
Qed.

Lemma validateCall_marks (key : jsstring) (call : F.callSite) (E : JSMap.t B.endpoint) :
  NoDup (JSMap.keys E) ->
  fst (EV.validateCall R key E call) = markWhere (fun k => JS.eqb k key) E.
Proof.
  intros Hn. unfold EV.validateCall.
  destruct (JSMap.get key E) as [e|] eqn:G; cbn [fst].
  - now apply set_markUsed.
  - unfold markWhere. rewrite <- (map_id E) at 1. apply map_ext_in. intros [k e] Hin.
    destruct (JS.eqb k key) eqn:Ek; [|reflexivity].
    apply eqb_eq in Ek. subst.
    rewrite (In_get _ _ _ _ Hn Hin) in G. discriminate.
Qed.

Lemma validateCalls_marks (key : jsstring) (calls : list F.callSite)
      (E : JSMap.t B.endpoint) :
  NoDup (JSMap.keys E) ->
  fst (EV.validateCalls R key E calls) =
  markWhere (fun k => JS.eqb k key && negb (Nat.eqb (length calls) 0)) E.
Proof.
  revert E. induction calls as [|call rest IH]; intros E Hn.
  - cbn [EV.validateCalls fst]. rewrite <- (markWhere_false E) at 1.
    apply markWhere_ext. intros k. simpl. now rewrite andb_false_r.
  - cbn [EV.validateCalls].
    pose proof (validateCall_marks key call E Hn) as H1.
    destruct (EV.validateCall R key E call) as [E1 i1]. cbn [fst] in H1.
    assert (Hn1 : NoDup (JSMap.keys E1)) by (subst E1; now rewrite markWhere_keys).
    specialize (IH E1 Hn1).
    destruct (EV.validateCalls R key E1 rest) as [E2 i2]. cbn [fst] in *.
    rewrite IH, H1, markWhere_twice. apply markWhere_ext. intros k. simpl.
    destruct (JS.eqb k key); reflexivity.
Qed.

(** After the first loop of [validate] an endpoint is used exactly when it
    was used before or some call site is filed under its key; nothing
    else about the endpoint map changes. *)
Lemma reconcile_marks (C : JSMap.t (list F.callSite)) (E : JSMap.t B.endpoint) :
  NoDup (JSMap.keys E) ->
  fst (EV.reconcile R E C) = markWhere (fun k => called k C) E.
Proof.
  revert E. induction C as [|[key calls] C IH]; intros E Hn.
  - cbn [EV.reconcile fst]. symmetry. apply markWhere_false.
  - cbn [EV.reconcile].
    pose proof (validateCalls_marks key calls E Hn) as H1.
    destruct (EV.validateCalls R key E calls) as [E1 i1]. cbn [fst] in H1.
    assert (Hn1 : NoDup (JSMap.keys E1)) by (subst E1; now rewrite markWhere_keys).
    specialize (IH E1 Hn1).
    destruct (EV.reconcile R E1 C) as [E2 i2]. cbn [fst] in *.
    rewrite IH, H1, markWhere_twice. apply markWhere_ext. intros k.
    cbn [called existsb]. now rewrite (eqb_sym key k).
Qed.

Lemma validate_marks (C : JSMap.t (list F.callSite)) (E : JSMap.t B.endpoint) :
  NoDup (JSMap.keys E) ->
  fst (EV.validate R E C) = markWhere (fun k => called k C) E.
Proof.
  intros Hn. unfold EV.validate.
  pose proof (reconcile_marks C E Hn) as H.
  destruct (EV.reconcile R E C) as [E' issues]. exact H.
Qed.

End UsedFlags.

(** With [rules.severity.unusedEndpoint] set to HIGH the two unused
    endpoints of the sample project are reported with severity HIGH, not
    LOW. *)
Lemma unused_severity_follows_configuration :
  unusedEndpoint (severityOf Sample4.strictRules) = Some HIGH /\
  map (fun i => (type i, endpoint i, severity i))
      (ofType UNUSED_ENDPOINT
              (snd (EV.validate Sample4.strictRules Sample.endpoints Sample.apiCalls))) =
  [(UNUSED_ENDPOINT, Some (str "DELETE /api/orders/:id"), HIGH);
   (UNUSED_ENDPOINT, Some (str "POST /api/auth/login"), HIGH)].
Proof.
  split; [reflexivity|]. vm_compute. reflexivity.
Qed.

(** C7 (amended): under every configuration the issues of type
    UNUSED_ENDPOINT returned by [validate] are, in order, exactly one for
    every entry of the endpoint map that is still unused once all call
    sites are processed, and none for an entry that is used; their number
    is the number of unused entries; and each has the severity that
    [rules.severity.unusedEndpoint] sets, LOW when it sets none. *)
Theorem unused_endpoint_per_unused_entry
        (R : rules) (E : JSMap.t B.endpoint) (C : JSMap.t (list F.callSite)) :
  ofType UNUSED_ENDPOINT (snd (EV.validate R E C)) =
  flat_map (fun '(key, e) =>
              if B.used e then [] else [EV.unusedEndpointIssue R key e])
           (fst (EV.validate R E C))
  /\ length (ofType UNUSED_ENDPOINT (snd (EV.validate R E C))) =
     length (filter (fun e => negb (B.used e)) (JSMap.values (fst (EV.validate R E C))))
  /\ Forall (fun i => severity i =
                      match unusedEndpoint (severityOf R) with
                      | Some configured => configured
                      | None => LOW
                      end)
            (ofType UNUSED_ENDPOINT (snd (EV.validate R E C))).
Proof.
  unfold EV.validate.
  pose proof (reconcile_unused R C E) as H.
  destruct (EV.reconcile R E C) as [E' issues]. cbn [fst snd] in *.
  rewrite ofType_app, H, app_nil_l.
  rewrite (ofType_all _ _ (findUnusedEndpoints_types R E')).
  unfold EV.findUnusedEndpoints, JSMap.values. split; [|split].
  - apply flat_map_ext. intros [k e]. now destruct (B.used e).
  - induction E' as [|[k e] E' IH]; [reflexivity|].
    cbn [flat_map map filter snd]. rewrite length_app, IH.
    now destruct (B.used e).
  - apply Forall_flat_map. intros [k e] _.
    destruct (negb (B.used e)); repeat constructor.
Qed.

(** In the sample project the two unused endpoints are reported, one issue
    each, and the two that are called are not. *)
Example unused_endpoints_of_sample :
  map (fun i => (endpoint i, severity i))
      (ofType UNUSED_ENDPOINT
              (snd (EV.validate defaultRules Sample.endpoints Sample.apiCalls))) =
  [(Some (str "DELETE /api/orders/:id"), LOW); (Some (str "POST /api/auth/login"), LOW)].
Proof. vm_compute. reflexivity. Qed.

(** ** Request bodies *)

Section RequestBody.

Variable R : rules.






Lemma Object_keys_truthy (v : jsval) : Object_keys v <> [] -> truthy v = true.
Proof.
  destruct v as [| b | z | s | els | ps]; cbn; try congruence.
  destruct s; cbn; congruence.
Qed.

(** What [validateRequestBody] reports about required fields: nothing for a
    call site without own properties in its data, and otherwise one issue
    per required field that the data lacks. *)
Lemma validateRequestBody_missing (e : B.endpoint) (call : F.callSite) :
  ofType MISSING_BODY_FIELD (EV.validateRequestBody R e call) =
  match Object_keys (F.data call) with
  | [] => []
  | _ :: _ =>
      flat_map (fun '(f, bodyField) =>
                  if B.required bodyField && negb (hasOwnProperty (F.data call) f)
                  then [EV.missingBodyFieldIssue R e call f] else [])
               (B.expectedBody e)
  end.
Proof.
  unfold EV.validateRequestBody.
  destruct (Object_keys (F.data call)) as [|k ks] eqn:Ek.
  - now rewrite orb_true_r.
  - rewrite Object_keys_truthy by (rewrite Ek; discriminate). cbn [negb orb length Nat.eqb].
    rewrite ofType_app, ofType_all, ofType_none, app_nil_r; [reflexivity | |]; issue_types.
Qed.

End RequestBody.


(** ** The error path of the request-body check *)

Section Checked.

Variable R : rules.












End Checked.

(** A body literal with a property named [hasOwnProperty] makes the check
    of the required field throw: [validate] returns no issue at all, not
    even the MISSING_BODY_FIELD for the absent [items]. *)
Example shadowed_hasOwnProperty_throws :
  snd (EVC.validate defaultRules Sample.schemaEndpoints Sample5.shadowCalls) = Throw.
Proof. reflexivity. Qed.



(** ** Route declarations with the same key *)

Section Routes.

Lemma visitCalls_register (basePath file : jsstring) (calls : list node)
      (m m' : JSMap.t B.endpoint) :
  B.visitCalls basePath file calls m = Normal m' ->
  m' = register
         (flat_map (fun n => match B.extractEndpointFromCall n basePath file with
                             | Normal (Some e) => [e]
                             | _ => []
                             end) calls) m.
Proof.
  revert m. induction calls as [|n rest IH]; intros m; cbn [B.visitCalls flat_map].
  - now intros [= <-].
  - destruct (B.extractEndpointFromCall n basePath file) as [[e|]|]; [| |discriminate].
    + intros H. apply IH in H. exact H.
    + apply IH.
Qed.

Lemma register_app (a b : list B.endpoint) (m : JSMap.t B.endpoint) :
  register (a ++ b) m = register b (register a m).
Proof. apply fold_left_app. Qed.

(** A run that completes has registered the observed declarations in order. *)
Lemma analyzeRoutes_register (files : list B.routeFile) (m m' : JSMap.t B.endpoint) :
  B.analyzeRoutes files m = Normal m' -> m' = register (observed files) m.
Proof.
  revert m. induction files as [|f rest IH]; intros m; cbn [B.analyzeRoutes].
  - now intros [= <-].
  - unfold B.analyzeRouteFile.
    destruct (B.visitCalls (B.detectedBasePath f) (B.relativePath f)
                           (B.callExpressions f) m) as [m1|] eqn:E1; [|discriminate].
    intros H. apply IH in H. apply visitCalls_register in E1.
    unfold observed in *. cbn [flat_map]. rewrite register_app.
    subst m1. exact H.
Qed.

(** The run completes whenever no extraction throws. *)
Lemma analyzeRoutes_total (files : list B.routeFile) (m : JSMap.t B.endpoint) :
  (forall f n, In f files -> In n (B.callExpressions f) ->
               B.extractEndpointFromCall n (B.detectedBasePath f) (B.relativePath f) <> Throw) ->
  exists m', B.analyzeRoutes files m = Normal m'.
Proof.
  revert m. induction files as [|f rest IH]; intros m H; cbn [B.analyzeRoutes]; [eauto|].
  assert (Hv : exists m1, B.analyzeRouteFile f m = Normal m1).
  { unfold B.analyzeRouteFile.
    assert (Hf : forall n, In n (B.callExpressions f) ->
                 B.extractEndpointFromCall n (B.detectedBasePath f) (B.relativePath f) <> Throw)
      by (intros n Hn; apply H; [now left | exact Hn]).
    revert m Hf. generalize (B.callExpressions f) as calls.
    induction calls as [|n calls IHc]; intros m Hf; cbn [B.visitCalls]; [eauto|].
    pose proof (Hf n (or_introl eq_refl)) as Hn.
    destruct (B.extractEndpointFromCall n (B.detectedBasePath f) (B.relativePath f))
      as [[e|]|]; [| |contradiction]; apply IHc; intros; apply Hf; now right. }
  destruct Hv as [m1 ->]. apply IH. intros f' n Hf'. apply H. now right.
Qed.

Lemma register_NoDup (es : list B.endpoint) (m : JSMap.t B.endpoint) :
  NoDup (JSMap.keys m) -> NoDup (JSMap.keys (register es m)).
Proof.
  revert m. induction es as [|e es IH]; intros m H; [exact H|].
  apply IH. now apply set_NoDup.
Qed.

Lemma register_get_other (es : list B.endpoint) (m : JSMap.t B.endpoint) (k : jsstring) :
  (forall e, In e es -> B.endpointKey e <> k) ->
  JSMap.get k (register es m) = JSMap.get k m.
Proof.
  revert m. induction es as [|e es IH]; intros m H; [reflexivity|].
  cbn [register fold_left]. fold (register es (JSMap.set (B.endpointKey e) e m)).
  rewrite IH by (intros; apply H; now right).
  apply get_set_other. intros ->. now apply (H e (or_introl eq_refl)).
Qed.

(** Every entry is filed under the key of its endpoint. *)
Lemma register_keyed (es : list B.endpoint) (m : JSMap.t B.endpoint) :
  (forall k e, In (k, e) m -> k = B.endpointKey e) ->
  forall k e, In (k, e) (register es m) -> k = B.endpointKey e.
Proof.
  revert m. induction es as [|e0 es IH]; intros m H; [exact H|].
  cbn [register fold_left]. apply IH. clear IH.
  induction m as [|[k1 e1] m IHm]; simpl.
  - intros k e [[= <- <-]|[]]. reflexivity.
  - destruct (JS.eqb (B.endpointKey e0) k1) eqn:Ek; simpl.
    + intros k e [[= <- <-]|Hin]; [reflexivity | apply H; now right].
    + intros k e [[= <- <-]|Hin]; [apply H; now left|].
      apply IHm; [|exact Hin]. intros; apply H; now right.
Qed.

End Routes.

(** In routes/orders.js lines 4 and 5 declare [GET /orders/] and
    [GET /orders]; both have the key [GET /api/orders].  The run keeps the
    declaration of line 5 under that key and the one of line 4 is nowhere
    in the endpoint map it returns. *)
Lemma earlier_declaration_is_lost :
  map (fun e => (B.endpointKey e, B.line e)) (declared Sample.ordersFile) =
    [(str "POST /api/orders", 3); (str "GET /api/orders", 4); (str "GET /api/orders", 5);
     (str "DELETE /api/orders/:id", 6); (str "POST /api/auth/login", 7)] /\
  In Sample.listOrders (declared Sample.ordersFile) /\
  In Sample.listAllOrders (declared Sample.ordersFile) /\
  B.analyzeRoutes [Sample.ordersFile] [] = Normal Sample.endpoints /\
  JSMap.get (str "GET /api/orders") Sample.endpoints = Some Sample.listAllOrders /\
  ~ In Sample.listOrders (JSMap.values Sample.endpoints).
Proof.
  split; [vm_compute; reflexivity|].
  split; [vm_compute; right; left; reflexivity|].
  split; [vm_compute; right; right; left; reflexivity|].
  split; [vm_compute; reflexivity|]. split; [vm_compute; reflexivity|].
  vm_compute. intros [H|[H|[H|[H|[]]]]]; discriminate H.
Qed.

(** C4 (amended): when two route declarations of a run normalise to the
    same key, the one observed later is the endpoint stored under that key;
    the endpoint map holds one record per key, so the earlier declaration,
    when it differs, is not part of the extractor's output. *)
Theorem later_declaration_wins
        (files : list B.routeFile) (m' : JSMap.t B.endpoint)
        (before between after : list B.endpoint) (e1 e2 : B.endpoint) :
  B.analyzeRoutes files [] = Normal m' ->
  observed files = before ++ e1 :: between ++ e2 :: after ->
  B.endpointKey e1 = B.endpointKey e2 ->
  (forall e, In e after -> B.endpointKey e <> B.endpointKey e2) ->
  JSMap.get (B.endpointKey e2) m' = Some e2 /\
  NoDup (JSMap.keys m') /\
  (e1 <> e2 -> ~ In e1 (JSMap.values m')).
Proof.
  intros Hrun Hobs Hkey Hlast.
  apply analyzeRoutes_register in Hrun. subst m'.
  assert (Hn : NoDup (JSMap.keys (register (observed files) []))).
  { apply register_NoDup. constructor. }
  assert (Hget : JSMap.get (B.endpointKey e2) (register (observed files) []) = Some e2).
  { rewrite Hobs.
    replace (before ++ e1 :: between ++ e2 :: after)
      with ((before ++ e1 :: between) ++ [e2] ++ after)
      by (rewrite <- !app_assoc; reflexivity).
    rewrite !register_app. rewrite register_get_other by exact Hlast.
    cbn [register fold_left]. apply get_set_same. }
  split; [exact Hget|]. split; [exact Hn|].
  intros Hne Hin. apply Hne.
  unfold JSMap.values in Hin. apply in_map_iff in Hin as [[k e] [He Hin]].
  cbn [snd] in He. subst e.
  assert (Hk : k = B.endpointKey e1).
  { apply (register_keyed (observed files) []); [intros ? ? []| exact Hin]. }
  subst k. apply (In_get _ _ _ _ Hn) in Hin. rewrite Hkey in Hin. congruence.
Qed.

Lemma later_declaration_wins_witness :
  JSMap.get (B.endpointKey Sample.listAllOrders) Sample.endpoints = Some Sample.listAllOrders /\
  NoDup (JSMap.keys Sample.endpoints) /\
  (Sample.listOrders <> Sample.listAllOrders ->
   ~ In Sample.listOrders (JSMap.values Sample.endpoints)).
Proof.
  apply (later_declaration_wins [Sample.ordersFile] Sample.endpoints
           [nth 0 (declared Sample.ordersFile) Sample.listOrders] []
           [nth 3 (declared Sample.ordersFile) Sample.listOrders;
            nth 4 (declared Sample.ordersFile) Sample.listOrders]
           Sample.listOrders Sample.listAllOrders).
  - vm_compute. reflexivity.
  - vm_compute. reflexivity.
  - reflexivity.
  - vm_compute. intros e [<-|[<-|[]]]; discriminate.
Defined.

(** ** Query parameters of call sites *)

Lemma extractQueryParams_clean (e : jsstring) : extractQueryParams (cleanEndpoint e) = [].
Proof.
  unfold extractQueryParams.
  destruct e as [|c e]; [reflexivity|].
  destruct (cleanEndpoint_clean (c :: e)) as (_ & Hq & _); [discriminate|].
  apply indexOf_None in Hq. now rewrite Hq.
Qed.

Lemma normalizeAPICall_queryParams (call : F.apiCall) (file : jsstring) (line : nat)
      (site : F.callSite) :
  F.normalizeAPICall call file line = Some site -> F.queryParams site = [].
Proof.
  unfold F.normalizeAPICall.
  destruct (F.readCall call) as [[[[method [raw|]] data] hasAuth]|]; try discriminate.
  destruct (isEmpty raw); [discriminate|].
  intros [= <-]. cbn [F.queryParams]. apply extractQueryParams_clean.
Qed.

Lemma allCalls_set (key : jsstring) (calls : list F.callSite) (m : JSMap.t (list F.callSite))
      (site : F.callSite) :
  In site (allCalls (JSMap.set key calls m)) ->
  In site calls \/ In site (allCalls m).
Proof.
  unfold allCalls. induction m as [|[k cs] m IH]; simpl.
  - rewrite app_nil_r. auto.
  - destruct (JS.eqb key k); simpl; rewrite !in_app_iff; [tauto|].
    intros [H|H]; [tauto|]. apply IH in H. tauto.
Qed.

Lemma allCalls_get (key : jsstring) (calls : list F.callSite) (m : JSMap.t (list F.callSite))
      (site : F.callSite) :
  JSMap.get key m = Some calls -> In site calls -> In site (allCalls m).
Proof.
  intros G Hin. apply get_In in G. unfold allCalls. apply in_flat_map.
  exists (key, calls). auto.
Qed.

Lemma allCalls_addCall (m : JSMap.t (list F.callSite)) (c site : F.callSite) :
  In site (allCalls (F.addCall m c)) -> site = c \/ In site (allCalls m).
Proof.
  unfold F.addCall. destruct (JSMap.get (F.callKey c) m) as [calls|] eqn:G; intros H;
    apply allCalls_set in H as [H|H]; auto.
  - apply in_app_iff in H as [H|[H|[]]]; [|auto].
    right. eapply allCalls_get; eauto.
  - destruct H as [H|[]]. auto.
Qed.

(** C10: every call site that [extractAPICalls] files has an empty
    [queryParams]: the endpoint handed to [extractQueryParams] has already
    lost everything from its first [?].  Stated for the call-site map of a
    run, which the files extend one after the other. *)
Theorem call_sites_have_no_query_params
        (calls : list node) (file : jsstring) (m : JSMap.t (list F.callSite)) :
  (forall site, In site (allCalls m) -> F.queryParams site = []) ->
  forall site, In site (allCalls (F.extractAPICalls calls file m)) ->
               F.queryParams site = [].
Proof.
  unfold F.extractAPICalls.
  generalize (flat_map (fun n => match F.detectAPICall n with
                                 | Some call => [(call, F.lineOf n)]
                                 | None => []
                                 end) calls).
  intros detected. revert m.
  induction detected as [|[call line] detected IH]; intros m Hm; [exact Hm|].
  cbn [fold_left]. apply IH.
  destruct (F.normalizeAPICall call file line) as [c|] eqn:E; [|exact Hm].
  intros site H. apply allCalls_addCall in H as [->|H]; [|now apply Hm].
  eapply normalizeAPICall_queryParams; eauto.
Qed.

Lemma call_sites_have_no_query_params_witness :
  F.originalUrl Sample.pagedCall = Some (str "/api/orders?page=2&size=10") /\
  In Sample.pagedCall (allCalls Sample.apiCalls) /\
  F.queryParams Sample.pagedCall = [].
Proof.
  split; [reflexivity|].
  assert (Hin : In Sample.pagedCall (allCalls Sample.apiCalls)).
  { vm_compute. right. right. left. reflexivity. }
  split; [exact Hin|].
  apply (call_sites_have_no_query_params Sample.ordersService
           (str "src/services/orders.js") [] (fun site (H : In site []) => match H with end)
           Sample.pagedCall Hin).
Defined.

(** ** Sensitive endpoints without authentication *)

Section Security.

Variable R : rules.

(** What [validate] reports as SENSITIVE_ENDPOINT_NO_AUTH: one issue for
    every endpoint whose key is sensitive and that requires no
    authentication.  The exemption list plays no part. *)
Lemma sensitive_endpoint_issues (E : JSMap.t B.endpoint) (C : JSMap.t (list F.callSite)) :
  ofType SENSITIVE_ENDPOINT_NO_AUTH (SV.validate R E C) =
  flat_map (fun '(key, e) =>
              if SV.isSensitiveEndpoint R key && negb (B.requiresAuth e)
              then [SV.sensitiveEndpointNoAuthIssue R key e] else [])
           E.
Proof.
  unfold SV.validate. rewrite !ofType_app.
  rewrite (ofType_all SENSITIVE_ENDPOINT_NO_AUTH (SV.validateAuthenticationRequirements R E)).
  2:{ unfold SV.validateAuthenticationRequirements. issue_types. }
  rewrite (ofType_none _ (SV.validateFrontendAuthentication R E C)).
  2:{ unfold SV.validateFrontendAuthentication. apply Forall_flat_map. intros [k cs] _.
      destruct (JSMap.get k E) as [e|]; [|constructor].
      destruct (B.requiresAuth e); issue_types. }
  rewrite (ofType_none _ (SV.validatePublicEndpoints R E)).
  2:{ unfold SV.validatePublicEndpoints. issue_types. }
  rewrite (ofType_none _ (SV.validateSensitiveMethods R E)).
  2:{ unfold SV.validateSensitiveMethods. issue_types. }
  now rewrite !app_nil_r.
Qed.

(** The sibling check does consult the exemption list. *)
Lemma sensitive_method_issues (E : JSMap.t B.endpoint) :
  SV.validateSensitiveMethods R E =
  flat_map (fun '(key, e) =>
              if arrayIncludes
                   (match security R with
                    | Some s => orElse (sensitiveMethods s) SV.defaultSensitiveMethods
                    | None => SV.defaultSensitiveMethods
                    end) (B.method e)
                 && negb (B.requiresAuth e) && negb (SV.isExemptFromAuth key)
              then [SV.sensitiveMethodNoAuthIssue key e] else [])
           E.
Proof.
  unfold SV.validateSensitiveMethods. apply flat_map_ext. intros [key e].
  destruct (arrayIncludes _ (B.method e) && negb (B.requiresAuth e)); [|reflexivity].
  now destruct (SV.isExemptFromAuth key).
Qed.

End Security.

(** C5 (the code departs from it): [router.post('/login', login)] under the
    prefix [/auth] gives the endpoint [POST /auth/login] without auth
    middleware.  Its key is on the
    exemption list, and the check of sensitive methods skips it for that
    reason, yet [validate] reports SENSITIVE_ENDPOINT_NO_AUTH for it with
    severity CRITICAL. *)
Theorem exempt_login_is_flagged :
  B.analyzeRoutes [Sample.authFile] [] = Normal Sample.loginEndpoints /\
  map (fun '(key, e) => (key, B.requiresAuth e)) Sample.loginEndpoints =
    [(str "POST /auth/login", false)] /\
  SV.isExemptFromAuth (str "POST /auth/login") = true /\
  map (fun i => (type i, severity i, endpoint i))
      (SV.validate defaultRules Sample.loginEndpoints []) =
    [(SENSITIVE_ENDPOINT_NO_AUTH, CRITICAL, Some (str "POST /auth/login"))].
Proof.
  repeat split; vm_compute; reflexivity.
Qed.

(** ** Reading the cache *)

Section CacheRead.

Variable JSON_parse : jsstring -> option jsval.

Lemma unlink_removes (filePath : jsstring) (d : JSMap.t CM.fileEntry) :
  JSMap.has filePath (CM.unlink filePath d) = false.
Proof.
  unfold JSMap.has. induction d as [|[p f] d IH]; [reflexivity|].
  cbn [CM.unlink filter]. destruct (JS.eqb p filePath) eqn:E; cbn [negb].
  - exact IH.
  - cbn [JSMap.get]. rewrite eqb_sym, E. exact IH.
Qed.

(** A file that is fresh enough and does not parse makes [get] answer
    [null] and count a miss; the cache directory is left as it was, the
    file included. *)
Lemma get_unparsable (now : Z) (key category : jsstring) (c : CM.cache) (f : CM.fileEntry) :
  CM.truthyValue (CM.memoryGet now (category ++ str ":" ++ key) c) = false ->
  JSMap.get (CM.cachePath c category key) (CM.disk c) = Some f ->
  (CM.maxAge c * 1000 <? now - CM.mtime f)%Z = false ->
  JSON_parse (CM.content f) = None ->
  CM.get JSON_parse now key category c = (None, CM.countMiss c) /\
  CM.disk (snd (CM.get JSON_parse now key category c)) = CM.disk c /\
  CM.existsSync (CM.cachePath c category key)
                (snd (CM.get JSON_parse now key category c)) = true.
Proof.
  intros Hmem Hfile Hage Hparse.
  assert (Hget : CM.get JSON_parse now key category c = (None, CM.countMiss c)).
  { unfold CM.get. rewrite Hmem, Hfile. unfold CM.readEntry. now rewrite Hage, Hparse. }
  rewrite Hget. cbn [snd]. split; [reflexivity|]. split; [reflexivity|].
  unfold CM.existsSync, JSMap.has. cbn. now rewrite Hfile.
Qed.

(** The sweep, on the same file, deletes it. *)
Lemma clearExpiredFile_unparsable (now : Z) (filePath : jsstring) (c : CM.cache)
      (f : CM.fileEntry) :
  JSMap.get filePath (CM.disk c) = Some f ->
  (CM.maxAge c * 1000 <? now - CM.mtime f)%Z = false ->
  JSON_parse (CM.content f) = None ->
  snd (CM.clearExpiredFile JSON_parse now filePath c) = true /\
  CM.existsSync filePath (fst (CM.clearExpiredFile JSON_parse now filePath c)) = false.
Proof.
  intros Hfile Hage Hparse. unfold CM.clearExpiredFile, CM.readEntry.
  rewrite Hfile, Hage, Hparse. cbn [fst snd]. split; [reflexivity|].
  unfold CM.existsSync. cbn. apply unlink_removes.
Qed.

End CacheRead.

(** C6 (the code departs from it): reading the key [k1] at time 2000 finds
    [files/k1.json], fails to parse it, and answers [null] with one miss
    counted; the file is still in the cache directory afterwards.  The
    sweep of [clearExpired] does delete the same file. *)
Theorem corrupt_file_survives_get :
  CM.existsSync (str ".audit-cache/files/k1.json") Sample.corruptCache = true /\
  fst (CM.get Sample.parseEmptyObject 2000 (str "k1") (str "files") Sample.corruptCache) = None /\
  CM.misses (CM.stats (snd (CM.get Sample.parseEmptyObject 2000 (str "k1") (str "files")
                                   Sample.corruptCache))) = 1 /\
  CM.existsSync (str ".audit-cache/files/k1.json")
                (snd (CM.get Sample.parseEmptyObject 2000 (str "k1") (str "files")
                             Sample.corruptCache)) = true /\
  CM.existsSync (str ".audit-cache/files/k1.json")
                (fst (CM.clearExpired Sample.parseEmptyObject 2000 Sample.corruptCache)) = false.
Proof.
  repeat split; vm_compute; reflexivity.
Qed.

(** ** Unused design-system components *)

Section Components.

Variable R : rules.

Lemma detectIncorrectUsage_types (ds : JSMap.t CV.dsComponentInfo)
      (fe : JSMap.t CV.feComponentInfo) :
  Forall (fun i => type i = DUPLICATE_COMPONENT) (CV.detectIncorrectUsage ds fe).
Proof.
  unfold CV.detectIncorrectUsage. apply Forall_flat_map. intros [k component] _.
  destruct (find _ (map toLowerCase (JSMap.keys ds))) as [similar|]; [|constructor].
  destruct (isEmpty similar); [constructor|].
  destruct (find _ (JSMap.values ds)) as [c|]; [|constructor].
  destruct (negb (CV.used c)); repeat constructor.
Qed.

Lemma validatePropsConsistency_types (ds : JSMap.t CV.dsComponentInfo) :
  Forall (fun i => type i = VERIFY_PROPS_USAGE) (CV.validatePropsConsistency ds).
Proof.
  unfold CV.validatePropsConsistency. apply Forall_flat_map. intros [k c] _.
  destruct (CV.used c && (0 <? length (CV.props c))); [|constructor].
  unfold CV.validateBasicPropsUsage. destruct (0 <? length _); [|constructor].
  apply Forall_map. apply Forall_forall. reflexivity.
Qed.

Lemma findUnusedComponents_types (ds : JSMap.t CV.dsComponentInfo) :
  Forall (fun i => type i = UNUSED_DS_COMPONENT) (CV.findUnusedComponents R ds).
Proof.
  unfold CV.findUnusedComponents. apply Forall_flat_map. intros [k c] _.
  destruct (negb (CV.used c)); repeat constructor.
Qed.

End Components.




(** ** Worked examples *)

Example cleanEndpoint_interpolation :
  cleanEndpoint (str "/api/users/${id}") = str "/api/users/:param".
Proof. reflexivity. Qed.

Example cleanEndpoint_absolute_url :
  cleanEndpoint (str "https://api.example.com:8443/v1/items?limit=5") = str "/v1/items".
Proof. reflexivity. Qed.

Example normalizePath_mounted_route :
  normalizePath (str "/api/" ++ str "/users/") = str "/api/users".
Proof. reflexivity. Qed.

Example extractPathParams_two :
  extractPathParams (str "/api/users/:userId/orders/:orderId") = [str "userId"; str "orderId"].
Proof. reflexivity. Qed.

Example extractQueryParams_raw_url :
  extractQueryParams (str "/api/orders?page=2&size=10") = [str "page"; str "size"].
Proof. reflexivity. Qed.

Example inferMethod_prefix_is_returned_as_key :
  F.inferMethodFromServiceCall (str "getUsers") = str "get" /\
  F.inferMethodFromServiceCall (str "remove") = str "DELETE" /\
  F.inferMethodFromServiceCall (str "sync") = str "POST".
Proof. repeat split; vm_compute; reflexivity. Qed.

Example similar_names :
  CV.areComponentsSimilar (str "btn") (str "button") = true /\
  CV.areComponentsSimilar (str "uicardcomponent") (str "panel") = true /\
  CV.areComponentsSimilar (str "tooltip") (str "avatar") = false.
Proof. repeat split; vm_compute; reflexivity. Qed.

Example levenshtein_kitten_sitting :
  CV.levenshteinDistance (str "kitten") (str "sitting") = 3.
Proof. reflexivity. Qed.

Example delete_without_auth_is_sensitive :
  map (fun i => (type i, severity i, endpoint i))
      (ofType SENSITIVE_ENDPOINT_NO_AUTH
              (SV.validate defaultRules Sample.endpoints Sample.apiCalls)) =
    [(SENSITIVE_ENDPOINT_NO_AUTH, CRITICAL, Some (str "DELETE /api/orders/:id"));
     (SENSITIVE_ENDPOINT_NO_AUTH, CRITICAL, Some (str "POST /api/auth/login"))].
Proof. vm_compute. reflexivity. Qed.

Example matched_call_with_auth_header :
  map (fun i => (type i, endpoint i, line i))
      (ofType MISSING_AUTH_HEADER
              (SV.validate defaultRules Sample.endpoints Sample.apiCalls)) =
    [(MISSING_AUTH_HEADER, Some (str "POST /api/orders"), Some 13);
     (MISSING_AUTH_HEADER, Some (str "GET /api/orders"), Some 11)].
Proof. vm_compute. reflexivity. Qed.

Example fresh_entry_is_served_from_disk :
  let c := {| CM.cacheDir := str ".audit-cache"; CM.ttl := 3600; CM.maxAge := 86400;
              CM.memoryCache := [];
              CM.disk := [(str ".audit-cache/files/k2.json",
                           {| CM.mtime := 1000; CM.content := str "{}" |})];
              CM.stats := {| CM.hits := 0; CM.misses := 0; CM.writes := 0; CM.deletes := 0 |} |} in
  CM.hits (CM.stats (snd (CM.get Sample.parseEmptyObject 2000 (str "k2") (str "files") c))) = 1 /\
  CM.existsSync (str ".audit-cache/files/k2.json")
                (snd (CM.get Sample.parseEmptyObject 2000 (str "k2") (str "files") c)) = true.
Proof. split; vm_compute; reflexivity. Qed.

(** * Further properties of the extractors *)

Lemma arrayIncludes_In (l : list jsstring) (s : jsstring) :
  arrayIncludes l s = true <-> In s l.
Proof.
  unfold arrayIncludes. rewrite existsb_exists. split.
  - intros (x & Hx & E). apply eqb_eq in E. now subst.
  - intros H. exists s. split; [exact H | apply eqb_refl].
Qed.

Lemma extractEndpointFromCall_shape (n : node) (basePath file : jsstring) (e : B.endpoint) :
  B.extractEndpointFromCall n basePath file = Normal (Some e) ->
  extractedEndpoint e /\ B.basePath e = basePath /\ B.file e = file.
Proof.
  unfold B.extractEndpointFromCall.
  destruct n as [| | | | | | callee args loc | | |]; try discriminate.
  destruct callee as [| | | | | object property | | | |]; try discriminate.
  destruct (nameIn (nodeName object) B.routerObjects && nameIn (nodeName property) B.routeVerbs)
    eqn:Ev; [|discriminate].
  destruct (extractStringValue (nth_error args 0)) as [routePath|]; [|discriminate].
  destruct (isEmpty routePath) eqn:Ee; [discriminate|].
  destruct (B.extractMiddlewareAndController args) as [[mw ctl]|]; [|discriminate].
  intros [= <-]. unfold extractedEndpoint.
  cbn [B.method B.path B.originalPath B.basePath B.file B.params B.requiresAuth
       B.middleware B.queryParams B.expectedBody B.used].
  repeat split; try reflexivity.
  - apply andb_true_iff in Ev as [_ Ev].
    destruct (nodeName property) as [v|]; [|discriminate].
    cbn [nameIn] in Ev. apply arrayIncludes_In in Ev. cbn [interpolate].
    now apply in_map.
  - intros ->. discriminate.
Qed.

Lemma register_entries (P : jsstring -> B.endpoint -> Prop)
      (es : list B.endpoint) (m : JSMap.t B.endpoint) :
  (forall k e, In (k, e) m -> P k e) ->
  (forall e, In e es -> P (B.endpointKey e) e) ->
  forall k e, In (k, e) (register es m) -> P k e.
Proof.
  revert m. induction es as [|e0 es IH]; intros m Hm Hes; [exact Hm|].
  cbn [register fold_left]. apply IH; [|intros; apply Hes; now right].
  assert (H0 : P (B.endpointKey e0) e0) by (apply Hes; now left).
  clear IH Hes. induction m as [|[k1 e1] m IHm]; simpl.
  - intros k e [[= <- <-]|[]]. exact H0.
  - destruct (JS.eqb (B.endpointKey e0) k1); simpl.
    + intros k e [[= <- <-]|Hin]; [exact H0 | apply Hm; now right].
    + intros k e [[= <- <-]|Hin]; [apply Hm; now left|].
      apply IHm; [|exact Hin]. intros; apply Hm; now right.
Qed.

Lemma declared_shape (f : B.routeFile) (e : B.endpoint) :
  In e (declared f) -> extractedEndpoint e.
Proof.
  unfold declared. rewrite in_flat_map. intros (n & _ & Hn).
  destruct (B.extractEndpointFromCall n (B.detectedBasePath f) (B.relativePath f))
    as [[e'|]|] eqn:E; try contradiction.
  destruct Hn as [<-|[]]. now apply extractEndpointFromCall_shape in E.
Qed.

(** X1: in the endpoint map of a completed run every endpoint is stored
    under its own key, keys are unique, and every endpoint is as the
    extractor builds it: an upper-case route verb, a normalised path, the
    parameters of that path, no query parameters, no body schema, unused. *)
Theorem analyzeRoutes_invariant (files : list B.routeFile) (m : JSMap.t B.endpoint) :
  B.analyzeRoutes files [] = Normal m ->
  NoDup (JSMap.keys m) /\
  forall k e, In (k, e) m -> k = B.endpointKey e /\ extractedEndpoint e.
Proof.
  intros H. apply analyzeRoutes_register in H. subst m. split.
  - apply register_NoDup. constructor.
  - apply (register_entries (fun k e => k = B.endpointKey e /\ extractedEndpoint e)).
    + intros k e [].
    + intros e He. split; [reflexivity|].
      unfold observed in He. apply in_flat_map in He as (f & _ & He).
      now apply declared_shape in He.
Qed.

Lemma analyzeRoutes_invariant_witness :
  NoDup (JSMap.keys Sample.endpoints) /\
  forall k e, In (k, e) Sample.endpoints -> k = B.endpointKey e /\ extractedEndpoint e.
Proof.
  apply (analyzeRoutes_invariant [Sample.ordersFile] Sample.endpoints).
  vm_compute. reflexivity.
Defined.

Lemma normalizeAPICall_shape (call : F.apiCall) (file : jsstring) (line : nat)
      (site : F.callSite) :
  F.normalizeAPICall call file line = Some site ->
  extractedCallSite site /\ F.file site = file /\ F.line site = line.
Proof.
  unfold F.normalizeAPICall.
  destruct (F.readCall call) as [[[[method [raw|]] data] hasAuth]|] eqn:Er; try discriminate.
  destruct (isEmpty raw) eqn:Ee; [discriminate|].
  intros [= <-]. unfold extractedCallSite.
  cbn [F.endpoint F.params F.shape F.file F.line].
  destruct raw as [|c raw]; [discriminate|].
  destruct (cleanEndpoint_clean (c :: raw)) as (Hs & Hq & _); [discriminate|].
  repeat split; try assumption.
  intros Hreq. unfold F.readCall in Er. rewrite Hreq in Er. discriminate.
Qed.

Lemma In_set (V : Type) (key k : jsstring) (v w : V) (m : JSMap.t V) :
  In (k, w) (JSMap.set key v m) -> (k = key /\ w = v) \/ In (k, w) m.
Proof.
  induction m as [|[k1 v1] m IH]; simpl.
  - intros [[= <- <-]|[]]. auto.
  - destruct (JS.eqb key k1); simpl.
    + intros [[= <- <-]|H]; auto.
    + intros [H|H]; [auto|]. apply IH in H. tauto.
Qed.

Lemma addCall_callSiteMap (m : JSMap.t (list F.callSite)) (c : F.callSite) :
  extractedCallSite c -> callSiteMap m -> callSiteMap (F.addCall m c).
Proof.
  intros Hc (Hn & Hk & He & Hs). unfold callSiteMap. split; [|split; [|split]].
  - unfold F.addCall. destruct (JSMap.get (F.callKey c) m); now apply set_NoDup.
  - now apply addCall_wellKeyed.
  - unfold F.addCall. intros k calls Hin.
    destruct (JSMap.get (F.callKey c) m) as [old|];
      apply In_set in Hin as [[_ ->]|Hin]; try (now apply (He k)).
    + now destruct old.
    + discriminate.
  - intros site Hin. apply allCalls_addCall in Hin as [->|Hin]; [exact Hc | now apply Hs].
Qed.

(** X2: [extractAPICalls] keeps the call-site map of a run in shape: keys
    stay unique, every call site stays filed under its own key in a
    non-empty list, and every recorded call site has an endpoint that
    starts with a slash and holds no [?], the parameters of that endpoint,
    and a shape other than [request] (calls of the form [request(config)]
    are detected but never recorded). *)
Theorem extractAPICalls_invariant
        (calls : list node) (file : jsstring) (m : JSMap.t (list F.callSite)) :
  callSiteMap m -> callSiteMap (F.extractAPICalls calls file m).
Proof.
  unfold F.extractAPICalls.
  generalize (flat_map (fun n => match F.detectAPICall n with
                                 | Some call => [(call, F.lineOf n)]
                                 | None => []
                                 end) calls).
  intros detected. revert m.
  induction detected as [|[call line] detected IH]; intros m Hm; [exact Hm|].
  cbn [fold_left]. apply IH.
  destruct (F.normalizeAPICall call file line) as [c|] eqn:E; [|exact Hm].
  apply addCall_callSiteMap; [|exact Hm].
  now apply normalizeAPICall_shape in E.
Qed.

Lemma callSiteMap_empty : callSiteMap [].
Proof.
  unfold callSiteMap. split; [constructor|]. split; [reflexivity|].
  split; [intros ? ? [] | intros ? []].
Qed.

Lemma extractAPICalls_invariant_witness : callSiteMap Sample.apiCalls.
Proof.
  apply (extractAPICalls_invariant Sample.ordersService (str "src/services/orders.js") []).
  exact callSiteMap_empty.
Defined.

(** ** Matched pairs built by the extractors *)

Lemma colonParams_stop_ext (stop1 stop2 : ascii -> bool) (s : jsstring)
      (cur : option jsstring) :
  (forall c, In c s -> stop1 c = stop2 c) ->
  colonParams stop1 cur s = colonParams stop2 cur s.
Proof.
  revert cur. induction s as [|c s IH]; intros cur H; [reflexivity|].
  assert (Hs : forall c', In c' s -> stop1 c' = stop2 c') by (intros; apply H; now right).
  cbn [colonParams]. destruct cur as [acc|].
  - rewrite (H c (or_introl eq_refl)). now rewrite !IH.
  - destruct (Ascii.eqb c ":"); [|now apply IH].
    destruct s as [|d s']; [reflexivity|].
    rewrite (Hs d (or_introl eq_refl)). now rewrite !IH.
Qed.

Lemma extractURLParams_no_query (s : jsstring) :
  ~ In "?"%char s -> extractURLParams s = extractPathParams s.
Proof.
  intros H. unfold extractURLParams, extractPathParams.
  apply colonParams_stop_ext. intros c Hc.
  destruct (Ascii.eqb_spec c "?") as [->|N]; [contradiction|]. apply orb_false_r.
Qed.

Lemma split_at_first_space (a b c d : jsstring) :
  ~ In " "%char a -> ~ In " "%char c ->
  a ++ str " " ++ b = c ++ str " " ++ d -> a = c /\ b = d.
Proof.
  lit. revert c. induction a as [|x a IH]; intros [|y c] Ha Hc; cbn [app].
  - intros [= ->]. auto.
  - intros [= <- _]. exfalso. apply Hc. now left.
  - intros [= -> _]. exfalso. apply Ha. now left.
  - intros [= -> H]. apply IH in H as [-> ->]; [auto | |];
      intros I; [apply Ha | apply Hc]; now right.
Qed.

Lemma routeVerbs_no_space (m : jsstring) :
  In m (map toUpperCase B.routeVerbs) -> ~ In " "%char m.
Proof.
  vm_compute. intros H. repeat (destruct H as [<-|H]; [intuition discriminate|]). contradiction.
Qed.

Lemma flat_map_nil_in (A B : Type) (f : A -> list B) (l : list A) :
  (forall a, In a l -> f a = []) -> flat_map f l = [].
Proof.
  induction l as [|a l IH]; intros H; [reflexivity|].
  cbn [flat_map]. rewrite (H a (or_introl eq_refl)), IH; [reflexivity|].
  intros; apply H; now right.
Qed.

Lemma Object_keys_falsy (v : jsval) : truthy v = false -> Object_keys v = [].
Proof.
  destruct v as [| b | z | s | els | ps]; cbn; try congruence.
  destruct s; cbn; congruence.
Qed.

(** With an empty body schema [validateRequestBody] reports every own
    property of the data as extra, and nothing else. *)
Lemma validateRequestBody_no_schema (R : rules) (e : B.endpoint) (call : F.callSite) :
  B.expectedBody e = [] ->
  EV.validateRequestBody R e call =
  map (EV.extraBodyFieldIssue e call) (Object_keys (F.data call)).
Proof.
  intros He. unfold EV.validateRequestBody. rewrite He.
  destruct (truthy (F.data call)) eqn:Et; cbn [negb orb].
  - destruct (Object_keys (F.data call)) as [|k ks]; [reflexivity|].
    cbn [length Nat.eqb]. generalize (k :: ks). intros l. cbn [flat_map app].
    induction l as [|x l IH]; [reflexivity|].
    cbn [flat_map map]. rewrite IH. reflexivity.
  - now rewrite (Object_keys_falsy _ Et).
Qed.

(** X3: for an endpoint and a call site built by the extractors and filed
    under the same key, the checks of [validateEndpointUsage] report one
    EXTRA_BODY_FIELD per own property of the call site's data and nothing
    else: no URL-parameter, query-parameter or missing-body-field issue can
    arise, because both sides read their parameters off the same path and
    the route extractor leaves the body schema and the query parameters
    empty. *)
Theorem extracted_pair_usage
        (R : rules) (e : B.endpoint) (call : F.callSite) :
  extractedEndpoint e -> extractedCallSite call ->
  ~ In " "%char (F.method call) ->
  B.endpointKey e = F.callKey call ->
  EV.validateURLParams R e call = [] /\
  EV.validateQueryParams e call = [] /\
  EV.validateEndpointUsage R e call =
    map (EV.extraBodyFieldIssue e call) (Object_keys (F.data call)).
Proof.
  intros (Hm & _ & _ & Hp & _ & Hq & Hb & _) (_ & Hnq & Hcp & _) Hsp Hkey.
  unfold B.endpointKey, F.callKey in Hkey.
  apply split_at_first_space in Hkey as [_ Hpath];
    [| now apply routeVerbs_no_space | exact Hsp].
  assert (Hparams : F.params call = B.params e).
  { rewrite Hcp, Hp, Hpath. now apply extractURLParams_no_query. }
  assert (Hu : EV.validateURLParams R e call = []).
  { unfold EV.validateURLParams. rewrite Hparams.
    rewrite !flat_map_nil_in; [reflexivity | |];
      intros p Hin; apply arrayIncludes_In in Hin; now rewrite Hin. }
  assert (Hqp : EV.validateQueryParams e call = []).
  { unfold EV.validateQueryParams. now rewrite Hq. }
  split; [exact Hu|]. split; [exact Hqp|].
  unfold EV.validateEndpointUsage.
  now rewrite Hu, Hqp, app_nil_r, (validateRequestBody_no_schema R e call Hb).
Qed.

Lemma extracted_pair_usage_witness :
  In (str "POST /api/orders", Sample2.createOrder) Sample.endpoints /\
  In Sample2.cartCall (allCalls Sample.apiCalls) /\
  EV.validateEndpointUsage defaultRules Sample2.createOrder Sample2.cartCall =
    [EV.extraBodyFieldIssue Sample2.createOrder Sample2.cartCall (str "items")].
Proof.
  split; [vm_compute; left; reflexivity|].
  split; [vm_compute; left; reflexivity|].
  refine (proj2 (proj2 (extracted_pair_usage defaultRules Sample2.createOrder
                          Sample2.cartCall _ _ _ _))).
  - unfold extractedEndpoint. repeat split; try reflexivity.
    + vm_compute. right. left. reflexivity.
    + discriminate.
  - unfold extractedCallSite. repeat split; try reflexivity.
    + vm_compute. intuition discriminate.
    + discriminate.
  - vm_compute. intuition discriminate.
  - reflexivity.
Defined.

(** ** Methods inferred for service calls *)

Lemma lower_key_is_no_route_verb (key verb : jsstring) (a b : jsstring) :
  In key (JSMap.keys F.methodMapping) -> In verb (map toUpperCase B.routeVerbs) ->
  verb ++ str " " ++ a <> key ++ str " " ++ b.
Proof.
  intros Hk Hv. vm_compute in Hk, Hv.
  repeat (destruct Hk as [<-|Hk]; [|]); try contradiction;
    repeat (destruct Hv as [<-|Hv]; [|]); try contradiction;
    lit; cbn [app]; discriminate.
Qed.

(** X4: when the name of a service method is not itself a key of the verb
    table but contains one ([getUsers], [createOrder], ...),
    [inferMethodFromServiceCall] returns that key in lower case, not the
    verb it stands for; a key built from it equals the key of no endpoint
    built by the route extractor, whose methods are upper-case verbs. *)
Theorem prefix_inferred_method_never_matches
        (name path : jsstring) (e : B.endpoint) :
  JSMap.has (toLowerCase name) F.methodMapping = false ->
  existsb (fun key => includes (toLowerCase name) key) (JSMap.keys F.methodMapping) = true ->
  extractedEndpoint e ->
  In (F.inferMethodFromServiceCall name) (JSMap.keys F.methodMapping) /\
  B.endpointKey e <> F.inferMethodFromServiceCall name ++ str " " ++ path.
Proof.
  intros Hget Hex (Hm & _).
  assert (Hin : In (F.inferMethodFromServiceCall name) (JSMap.keys F.methodMapping)).
  { unfold F.inferMethodFromServiceCall, JSMap.has in *.
    destruct (JSMap.get (toLowerCase name) F.methodMapping); [discriminate|].
    destruct (find _ (JSMap.keys F.methodMapping)) as [key|] eqn:Ef.
    - now apply find_some in Ef.
    - exfalso. apply existsb_exists in Hex as (key & Hk & Hi).
      apply (find_none _ _ Ef) in Hk. congruence. }
  split; [exact Hin|].
  unfold B.endpointKey. now apply lower_key_is_no_route_verb.
Qed.

Lemma prefix_inferred_method_never_matches_witness :
  F.inferMethodFromServiceCall (str "getUsers") = str "get" /\
  B.endpointKey Sample2.createOrder <>
    F.inferMethodFromServiceCall (str "getUsers") ++ str " " ++ str "/userService/getUsers".
Proof.
  split; [vm_compute; reflexivity|].
  refine (proj2 (prefix_inferred_method_never_matches
                   (str "getUsers") (str "/userService/getUsers") Sample2.createOrder _ _ _)).
  - vm_compute. reflexivity.
  - vm_compute. reflexivity.
  - unfold extractedEndpoint. repeat split; try reflexivity.
    + vm_compute. right. left. reflexivity.
    + discriminate.
Defined.

(** ** Handlers of a route *)

Lemma classifyArguments_last_identifier (handlers : list node) (name : jsstring)
      (mw mw' : list jsstring) (c c' : option jsstring) :
  B.classifyArguments (handlers ++ [Identifier name]) mw c = Normal (mw', c') ->
  c' = Some name.
Proof.
  revert mw c. induction handlers as [|h rest IH]; intros mw c.
  - cbn. now intros [= _ <-].
  - cbn [app B.classifyArguments].
    assert (Hlast : match rest ++ [Identifier name] with [] => true | _ => false end = false)
      by now destruct rest.
    rewrite Hlast.
    destruct h as [v|v|v|q ex|hn|o p|callee a l|props|els|ty]; try apply IH.
    destruct (B.pushIdentifiers els mw) as [mw1|]; [apply IH | discriminate].
Qed.

(** X5: the last argument of a route registration, when it is an
    identifier, becomes the controller and is never counted as
    middleware.  A route with a single handler therefore has no middleware
    and does not require authentication, whatever the handler is called. *)
Theorem last_handler_is_controller
        (object property pathArg : node) (handlers : list node) (name : jsstring)
        (loc : option nat) (basePath file : jsstring) (e : B.endpoint) :
  B.extractEndpointFromCall
    (CallExpression (MemberExpression object property)
                    (pathArg :: handlers ++ [Identifier name]) loc)
    basePath file = Normal (Some e) ->
  B.controller e = Some name /\
  (handlers = [] -> B.middleware e = [] /\ B.requiresAuth e = false).
Proof.
  unfold B.extractEndpointFromCall.
  destruct (nameIn (nodeName object) B.routerObjects && nameIn (nodeName property) B.routeVerbs);
    [|discriminate].
  destruct (extractStringValue _) as [routePath|]; [|discriminate].
  destruct (isEmpty routePath); [discriminate|].
  unfold B.extractMiddlewareAndController. cbn [tl].
  destruct (B.classifyArguments (handlers ++ [Identifier name]) [] None)
    as [[mw ctl]|] eqn:Ec; [|discriminate].
  intros [= <-]. cbn [B.controller B.middleware B.requiresAuth]. split.
  - now apply classifyArguments_last_identifier in Ec.
  - intros ->. cbn in Ec. injection Ec as <- _. split; reflexivity.
Qed.

Lemma last_handler_is_controller_witness :
  exists e,
    B.extractEndpointFromCall
      (CallExpression (Sample.member "router" "delete")
         [StringLiteral (str "/users/:id"); Identifier (str "requireAuth")] (Some 9))
      (str "/api") (str "routes/users.js") = Normal (Some e) /\
    B.controller e = Some (str "requireAuth") /\
    B.middleware e = [] /\ B.requiresAuth e = false.
Proof.
  eexists. split; [vm_compute; reflexivity|].
  pose proof (last_handler_is_controller
                (Identifier (str "router")) (Identifier (str "delete"))
                (StringLiteral (str "/users/:id")) [] (str "requireAuth") (Some 9)
                (str "/api") (str "routes/users.js") _ eq_refl) as [H1 H2].
  split; [exact H1 | exact (H2 eq_refl)].
Defined.

(** * Further properties of the security validator *)

Section SecurityIssues.

Variable R : rules.

Lemma authenticationRequirements_types (E : JSMap.t B.endpoint) :
  Forall (fun i => type i = SENSITIVE_ENDPOINT_NO_AUTH)
         (SV.validateAuthenticationRequirements R E).
Proof. unfold SV.validateAuthenticationRequirements. issue_types. Qed.

Lemma frontendAuthentication_types (E : JSMap.t B.endpoint) (C : JSMap.t (list F.callSite)) :
  Forall (fun i => type i = MISSING_AUTH_HEADER) (SV.validateFrontendAuthentication R E C).
Proof.
  unfold SV.validateFrontendAuthentication. apply Forall_flat_map. intros [k cs] _.
  destruct (JSMap.get k E) as [e|]; [|constructor].
  destruct (B.requiresAuth e); issue_types.
Qed.

Lemma publicEndpoints_types (E : JSMap.t B.endpoint) :
  Forall (fun i => type i = PUBLIC_ENDPOINT_HAS_AUTH) (SV.validatePublicEndpoints R E).
Proof. unfold SV.validatePublicEndpoints. issue_types. Qed.

Lemma sensitiveMethods_types (E : JSMap.t B.endpoint) :
  Forall (fun i => type i = SENSITIVE_METHOD_NO_AUTH) (SV.validateSensitiveMethods R E).
Proof. unfold SV.validateSensitiveMethods. issue_types. Qed.

(** The four checks of [validate] report four different types. *)
Lemma validate_In (E : JSMap.t B.endpoint) (C : JSMap.t (list F.callSite)) (i : issue) :
  In i (SV.validate R E C) <->
  (type i = SENSITIVE_ENDPOINT_NO_AUTH /\ In i (SV.validateAuthenticationRequirements R E))
  \/ (type i = MISSING_AUTH_HEADER /\ In i (SV.validateFrontendAuthentication R E C))
  \/ (type i = PUBLIC_ENDPOINT_HAS_AUTH /\ In i (SV.validatePublicEndpoints R E))
  \/ (type i = SENSITIVE_METHOD_NO_AUTH /\ In i (SV.validateSensitiveMethods R E)).
Proof.
  unfold SV.validate. rewrite !in_app_iff.
  pose proof (authenticationRequirements_types E) as H1.
  pose proof (frontendAuthentication_types E C) as H2.
  pose proof (publicEndpoints_types E) as H3.
  pose proof (sensitiveMethods_types E) as H4.
  rewrite Forall_forall in H1, H2, H3, H4.
  split.
  - intros [H|[H|[H|H]]]; [left | right; left | right; right; left | right; right; right];
      (split; [auto | exact H]).
  - tauto.
Qed.

Lemma keyword_is_sensitive (key keyword : jsstring) :
  In keyword SV.sensitiveKeywords ->
  includes (toLowerCase key) keyword = true ->
  SV.isSensitiveEndpoint R key = true.
Proof.
  intros Hk Hi. unfold SV.isSensitiveEndpoint.
  destruct (existsb _ (orElse (requireAuthPatterns R) [])); [reflexivity|].
  apply existsb_exists. now exists keyword.
Qed.

Lemma sensitive_endpoint_reported (E : JSMap.t B.endpoint) (C : JSMap.t (list F.callSite))
      (key : jsstring) (e : B.endpoint) :
  In (key, e) E -> SV.isSensitiveEndpoint R key = true -> B.requiresAuth e = false ->
  In (SV.sensitiveEndpointNoAuthIssue R key e) (SV.validate R E C).
Proof.
  intros Hin Hs Ha. apply validate_In. left. split; [reflexivity|].
  unfold SV.validateAuthenticationRequirements. apply in_flat_map.
  exists (key, e). split; [exact Hin|]. rewrite Hs, Ha. now left.
Qed.

End SecurityIssues.

(** X6: the built-in list of sensitive keywords cannot be switched off.
    Whatever patterns the configuration lists (also none at all), an
    endpoint without authentication whose key contains one of the
    keywords, in any letter case, is reported as
    SENSITIVE_ENDPOINT_NO_AUTH. *)
Theorem builtin_keywords_cannot_be_disabled
        (R : rules) (E : JSMap.t B.endpoint) (C : JSMap.t (list F.callSite))
        (key keyword : jsstring) (e : B.endpoint) :
  In (key, e) E ->
  In keyword SV.sensitiveKeywords ->
  includes (toLowerCase key) keyword = true ->
  B.requiresAuth e = false ->
  In (SV.sensitiveEndpointNoAuthIssue R key e) (SV.validate R E C).
Proof.
  intros Hin Hk Hi Ha. apply sensitive_endpoint_reported; try assumption.
  now apply (keyword_is_sensitive R key keyword).
Qed.

Lemma builtin_keywords_cannot_be_disabled_witness :
  In (SV.sensitiveEndpointNoAuthIssue Sample2.noPatterns (str "POST /auth/login") Sample2.login)
     (SV.validate Sample2.noPatterns Sample.loginEndpoints []).
Proof.
  apply (builtin_keywords_cannot_be_disabled
           Sample2.noPatterns Sample.loginEndpoints [] (str "POST /auth/login")
           (str "login") Sample2.login).
  - vm_compute. left. reflexivity.
  - vm_compute. tauto.
  - vm_compute. reflexivity.
  - reflexivity.
Defined.

Lemma analyzed_entry (files : list B.routeFile) (E : JSMap.t B.endpoint)
      (key : jsstring) (e : B.endpoint) :
  B.analyzeRoutes files [] = Normal E -> In (key, e) E ->
  key = B.endpointKey e /\ extractedEndpoint e.
Proof.
  intros H. apply analyzeRoutes_register in H. subst E. revert key e.
  apply (register_entries (fun k e => k = B.endpointKey e /\ extractedEndpoint e)).
  - intros k e [].
  - intros e He. split; [reflexivity|].
    unfold observed in He. apply in_flat_map in He as (f & _ & He).
    now apply declared_shape in He.
Qed.

Lemma analyzed_NoDup (files : list B.routeFile) (E : JSMap.t B.endpoint) :
  B.analyzeRoutes files [] = Normal E -> NoDup (JSMap.keys E).
Proof.
  intros H. apply analyzeRoutes_register in H. subst E.
  apply register_NoDup. constructor.
Qed.

(** X7: the method is part of the key that is searched for keywords, and
    [delete] is one of them.  So under every configuration a DELETE route
    that the backend analysis records without authentication is reported
    as SENSITIVE_ENDPOINT_NO_AUTH whatever its path; and whenever DELETE
    is on the list of sensitive methods in force (the list of
    [rules.security.sensitiveMethods], or the default list when there is
    none) it is reported as SENSITIVE_METHOD_NO_AUTH too unless its key is
    exempt. *)
Theorem delete_route_without_auth_is_reported
        (R : rules) (files : list B.routeFile) (E : JSMap.t B.endpoint)
        (C : JSMap.t (list F.callSite)) (key : jsstring) (e : B.endpoint) :
  B.analyzeRoutes files [] = Normal E ->
  In (key, e) E ->
  B.method e = str "DELETE" ->
  B.requiresAuth e = false ->
  In (SV.sensitiveEndpointNoAuthIssue R key e) (SV.validate R E C) /\
  (In (str "DELETE")
      (match security R with
       | Some s => orElse (sensitiveMethods s) SV.defaultSensitiveMethods
       | None => SV.defaultSensitiveMethods
       end) ->
   SV.isExemptFromAuth key = false ->
   In (SV.sensitiveMethodNoAuthIssue key e) (SV.validate R E C)).
Proof.
  intros Hrun Hin Hm Ha.
  destruct (analyzed_entry files E key e Hrun Hin) as [Hkey _]. split.
  - apply sensitive_endpoint_reported; try assumption.
    apply (keyword_is_sensitive R key (str "delete")).
    + vm_compute. tauto.
    + subst key. unfold B.endpointKey. rewrite Hm. reflexivity.
  - intros Hlist Hex. apply validate_In. right; right; right. split; [reflexivity|].
    rewrite sensitive_method_issues. apply in_flat_map.
    exists (key, e). split; [exact Hin|].
    rewrite Hm, Ha, Hex. apply arrayIncludes_In in Hlist. rewrite Hlist.
    left. reflexivity.
Qed.

Lemma delete_route_without_auth_is_reported_witness :
  (In (SV.sensitiveEndpointNoAuthIssue defaultRules (str "DELETE /api/orders/:id")
                                       Sample2.removeOrder)
      (SV.validate defaultRules Sample.endpoints Sample.apiCalls) /\
   In (SV.sensitiveMethodNoAuthIssue (str "DELETE /api/orders/:id") Sample2.removeOrder)
      (SV.validate defaultRules Sample.endpoints Sample.apiCalls)) /\
  (In (SV.sensitiveEndpointNoAuthIssue Sample4.projectRules (str "DELETE /api/orders/:id")
                                       Sample2.removeOrder)
      (SV.validate Sample4.projectRules Sample.endpoints Sample.apiCalls) /\
   In (SV.sensitiveMethodNoAuthIssue (str "DELETE /api/orders/:id") Sample2.removeOrder)
      (SV.validate Sample4.projectRules Sample.endpoints Sample.apiCalls)).
Proof.
  split.
  - destruct (delete_route_without_auth_is_reported
                defaultRules [Sample.ordersFile] Sample.endpoints Sample.apiCalls
                (str "DELETE /api/orders/:id") Sample2.removeOrder) as [H1 H2].
    + vm_compute. reflexivity.
    + vm_compute. tauto.
    + reflexivity.
    + reflexivity.
    + split; [exact H1 | apply H2; [vm_compute; tauto | vm_compute; reflexivity]].
  - destruct (delete_route_without_auth_is_reported
                Sample4.projectRules [Sample.ordersFile] Sample.endpoints Sample.apiCalls
                (str "DELETE /api/orders/:id") Sample2.removeOrder) as [H1 H2].
    + vm_compute. reflexivity.
    + vm_compute. tauto.
    + reflexivity.
    + reflexivity.
    + split; [exact H1 | apply H2; [vm_compute; tauto | vm_compute; reflexivity]].
Defined.

(** X8: SENSITIVE_METHOD_NO_AUTH is only ever reported for an entry of the
    endpoint map that requires no authentication, whose method is on the
    list of sensitive methods in force and whose key is not exempt; the
    severity is HIGH and cannot be configured. *)
Theorem sensitive_method_issue_sound
        (R : rules) (E : JSMap.t B.endpoint) (C : JSMap.t (list F.callSite)) (i : issue) :
  In i (SV.validate R E C) ->
  type i = SENSITIVE_METHOD_NO_AUTH ->
  exists key e,
    In (key, e) E /\ i = SV.sensitiveMethodNoAuthIssue key e /\
    B.requiresAuth e = false /\
    SV.isExemptFromAuth key = false /\
    In (B.method e)
       (match security R with
        | Some s => orElse (sensitiveMethods s) SV.defaultSensitiveMethods
        | None => SV.defaultSensitiveMethods
        end) /\
    severity i = HIGH.
Proof.
  intros Hin Ht. apply validate_In in Hin.
  destruct Hin as [[H _]|[[H _]|[[H _]|[_ Hin]]]]; try congruence.
  rewrite sensitive_method_issues in Hin. apply in_flat_map in Hin as ([key e] & HE & Hi).
  destruct (arrayIncludes _ (B.method e)) eqn:Hm; [|contradiction].
  destruct (B.requiresAuth e) eqn:Ha; [contradiction|].
  destruct (SV.isExemptFromAuth key) eqn:Hx; [contradiction|].
  destruct Hi as [<-|[]]. exists key, e.
  apply arrayIncludes_In in Hm. repeat split; assumption.
Qed.

Lemma sensitive_method_issue_sound_witness :
  exists key e,
    In (key, e) Sample.endpoints /\
    SV.sensitiveMethodNoAuthIssue (str "DELETE /api/orders/:id") Sample2.removeOrder =
      SV.sensitiveMethodNoAuthIssue key e /\
    B.requiresAuth e = false /\
    SV.isExemptFromAuth key = false /\
    In (B.method e) SV.defaultSensitiveMethods /\
    severity (SV.sensitiveMethodNoAuthIssue (str "DELETE /api/orders/:id")
                                            Sample2.removeOrder) = HIGH.
Proof.
  apply (sensitive_method_issue_sound
           defaultRules Sample.endpoints Sample.apiCalls
           (SV.sensitiveMethodNoAuthIssue (str "DELETE /api/orders/:id") Sample2.removeOrder)).
  - vm_compute. tauto.
  - reflexivity.
Defined.

(** X9: MISSING_AUTH_HEADER is reported exactly for the call sites without
    an authentication header that are filed under a key whose endpoint
    requires authentication.  A call site whose key has no endpoint, or an
    endpoint without authentication, is never reported. *)
Theorem missing_auth_header_iff
        (R : rules) (E : JSMap.t B.endpoint) (C : JSMap.t (list F.callSite)) (i : issue) :
  In i (SV.validate R E C) /\ type i = MISSING_AUTH_HEADER <->
  exists key calls call e,
    In (key, calls) C /\ In call calls /\
    JSMap.get key E = Some e /\ B.requiresAuth e = true /\ F.hasAuth call = false /\
    i = SV.missingAuthHeaderIssue R key e call.
Proof.
  split.
  - intros [Hin Ht]. apply validate_In in Hin.
    destruct Hin as [[H _]|[[_ Hin]|[[H _]|[H _]]]]; try congruence.
    unfold SV.validateFrontendAuthentication in Hin.
    apply in_flat_map in Hin as ([key calls] & HC & Hi).
    destruct (JSMap.get key E) as [e|] eqn:G; [|contradiction].
    destruct (B.requiresAuth e) eqn:Ha; [|contradiction].
    apply in_flat_map in Hi as (call & Hcall & Hi).
    destruct (F.hasAuth call) eqn:Hh; [contradiction|].
    destruct Hi as [<-|[]]. exists key, calls, call, e. repeat split; assumption.
  - intros (key & calls & call & e & HC & Hcall & G & Ha & Hh & ->).
    split; [|reflexivity].
    apply validate_In. right; left. split; [reflexivity|].
    unfold SV.validateFrontendAuthentication. apply in_flat_map.
    exists (key, calls). split; [exact HC|]. rewrite G, Ha.
    apply in_flat_map. exists call. split; [exact Hcall|]. rewrite Hh. now left.
Qed.

(** * The used flags, and the validation phase as a whole *)

Lemma flat_map_map (A B C : Type) (g : A -> B) (f : B -> list C) (l : list A) :
  flat_map f (map g l) = flat_map (fun a => f (g a)) l.
Proof.
  induction l as [|a l IH]; [reflexivity|]. cbn [map flat_map]. now rewrite IH.
Qed.

Lemma get_markWhere (hit : jsstring -> bool) (k : jsstring) (E : JSMap.t B.endpoint) :
  JSMap.get k (markWhere hit E) =
  option_map (fun e => if hit k then B.markUsed e else e) (JSMap.get k E).
Proof.
  induction E as [|[k' e] E IH]; [reflexivity|].
  cbn [markWhere map JSMap.get]. fold (markWhere hit E).
  destruct (JS.eqb k k') eqn:Ek; [|exact IH].
  apply eqb_eq in Ek. now subst.
Qed.

Section UsedFlagsAndIssues.

Variable R : rules.

(** The security validator never reads [used]. *)
Lemma security_markWhere (hit : jsstring -> bool) (E : JSMap.t B.endpoint)
      (C : JSMap.t (list F.callSite)) :
  SV.validate R (markWhere hit E) C = SV.validate R E C.
Proof.
  unfold SV.validate. f_equal; [|f_equal; [|f_equal]].
  - unfold SV.validateAuthenticationRequirements, markWhere. rewrite flat_map_map.
    apply flat_map_ext. intros [k e]. now destruct (hit k).
  - unfold SV.validateFrontendAuthentication. apply flat_map_ext. intros [k calls].
    rewrite get_markWhere. destruct (JSMap.get k E) as [e|]; [|reflexivity].
    cbn [option_map]. now destruct (hit k).
  - unfold SV.validatePublicEndpoints, markWhere. rewrite flat_map_map.
    apply flat_map_ext. intros [k e]. now destruct (hit k).
  - unfold SV.validateSensitiveMethods, markWhere. rewrite flat_map_map.
    apply flat_map_ext. intros [k e]. now destruct (hit k).
Qed.

Lemma security_types (E : JSMap.t B.endpoint) (C : JSMap.t (list F.callSite)) :
  Forall (fun i => type i = SENSITIVE_ENDPOINT_NO_AUTH \/ type i = MISSING_AUTH_HEADER \/
                   type i = PUBLIC_ENDPOINT_HAS_AUTH \/ type i = SENSITIVE_METHOD_NO_AUTH)
         (SV.validate R E C).
Proof.
  apply Forall_forall. intros i Hi. apply validate_In in Hi. tauto.
Qed.

Lemma component_types (ds : option (JSMap.t CV.dsComponentInfo))
      (fe : option (JSMap.t CV.feComponentInfo)) :
  Forall (fun i => type i = DUPLICATE_COMPONENT \/ type i = UNUSED_DS_COMPONENT \/
                   type i = VERIFY_PROPS_USAGE)
         (CV.validate R ds fe).
Proof.
  unfold CV.validate. destruct ds as [ds|], fe as [fe|]; try constructor.
  unfold CV.validateComponentUsage. repeat (apply Forall_app; split).
  - eapply Forall_impl; [|apply detectIncorrectUsage_types]. simpl. tauto.
  - eapply Forall_impl; [|apply findUnusedComponents_types]. simpl. tauto.
  - eapply Forall_impl; [|apply detectIncorrectUsage_types]. simpl. tauto.
  - eapply Forall_impl; [|apply validatePropsConsistency_types]. simpl. tauto.
Qed.

Lemma validateCall_keys (key : jsstring) (E : JSMap.t B.endpoint) (call : F.callSite) :
  JSMap.keys (fst (EV.validateCall R key E call)) = JSMap.keys E.
Proof.
  unfold EV.validateCall. destruct (JSMap.get key E) as [e|] eqn:G; [|reflexivity].
  cbn [fst]. apply keys_set_present. unfold JSMap.has. now rewrite G.
Qed.

Lemma validateCalls_keys (key : jsstring) (calls : list F.callSite) (E : JSMap.t B.endpoint) :
  JSMap.keys (fst (EV.validateCalls R key E calls)) = JSMap.keys E.
Proof.
  revert E. induction calls as [|call rest IH]; intros E; [reflexivity|].
  cbn [EV.validateCalls].
  pose proof (validateCall_keys key E call) as H1.
  destruct (EV.validateCall R key E call) as [E1 i1].
  specialize (IH E1). destruct (EV.validateCalls R key E1 rest) as [E2 i2].
  cbn [fst] in *. congruence.
Qed.

Lemma reconcile_keys (C : JSMap.t (list F.callSite)) (E : JSMap.t B.endpoint) :
  JSMap.keys (fst (EV.reconcile R E C)) = JSMap.keys E.
Proof.
  revert E. induction C as [|[key calls] C IH]; intros E; [reflexivity|].
  cbn [EV.reconcile].
  pose proof (validateCalls_keys key calls E) as H1.
  destruct (EV.validateCalls R key E calls) as [E1 i1].
  specialize (IH E1). destruct (EV.reconcile R E1 C) as [E2 i2].
  cbn [fst] in *. congruence.
Qed.

Lemma validate_keys (C : JSMap.t (list F.callSite)) (E : JSMap.t B.endpoint) :
  JSMap.keys (fst (EV.validate R E C)) = JSMap.keys E.
Proof.
  unfold EV.validate. pose proof (reconcile_keys C E) as H.
  destruct (EV.reconcile R E C) as [E' issues]. exact H.
Qed.

Lemma validate_unused (C : JSMap.t (list F.callSite)) (E : JSMap.t B.endpoint) :
  ofType UNUSED_ENDPOINT (snd (EV.validate R E C)) =
  EV.findUnusedEndpoints R (fst (EV.validate R E C)).
Proof.
  unfold EV.validate. pose proof (reconcile_unused R C E) as H.
  destruct (EV.reconcile R E C) as [E' issues]. cbn [fst snd] in *.
  rewrite ofType_app, H, app_nil_l.
  apply (ofType_all _ _ (findUnusedEndpoints_types R E')).
Qed.

Lemma used_and_unused (E : JSMap.t B.endpoint) :
  AuditBot.usedEndpoints E + length (EV.findUnusedEndpoints R E) = AuditBot.totalEndpoints E.
Proof.
  unfold AuditBot.usedEndpoints, AuditBot.totalEndpoints, EV.findUnusedEndpoints, JSMap.values.
  induction E as [|[k e] E IH]; [reflexivity|].
  cbn [map filter flat_map snd]. rewrite length_app.
  destruct (B.used e); cbn [negb length app]; lia.
Qed.

End UsedFlagsAndIssues.

(** X10: for an endpoint map with unique keys in which no endpoint is
    marked yet, as the backend analysis delivers it, UNUSED_ENDPOINT is
    reported, in the order of the map, exactly for the endpoints under
    whose key no call site is filed. *)
Theorem unused_endpoint_iff_not_called
        (R : rules) (E : JSMap.t B.endpoint) (C : JSMap.t (list F.callSite)) :
  NoDup (JSMap.keys E) ->
  (forall k e, In (k, e) E -> B.used e = false) ->
  ofType UNUSED_ENDPOINT (snd (EV.validate R E C)) =
  flat_map (fun '(k, e) => if called k C then [] else [EV.unusedEndpointIssue R k e]) E.
Proof.
  intros Hn Hu. rewrite validate_unused, (validate_marks R C E Hn).
  unfold EV.findUnusedEndpoints, markWhere. rewrite flat_map_map.
  induction E as [|[k e] E IH]; [reflexivity|].
  cbn [flat_map]. rewrite IH.
  - f_equal. destruct (called k C); [reflexivity|].
    now rewrite (Hu k e (or_introl eq_refl)).
  - now inversion Hn.
  - intros k' e' H. apply (Hu k' e'). now right.
Qed.

Lemma unused_endpoint_iff_not_called_witness :
  ofType UNUSED_ENDPOINT (snd (EV.validate defaultRules Sample.endpoints Sample.apiCalls)) =
  flat_map (fun '(k, e) =>
              if called k Sample.apiCalls then []
              else [EV.unusedEndpointIssue defaultRules k e])
           Sample.endpoints.
Proof.
  apply (unused_endpoint_iff_not_called defaultRules Sample.endpoints Sample.apiCalls).
  - apply (analyzed_NoDup [Sample.ordersFile]). vm_compute. reflexivity.
  - intros k e H.
    apply (analyzed_entry [Sample.ordersFile] Sample.endpoints k e) in H;
      [|vm_compute; reflexivity].
    apply H.
Defined.

(** X11: the validation phase hands the security validator the endpoint
    map that the endpoint validator has just marked, but the marks make no
    difference to it: the issues pushed are those of the endpoint
    validator, then those of the security validator on the endpoints as
    analysed, then those of the component validator. *)
Theorem performValidations_issues
        (R : rules) (E : JSMap.t B.endpoint) (fe : AuditBot.frontendResults)
        (ds : JSMap.t CV.dsComponentInfo) :
  NoDup (JSMap.keys E) ->
  snd (AuditBot.performValidations R
         {| AuditBot.backend := Some E; AuditBot.frontend := Some fe;
            AuditBot.designSystem := Some ds |}) =
  snd (EV.validate R E (AuditBot.apiCalls fe))
  ++ SV.validate R E (AuditBot.apiCalls fe)
  ++ CV.validate R (Some ds) (Some (AuditBot.components fe)).
Proof.
  intros Hn. unfold AuditBot.performValidations.
  cbn [AuditBot.backend AuditBot.frontend AuditBot.designSystem].
  pose proof (validate_marks R (AuditBot.apiCalls fe) E Hn) as Hm.
  destruct (EV.validate R E (AuditBot.apiCalls fe)) as [E' found]. cbn [fst snd] in *.
  subst E'. now rewrite security_markWhere.
Qed.

Lemma performValidations_issues_witness :
  snd (AuditBot.performValidations defaultRules Sample3.analysed) =
  snd (EV.validate defaultRules Sample.endpoints Sample.apiCalls)
  ++ SV.validate defaultRules Sample.endpoints Sample.apiCalls
  ++ CV.validate defaultRules (Some Sample.designSystem) (Some Sample.frontendComponents).
Proof.
  apply (performValidations_issues
           defaultRules Sample.endpoints
           {| AuditBot.apiCalls := Sample.apiCalls;
              AuditBot.components := Sample.frontendComponents |}
           Sample.designSystem).
  apply (analyzed_NoDup [Sample.ordersFile]). vm_compute. reflexivity.
Defined.

(** X12: after the validation phase the figures of the coverage add up:
    the number of endpoints is what the analysis found, and every endpoint
    is either counted as used or reported once as UNUSED_ENDPOINT. *)
Theorem coverage_accounts_for_every_endpoint
        (R : rules) (res : AuditBot.results) (E : JSMap.t B.endpoint)
        (fe : AuditBot.frontendResults) :
  AuditBot.backend res = Some E ->
  AuditBot.frontend res = Some fe ->
  exists E',
    AuditBot.backend (fst (AuditBot.performValidations R res)) = Some E' /\
    AuditBot.totalEndpoints E' = AuditBot.totalEndpoints E /\
    AuditBot.usedEndpoints E'
    + length (ofType UNUSED_ENDPOINT (snd (AuditBot.performValidations R res)))
    = AuditBot.totalEndpoints E'.
Proof.
  intros Hb Hf. unfold AuditBot.performValidations. rewrite Hb, Hf.
  pose proof (validate_keys R (AuditBot.apiCalls fe) E) as Hk.
  pose proof (validate_unused R (AuditBot.apiCalls fe) E) as Hu.
  destruct (EV.validate R E (AuditBot.apiCalls fe)) as [E' found]. cbn [fst snd] in *.
  set (componentStep := match AuditBot.designSystem res with
                        | Some ds => _
                        | None => _
                        end).
  destruct componentStep as [ds' componentIssues] eqn:Ec.
  cbn [fst snd AuditBot.backend]. exists E'. split; [reflexivity|]. split.
  - unfold AuditBot.totalEndpoints.
    rewrite <- (length_map fst E'), <- (length_map fst E).
    unfold JSMap.keys in Hk. now rewrite Hk.
  - rewrite !ofType_app, Hu.
    rewrite (ofType_none UNUSED_ENDPOINT (SV.validate R E' (AuditBot.apiCalls fe))).
    2:{ eapply Forall_impl; [|apply security_types]. simpl. intros i H.
        intuition congruence. }
    rewrite (ofType_none UNUSED_ENDPOINT componentIssues).
    2:{ subst componentStep. destruct (AuditBot.designSystem res) as [ds|].
        - injection Ec as _ <-.
          eapply Forall_impl;
            [|exact (component_types R (Some ds) (Some (AuditBot.components fe)))].
          simpl. intros i H.
          intuition congruence.
        - injection Ec as _ <-. constructor. }
    rewrite !app_nil_r. apply used_and_unused.
Qed.

Lemma coverage_accounts_for_every_endpoint_witness :
  exists E',
    AuditBot.backend (fst (AuditBot.performValidations defaultRules Sample3.analysed))
      = Some E' /\
    AuditBot.totalEndpoints E' = AuditBot.totalEndpoints Sample.endpoints /\
    AuditBot.usedEndpoints E'
    + length (ofType UNUSED_ENDPOINT
                     (snd (AuditBot.performValidations defaultRules Sample3.analysed)))
    = AuditBot.totalEndpoints E'.
Proof.
  apply (coverage_accounts_for_every_endpoint
           defaultRules Sample3.analysed Sample.endpoints
           {| AuditBot.apiCalls := Sample.apiCalls;
              AuditBot.components := Sample.frontendComponents |});
    reflexivity.
Defined.

(** * Further properties of the component validator *)

(** X13: [validate] runs the search for duplicates twice, once inside
    [validateComponentUsage] and once on its own, so every
    DUPLICATE_COMPONENT issue is returned two times. *)
Theorem duplicates_are_reported_twice
        (R : rules) (ds : JSMap.t CV.dsComponentInfo) (fe : JSMap.t CV.feComponentInfo) :
  ofType DUPLICATE_COMPONENT (CV.validate R (Some ds) (Some fe)) =
  CV.detectIncorrectUsage (CV.markUsage ds fe) fe
  ++ CV.detectIncorrectUsage (CV.markUsage ds fe) fe.
Proof.
  unfold CV.validate, CV.validateComponentUsage.
  set (ds' := CV.markUsage ds fe).
  rewrite !ofType_app.
  rewrite (ofType_all _ _ (detectIncorrectUsage_types ds' fe)).
  rewrite (ofType_none DUPLICATE_COMPONENT (CV.findUnusedComponents R ds')).
  2:{ eapply Forall_impl; [|apply findUnusedComponents_types]. simpl. congruence. }
  rewrite (ofType_none DUPLICATE_COMPONENT (CV.validatePropsConsistency ds')).
  2:{ eapply Forall_impl; [|apply validatePropsConsistency_types]. simpl. congruence. }
  now rewrite app_nil_l, app_nil_r.
Qed.

Section Marking.

Lemma set_In_other (V : Type) (k n : jsstring) (v w : V) (m : JSMap.t V) :
  k <> n -> In (k, w) m -> In (k, w) (JSMap.set n v m).
Proof.
  intros Hk. induction m as [|[k1 v1] m IH]; [intros []|].
  cbn [JSMap.set]. destruct (JS.eqb n k1) eqn:E.
  - apply eqb_eq in E. subst k1. intros [[= -> _]|H]; [congruence | now right].
  - intros [H|H]; [now left | right; now apply IH].
Qed.

Lemma markName_other (usageFile k : jsstring) (c : CV.dsComponentInfo)
      (ds : JSMap.t CV.dsComponentInfo) (n : jsstring) :
  k <> n -> In (k, c) ds -> In (k, c) (CV.markName usageFile ds (Some n)).
Proof.
  intros Hk Hin. unfold CV.markName.
  destruct (JSMap.get n ds); [now apply set_In_other | exact Hin].
Qed.

Lemma markImport_simulated (usageFile : jsstring) (ds : JSMap.t CV.dsComponentInfo) :
  CV.markImport usageFile ds CV.simulatedImport =
  CV.markName usageFile (CV.markName usageFile ds (Some (str "Button"))) (Some (str "Input")).
Proof. reflexivity. Qed.

Lemma imports_are_simulated (fe : JSMap.t CV.feComponentInfo) :
  Forall (fun entry => Forall (fun imp => imp = CV.simulatedImport) (snd entry))
         (CV.extractImportsFromFrontend fe).
Proof.
  unfold CV.extractImportsFromFrontend.
  assert (H : Forall (fun entry : jsstring * list CV.importInfo =>
                        Forall (fun imp => imp = CV.simulatedImport) (snd entry)) [])
    by constructor.
  revert H. generalize (@nil (jsstring * list CV.importInfo)).
  induction fe as [|[k component] fe IH]; intros imports H; [exact H|].
  cbn [fold_left]. apply IH.
  assert (Hold : Forall (fun imp => imp = CV.simulatedImport)
                        (match JSMap.get (CV.feFile component) imports with
                         | Some l => l
                         | None => []
                         end)).
  { destruct (JSMap.get (CV.feFile component) imports) as [l|] eqn:G; [|constructor].
    apply get_In in G. rewrite Forall_forall in H. exact (H _ G). }
  set (new := _ ++ [CV.simulatedImport]).
  assert (Hnew : Forall (fun imp => imp = CV.simulatedImport) new).
  { apply Forall_app. split; [exact Hold | repeat constructor]. }
  clearbody new. clear Hold.
  induction imports as [|[f l] imports IHi]; cbn [JSMap.set].
  - repeat constructor. exact Hnew.
  - inversion H as [|? ? Hl Hrest]; subst.
    destruct (JS.eqb (CV.feFile component) f).
    + constructor; [exact Hnew | exact Hrest].
    + constructor; [exact Hl | now apply IHi].
Qed.

(** The marking pass can only ever reach the components [Button] and
    [Input]: every other entry of the design system comes out as it went
    in. *)
Lemma markUsage_other (k : jsstring) (c : CV.dsComponentInfo)
      (ds : JSMap.t CV.dsComponentInfo) (fe : JSMap.t CV.feComponentInfo) :
  k <> str "Button" -> k <> str "Input" ->
  In (k, c) ds -> In (k, c) (CV.markUsage ds fe).
Proof.
  intros Hb Hi. unfold CV.markUsage.
  pose proof (imports_are_simulated fe) as H.
  revert ds. induction (CV.extractImportsFromFrontend fe) as [|[f imports] rest IH];
    intros ds Hin; [exact Hin|].
  inversion H as [|? ? Himports Hrest]; subst. cbn [fold_left]. apply (IH Hrest).
  cbn [snd] in Himports. clear IH H Hrest. revert ds Hin.
  induction imports as [|imp imports IHi]; intros ds Hin; [exact Hin|].
  inversion Himports as [|? ? -> Hmore]; subst. cbn [fold_left]. apply (IHi Hmore).
  rewrite markImport_simulated. now repeat apply markName_other.
Qed.

End Marking.

(** X14: the imports of the frontend are not read; every frontend
    component is taken to import [Button] and [Input] from the design
    system.  So a design-system component under any other name that is
    not marked beforehand is reported as UNUSED_DS_COMPONENT, whatever the
    frontend contains. *)
Theorem only_button_and_input_are_ever_used
        (R : rules) (ds : JSMap.t CV.dsComponentInfo) (fe : JSMap.t CV.feComponentInfo)
        (k : jsstring) (c : CV.dsComponentInfo) :
  In (k, c) ds ->
  CV.used c = false ->
  k <> str "Button" -> k <> str "Input" ->
  In (CV.unusedComponentIssue R k c) (CV.validate R (Some ds) (Some fe)).
Proof.
  intros Hin Hu Hb Hi. unfold CV.validate, CV.validateComponentUsage.
  apply in_or_app. right. apply in_or_app. left.
  unfold CV.findUnusedComponents. apply in_flat_map.
  exists (k, c). split; [now apply markUsage_other|]. rewrite Hu. now left.
Qed.

Lemma only_button_and_input_are_ever_used_witness :
  In (CV.unusedComponentIssue defaultRules (str "Card") Sample.card)
     (CV.validate defaultRules (Some Sample.designSystem) (Some Sample.frontendComponents)).
Proof.
  apply (only_button_and_input_are_ever_used
           defaultRules Sample.designSystem Sample.frontendComponents (str "Card") Sample.card).
  - vm_compute. tauto.
  - reflexivity.
  - discriminate.
  - discriminate.
Defined.

Lemma includes_nil (s : jsstring) : includes s [] = true.
Proof. now destruct s. Qed.

(** X15: a name that [normalize] reduces to nothing (such as [Component]
    or [ui]) counts as similar to every other name, on either side. *)
Theorem empty_normalised_name_is_similar_to_all (name1 name2 : jsstring) :
  CV.normalizeName name1 = [] ->
  CV.areComponentsSimilar name1 name2 = true /\
  CV.areComponentsSimilar name2 name1 = true.
Proof.
  intros H. unfold CV.areComponentsSimilar. rewrite H. split.
  - destruct (JS.eqb [] _); [reflexivity|].
    now rewrite includes_nil, orb_true_r.
  - destruct (JS.eqb _ []); [reflexivity|].
    now rewrite includes_nil.
Qed.

Lemma empty_normalised_name_is_similar_to_all_witness :
  CV.areComponentsSimilar (str "UIComponent") (str "DatePicker") = true /\
  CV.areComponentsSimilar (str "DatePicker") (str "UIComponent") = true.
Proof.
  apply (empty_normalised_name_is_similar_to_all (str "UIComponent") (str "DatePicker")).
  vm_compute. reflexivity.
Defined.

Section Levenshtein.

Lemma fillRows_empty_row (i : nat) (str2 : jsstring) :
  CV.fillRows [] [i] (S i) str2 = [i + length str2].
Proof.
  revert i. induction str2 as [|c str2 IH]; intros i.
  - cbn. now rewrite Nat.add_0_r.
  - cbn [CV.fillRows CV.nextRow CV.rowCells length]. rewrite IH. f_equal. lia.
Qed.

Lemma last_seq (n : nat) : last (seq 0 (S n)) 0 = n.
Proof.
  rewrite seq_S. cbn [Nat.add]. apply last_last.
Qed.

End Levenshtein.

(** X16: the distance between a string and the empty string is the length
    of the string, on either side. *)
Theorem levenshteinDistance_empty (s : jsstring) :
  CV.levenshteinDistance s [] = length s /\ CV.levenshteinDistance [] s = length s.
Proof.
  unfold CV.levenshteinDistance. split.
  - cbn [CV.fillRows]. apply last_seq.
  - cbn [length seq]. now rewrite fillRows_empty_row.
Qed.

Section LevenshteinBound.

Lemma rowCells_bound (i : nat) (c2 : ascii) (str1 : jsstring) :
  1 <= i ->
  forall (above : list nat) (diagonal left j : nat),
    1 <= j ->
    diagonal <= Nat.max (i - 1) (j - 1) ->
    (forall n x, nth_error above n = Some x -> x <= Nat.max (i - 1) (j + n)) ->
    forall n x, nth_error (CV.rowCells c2 str1 diagonal above left) n = Some x ->
                x <= Nat.max i (j + n).
Proof.
  intros Hi. induction str1 as [|c1 str1 IH]; intros above diagonal left j Hj Hd Ha n x.
  - cbn. destruct n; discriminate.
  - destruct above as [|up above]; [cbn; destruct n; discriminate|].
    cbn [CV.rowCells]. destruct n as [|n]; cbn [nth_error].
    + intros [= <-]. destruct (Ascii.eqb c2 c1); lia.
    + intros Hx. replace (j + S n) with (S j + n) by lia.
      apply (IH above up _ (S j)) in Hx; [exact Hx | lia | |].
      * specialize (Ha 0 up eq_refl). replace (S j - 1) with (j + 0) by lia. exact Ha.
      * intros m y Hy. specialize (Ha (S m) y Hy).
        replace (S j + m) with (j + S m) by lia. exact Ha.
Qed.

Lemma nextRow_bound (i : nat) (c2 : ascii) (str1 : jsstring) (previous : list nat) :
  1 <= i ->
  (forall n x, nth_error previous n = Some x -> x <= Nat.max (i - 1) n) ->
  forall n x, nth_error (CV.nextRow str1 previous i c2) n = Some x -> x <= Nat.max i n.
Proof.
  intros Hi Hp n x. unfold CV.nextRow. destruct previous as [|first above].
  - destruct n as [|[|n]]; cbn; try discriminate. intros [= <-]. lia.
  - destruct n as [|n]; cbn [nth_error]; [intros [= <-]; lia|].
    intros Hx. apply (rowCells_bound i c2 str1 Hi above first i 1) in Hx.
    + exact Hx.
    + lia.
    + specialize (Hp 0 first eq_refl). lia.
    + intros m y Hy. exact (Hp (S m) y Hy).
Qed.

Lemma rowCells_length (c2 : ascii) (str1 : jsstring) (above : list nat) (diagonal left : nat) :
  length (CV.rowCells c2 str1 diagonal above left) <= length str1.
Proof.
  revert above diagonal left. induction str1 as [|c1 str1 IH]; intros above diagonal left.
  - cbn. lia.
  - destruct above as [|up above]; cbn [CV.rowCells length]; [lia|].
    specialize (IH above up
                   (if Ascii.eqb c2 c1 then diagonal
                    else Nat.min (diagonal + 1) (Nat.min (left + 1) (up + 1)))).
    lia.
Qed.

Lemma fillRows_bound (str1 str2 : jsstring) :
  forall (previous : list nat) (i : nat),
    1 <= i ->
    length previous <= S (length str1) ->
    (forall n x, nth_error previous n = Some x -> x <= Nat.max (i - 1) n) ->
    length (CV.fillRows str1 previous i str2) <= S (length str1) /\
    forall n x, nth_error (CV.fillRows str1 previous i str2) n = Some x ->
                x <= Nat.max (i - 1 + length str2) n.
Proof.
  induction str2 as [|c2 str2 IH]; intros previous i Hi Hlen Hp.
  - cbn [CV.fillRows length]. split; [exact Hlen|].
    intros n x Hx. specialize (Hp n x Hx). lia.
  - cbn [CV.fillRows length].
    destruct (IH (CV.nextRow str1 previous i c2) (S i)) as [H1 H2].
    + lia.
    + unfold CV.nextRow. destruct previous as [|first above]; cbn [length]; [lia|].
      pose proof (rowCells_length c2 str1 above first i). lia.
    + replace (S i - 1) with i by lia. now apply nextRow_bound.
    + split; [exact H1|]. intros n x Hx. specialize (H2 n x Hx). lia.
Qed.

Lemma nth_error_last (l : list nat) :
  l <> [] -> nth_error l (length l - 1) = Some (last l 0).
Proof.
  induction l as [|a l IH]; [congruence|]. intros _.
  destruct l as [|b l]; [reflexivity|].
  cbn [length] in *. replace (S (S (length l)) - 1) with (S (S (length l) - 1)) by lia.
  cbn [nth_error]. rewrite IH by discriminate. reflexivity.
Qed.

Lemma nth_error_seq0 (m n x : nat) : nth_error (seq 0 m) n = Some x -> x = n.
Proof.
  intros H. assert (Hn : n < m).
  { pose proof (proj1 (nth_error_Some (seq 0 m) n)) as Hs.
    rewrite length_seq in Hs. apply Hs. congruence. }
  rewrite nth_error_nth' with (d := 0) in H by now rewrite length_seq.
  rewrite seq_nth in H by exact Hn. now injection H as <-.
Qed.

Lemma levenshteinDistance_bound (str1 str2 : jsstring) :
  CV.levenshteinDistance str1 str2 <= Nat.max (length str2) (length str1).
Proof.
  unfold CV.levenshteinDistance.
  destruct (fillRows_bound str1 str2 (seq 0 (S (length str1))) 1) as [Hlen Hb].
  - lia.
  - rewrite length_seq. lia.
  - intros n x Hx. apply nth_error_seq0 in Hx. lia.
  - generalize dependent (CV.fillRows str1 (seq 0 (S (length str1))) 1 str2).
    intros final Hlen Hb. destruct final as [|a rest] eqn:Er; [cbn; lia|].
    rewrite <- Er in *.
    assert (Hne : final <> []) by (rewrite Er; discriminate).
    specialize (Hb _ _ (nth_error_last final Hne)). cbn [Nat.sub] in Hb. lia.
Qed.

End LevenshteinBound.

(** X25: the similarity of two names is a fraction between zero and one:
    the edit distance never exceeds the length of the longer name. *)
Theorem similarity_is_between_0_and_1 (str1 str2 : jsstring) :
  (0 <= fst (CV.calculateSimilarity str1 str2) <= snd (CV.calculateSimilarity str1 str2))%Z /\
  (0 < snd (CV.calculateSimilarity str1 str2))%Z /\
  CV.levenshteinDistance str1 str2 <= Nat.max (length str1) (length str2).
Proof.
  split; [|split].
  - unfold CV.calculateSimilarity.
    destruct (length str2 <? length str1) eqn:E.
    + apply Nat.ltb_lt in E.
      destruct (Nat.eqb (length str1) 0); cbn [fst snd]; [lia|].
      pose proof (levenshteinDistance_bound str1 str2). lia.
    + apply Nat.ltb_ge in E.
      destruct (Nat.eqb (length str2) 0); cbn [fst snd]; [lia|].
      pose proof (levenshteinDistance_bound str2 str1). lia.
  - unfold CV.calculateSimilarity.
    destruct (length str2 <? length str1).
    + destruct (Nat.eqb (length str1) 0) eqn:E0; cbn [fst snd]; [lia|].
      apply Nat.eqb_neq in E0. lia.
    + destruct (Nat.eqb (length str2) 0) eqn:E0; cbn [fst snd]; [lia|].
      apply Nat.eqb_neq in E0. lia.
  - pose proof (levenshteinDistance_bound str1 str2). lia.
Qed.

(** * Writing to the cache and reading back *)

Section CacheRoundTrip.

Variable JSON_parse : jsstring -> option jsval.
Variable JSON_stringify : jsval -> jsstring.
Variable writable : jsstring -> bool.

Lemma set_memory (now : Z) (key : jsstring) (data : jsval) (category : jsstring)
      (customTTL : option Z) (c : CM.cache) :
  CM.memoryCache (CW.set JSON_stringify writable now key data category customTTL c) =
  JSMap.set (category ++ str ":" ++ key)
            {| CM.value := Some data;
               CM.expiresAt := now + Z.min (CW.effectiveTTL c customTTL) 300 * 1000 |}
            (CM.memoryCache c).
Proof.
  unfold CW.set. now destruct (writable (CM.cachePath c category key)).
Qed.

Lemma set_constants (now : Z) (key : jsstring) (data : jsval) (category : jsstring)
      (customTTL : option Z) (c : CM.cache) :
  CM.cacheDir (CW.set JSON_stringify writable now key data category customTTL c) = CM.cacheDir c
  /\ CM.maxAge (CW.set JSON_stringify writable now key data category customTTL c) = CM.maxAge c.
Proof.
  unfold CW.set. now destruct (writable (CM.cachePath c category key)).
Qed.

Lemma set_cachePath (now : Z) (key : jsstring) (data : jsval) (category : jsstring)
      (customTTL : option Z) (c : CM.cache) (category' key' : jsstring) :
  CM.cachePath (CW.set JSON_stringify writable now key data category customTTL c)
               category' key' = CM.cachePath c category' key'.
Proof.
  unfold CM.cachePath. now rewrite (proj1 (set_constants now key data category customTTL c)).
Qed.

Lemma set_disk (now : Z) (key : jsstring) (data : jsval) (category : jsstring)
      (customTTL : option Z) (c : CM.cache) :
  writable (CM.cachePath c category key) = true ->
  CM.disk (CW.set JSON_stringify writable now key data category customTTL c) =
  JSMap.set (CM.cachePath c category key)
            {| CM.mtime := now;
               CM.content :=
                 JSON_stringify
                   (CW.cachedRecord now key data (CW.effectiveTTL c customTTL)) |}
            (CM.disk c).
Proof.
  intros Hw. unfold CW.set. now rewrite Hw.
Qed.

Lemma memoryGet_set (now now' : Z) (key : jsstring) (data : jsval) (category : jsstring)
      (customTTL : option Z) (c : CM.cache) :
  CM.memoryGet now' (category ++ str ":" ++ key)
               (CW.set JSON_stringify writable now key data category customTTL c) =
  if (now + Z.min (CW.effectiveTTL c customTTL) 300 * 1000 <? now')%Z
  then None else Some data.
Proof.
  unfold CM.memoryGet. now rewrite set_memory, get_set_same.
Qed.

Lemma readEntry_record (now now' : Z) (key : jsstring) (data : jsval) (seconds maxAge : Z) :
  JSON_parse (JSON_stringify (CW.cachedRecord now key data seconds)) =
    Some (CW.cachedRecord now key data seconds) ->
  CM.readEntry JSON_parse now' maxAge
               {| CM.mtime := now;
                  CM.content := JSON_stringify (CW.cachedRecord now key data seconds) |} =
  if (maxAge * 1000 <? now' - now)%Z then CM.TooOld
  else if negb (now + seconds * 1000 =? 0)%Z && (now + seconds * 1000 <? now')%Z
       then CM.Expired
       else CM.Valid (Some data).
Proof.
  intros Hparse. unfold CM.readEntry. cbn [CM.mtime CM.content]. rewrite Hparse.
  reflexivity.
Qed.

End CacheRoundTrip.

(** X17: what [set] stores is served from memory until the shorter of the
    time to live and five minutes has passed, whether or not the file
    could be written: [get] returns the data and counts a hit.  The data
    has to be truthy; a falsy value is never served from memory. *)
Theorem set_then_get_from_memory
        (JSON_parse : jsstring -> option jsval) (JSON_stringify : jsval -> jsstring)
        (writable : jsstring -> bool)
        (now now' : Z) (key : jsstring) (data : jsval) (category : jsstring)
        (customTTL : option Z) (c : CM.cache) :
  truthy data = true ->
  (now' <= now + Z.min (CW.effectiveTTL c customTTL) 300 * 1000)%Z ->
  CM.get JSON_parse now' key category
         (CW.set JSON_stringify writable now key data category customTTL c) =
  (Some data,
   CM.countHit (CW.set JSON_stringify writable now key data category customTTL c)).
Proof.
  intros Ht Hnow. unfold CM.get. rewrite memoryGet_set.
  replace (_ <? now')%Z with false by (symmetry; apply Z.ltb_ge; lia).
  cbn [CM.truthyValue]. now rewrite Ht.
Qed.

Lemma set_then_get_from_memory_witness :
  CM.get Sample3.parseRecord 250000 (str "k7") (str "files") Sample3.storedCache =
  (Some Sample3.analysis, CM.countHit Sample3.storedCache).
Proof.
  apply (set_then_get_from_memory
           Sample3.parseRecord Sample3.printRecord Sample3.everyPath
           1000 250000 (str "k7") Sample3.analysis (str "files") None Sample3.emptyCache).
  - reflexivity.
  - vm_compute. discriminate.
Defined.

(** X18: once the entry in memory has lapsed, [get] reads the file that
    [set] wrote.  While the time to live and the maximal age have not
    passed it returns the data, counts a hit, and puts the data back in
    memory for five minutes. *)
Theorem set_then_get_from_disk
        (JSON_parse : jsstring -> option jsval) (JSON_stringify : jsval -> jsstring)
        (writable : jsstring -> bool)
        (now now' : Z) (key : jsstring) (data : jsval) (category : jsstring)
        (customTTL : option Z) (c : CM.cache) :
  writable (CM.cachePath c category key) = true ->
  JSON_parse (JSON_stringify (CW.cachedRecord now key data (CW.effectiveTTL c customTTL))) =
    Some (CW.cachedRecord now key data (CW.effectiveTTL c customTTL)) ->
  (now + Z.min (CW.effectiveTTL c customTTL) 300 * 1000 < now')%Z ->
  (now' <= now + CW.effectiveTTL c customTTL * 1000)%Z ->
  (now' - now <= CM.maxAge c * 1000)%Z ->
  CM.get JSON_parse now' key category
         (CW.set JSON_stringify writable now key data category customTTL c) =
  (Some data,
   CM.memorySet now' (category ++ str ":" ++ key) (Some data) 300
     (CM.countHit (CW.set JSON_stringify writable now key data category customTTL c))).
Proof.
  intros Hw Hparse Hmem Httl Hage. unfold CM.get. rewrite memoryGet_set.
  replace (_ <? now')%Z with true by (symmetry; apply Z.ltb_lt; lia).
  cbn [CM.truthyValue].
  destruct (set_constants JSON_stringify writable now key data category customTTL c)
    as [Hdir Hmax].
  rewrite !(set_cachePath JSON_stringify writable).
  rewrite (set_disk JSON_stringify writable now key data category customTTL c Hw).
  rewrite get_set_same, Hmax, (readEntry_record JSON_parse JSON_stringify _ _ _ _ _ _ Hparse).
  replace (_ <? now' - now)%Z with false by (symmetry; apply Z.ltb_ge; lia).
  replace (now + CW.effectiveTTL c customTTL * 1000 <? now')%Z with false
    by (symmetry; apply Z.ltb_ge; lia).
  now rewrite andb_false_r.
Qed.

Lemma set_then_get_from_disk_witness :
  CM.get Sample3.parseRecord 2000000 (str "k7") (str "files") Sample3.storedCache =
  (Some Sample3.analysis,
   CM.memorySet 2000000 (str "files:k7") (Some Sample3.analysis) 300
                (CM.countHit Sample3.storedCache)).
Proof.
  apply (set_then_get_from_disk
           Sample3.parseRecord Sample3.printRecord Sample3.everyPath
           1000 2000000 (str "k7") Sample3.analysis (str "files") None Sample3.emptyCache).
  - reflexivity.
  - reflexivity.
  - reflexivity.
  - vm_compute. discriminate.
  - vm_compute. discriminate.
Defined.

(** X19: after the time to live has passed, [get] answers [null] for what
    [set] stored, counts a miss and deletes the file, without counting a
    deletion. *)
Theorem get_after_ttl_removes_file
        (JSON_parse : jsstring -> option jsval) (JSON_stringify : jsval -> jsstring)
        (writable : jsstring -> bool)
        (now now' : Z) (key : jsstring) (data : jsval) (category : jsstring)
        (customTTL : option Z) (c : CM.cache) :
  writable (CM.cachePath c category key) = true ->
  JSON_parse (JSON_stringify (CW.cachedRecord now key data (CW.effectiveTTL c customTTL))) =
    Some (CW.cachedRecord now key data (CW.effectiveTTL c customTTL)) ->
  (now + CW.effectiveTTL c customTTL * 1000 < now')%Z ->
  (now + CW.effectiveTTL c customTTL * 1000 <> 0)%Z ->
  let stored := CW.set JSON_stringify writable now key data category customTTL c in
  let result := CM.get JSON_parse now' key category stored in
  fst result = None /\
  CM.existsSync (CM.cachePath c category key) (snd result) = false /\
  CM.stats (snd result) = CM.stats (CM.countMiss stored).
Proof.
  intros Hw Hparse Httl Hzero stored result. subst result. unfold CM.get.
  subst stored. rewrite memoryGet_set.
  replace (_ <? now')%Z with true by (symmetry; apply Z.ltb_lt; lia).
  cbn [CM.truthyValue].
  destruct (set_constants JSON_stringify writable now key data category customTTL c)
    as [Hdir Hmax].
  rewrite !(set_cachePath JSON_stringify writable).
  rewrite (set_disk JSON_stringify writable now key data category customTTL c Hw).
  rewrite get_set_same, Hmax, (readEntry_record JSON_parse JSON_stringify _ _ _ _ _ _ Hparse).
  replace (now + CW.effectiveTTL c customTTL * 1000 <? now')%Z with true
    by (symmetry; apply Z.ltb_lt; lia).
  replace (now + CW.effectiveTTL c customTTL * 1000 =? 0)%Z with false
    by (symmetry; apply Z.eqb_neq; lia).
  cbn [negb andb].
  destruct (_ <? now' - now)%Z; cbn [fst snd]; (split; [reflexivity|]);
    (split; [unfold CM.existsSync; cbn; apply unlink_removes | reflexivity]).
Qed.

Lemma get_after_ttl_removes_file_witness :
  let result :=
    CM.get Sample3.parseRecord 4000000 (str "k7") (str "files") Sample3.storedCache in
  fst result = None /\
  CM.existsSync (str ".audit-cache/files/k7.json") (snd result) = false /\
  CM.stats (snd result) = CM.stats (CM.countMiss Sample3.storedCache).
Proof.
  apply (get_after_ttl_removes_file
           Sample3.parseRecord Sample3.printRecord Sample3.everyPath
           1000 4000000 (str "k7") Sample3.analysis (str "files") None Sample3.emptyCache).
  - reflexivity.
  - reflexivity.
  - reflexivity.
  - vm_compute. discriminate.
Defined.

(** X20: every [get] counts exactly one hit or one miss and leaves the
    counters of writes and deletions alone, also when it deletes a file;
    when it counts a miss it answers [null]. *)
Theorem get_counts_one_hit_or_miss
        (JSON_parse : jsstring -> option jsval)
        (now : Z) (key category : jsstring) (c : CM.cache) :
  let result := CM.get JSON_parse now key category c in
  let before := CM.stats c in
  let after := CM.stats (snd result) in
  ((CM.hits after = S (CM.hits before) /\ CM.misses after = CM.misses before) \/
   (CM.hits after = CM.hits before /\ CM.misses after = S (CM.misses before) /\
    fst result = None)) /\
  CM.writes after = CM.writes before /\
  CM.deletes after = CM.deletes before.
Proof.
  unfold CM.get.
  destruct (CM.truthyValue _); [cbn; auto|].
  destruct (JSMap.get _ (CM.disk c)) as [f|]; [|cbn; auto].
  destruct (CM.readEntry JSON_parse now (CM.maxAge c) f); cbn; auto.
Qed.

(** * Invalidation and the sweep of expired files *)

Lemma get_unlink_other (p q : jsstring) (d : JSMap.t CM.fileEntry) :
  p <> q -> JSMap.get p (CM.unlink q d) = JSMap.get p d.
Proof.
  intros Hpq. induction d as [|[k f] d IH]; [reflexivity|].
  cbn [CM.unlink filter JSMap.get]. destruct (JS.eqb k q) eqn:Ekq; cbn [negb].
  - apply eqb_eq in Ekq. subst k.
    destruct (JS.eqb p q) eqn:Epq; [apply eqb_eq in Epq; contradiction | exact IH].
  - cbn [JSMap.get]. destruct (JS.eqb p k); [reflexivity | exact IH].
Qed.

Lemma has_unlink_false (p q : jsstring) (d : JSMap.t CM.fileEntry) :
  JSMap.has p d = false -> JSMap.has p (CM.unlink q d) = false.
Proof.
  destruct (JS.eqb p q) eqn:E.
  - apply eqb_eq in E. subst q. intros _. apply unlink_removes.
  - apply eqb_neq in E. unfold JSMap.has. now rewrite get_unlink_other.
Qed.

Lemma stripPrefix_app (p s : jsstring) : stripPrefix p (p ++ s) = Some s.
Proof.
  induction p as [|c p IH]; [reflexivity|].
  cbn [app stripPrefix]. now rewrite Ascii.eqb_refl.
Qed.

Lemma startsWith_app (p s : jsstring) : startsWith (p ++ s) p = true.
Proof.
  induction p as [|c p IH]; [reflexivity|].
  cbn [app startsWith]. now rewrite Ascii.eqb_refl.
Qed.

Lemma fileName_cachePath (c : CM.cache) (category key : jsstring) :
  CW.fileName c category (CM.cachePath c category key) = Some (key ++ str ".json").
Proof.
  unfold CW.fileName, CM.cachePath.
  replace (CM.cacheDir c ++ str "/" ++ category ++ str "/" ++ key ++ str ".json")
    with ((CM.cacheDir c ++ str "/" ++ category ++ str "/") ++ key ++ str ".json")
    by now rewrite <- !app_assoc.
  apply stripPrefix_app.
Qed.

Lemma filesOf_cachePath (c : CM.cache) (category key : jsstring) :
  includes (key ++ str ".json") (str "/") = false ->
  JSMap.has (CM.cachePath c category key) (CM.disk c) = true ->
  In (CM.cachePath c category key) (CM.filesOf c category).
Proof.
  intros Hslash Hhas. unfold CM.filesOf. apply filter_In. split.
  - now apply has_In_keys.
  - fold (CW.fileName c category (CM.cachePath c category key)).
    rewrite fileName_cachePath, Hslash.
    destruct key; reflexivity.
Qed.

Section Invalidate.

Variable pattern : jsstring.

Lemma invalidateFile_keeps (category : jsstring) (c : CM.cache) (filePath : jsstring) :
  CM.memoryCache (CW.invalidateFile pattern category c filePath) = CM.memoryCache c /\
  CM.cacheDir (CW.invalidateFile pattern category c filePath) = CM.cacheDir c.
Proof.
  unfold CW.invalidateFile. destruct (CW.fileName c category filePath) as [file|]; [|auto].
  destruct (startsWith file pattern); auto.
Qed.

Lemma invalidateFile_gone (p category : jsstring) (c : CM.cache) (filePath : jsstring) :
  JSMap.has p (CM.disk c) = false ->
  JSMap.has p (CM.disk (CW.invalidateFile pattern category c filePath)) = false.
Proof.
  intros H. unfold CW.invalidateFile.
  destruct (CW.fileName c category filePath) as [file|]; [|exact H].
  destruct (startsWith file pattern); [|exact H]. cbn. now apply has_unlink_false.
Qed.

Lemma invalidateFiles_keep (category : jsstring) (files : list jsstring) (c : CM.cache) :
  CM.memoryCache (fold_left (CW.invalidateFile pattern category) files c) = CM.memoryCache c /\
  CM.cacheDir (fold_left (CW.invalidateFile pattern category) files c) = CM.cacheDir c.
Proof.
  revert c. induction files as [|q files IH]; intros c; [auto|].
  cbn [fold_left]. destruct (IH (CW.invalidateFile pattern category c q)) as [-> ->].
  apply invalidateFile_keeps.
Qed.

Lemma invalidateFiles_gone (p category : jsstring) (files : list jsstring) (c : CM.cache) :
  JSMap.has p (CM.disk c) = false ->
  JSMap.has p (CM.disk (fold_left (CW.invalidateFile pattern category) files c)) = false.
Proof.
  revert c. induction files as [|q files IH]; intros c H; [exact H|].
  cbn [fold_left]. apply IH. now apply invalidateFile_gone.
Qed.

Lemma invalidateCategories_keep (cats : list jsstring) (c : CM.cache) :
  let c' := fold_left (fun acc category =>
                         fold_left (CW.invalidateFile pattern category)
                                   (CM.filesOf acc category) acc) cats c in
  CM.memoryCache c' = CM.memoryCache c /\ CM.cacheDir c' = CM.cacheDir c.
Proof.
  revert c. induction cats as [|cat cats IH]; intros c; [cbn; auto|].
  cbn [fold_left]. cbn zeta in IH.
  destruct (IH (fold_left (CW.invalidateFile pattern cat) (CM.filesOf c cat) c)) as [-> ->].
  apply invalidateFiles_keep.
Qed.

Lemma invalidateCategories_gone (p : jsstring) (cats : list jsstring) (c : CM.cache) :
  JSMap.has p (CM.disk c) = false ->
  JSMap.has p (CM.disk (fold_left (fun acc category =>
                                     fold_left (CW.invalidateFile pattern category)
                                               (CM.filesOf acc category) acc) cats c)) = false.
Proof.
  revert c. induction cats as [|cat cats IH]; intros c H; [exact H|].
  cbn [fold_left]. apply IH. now apply invalidateFiles_gone.
Qed.

Lemma invalidateFiles_remove (category key : jsstring) (files : list jsstring) (c : CM.cache) :
  startsWith (key ++ str ".json") pattern = true ->
  In (CM.cachePath c category key) files ->
  JSMap.has (CM.cachePath c category key)
            (CM.disk (fold_left (CW.invalidateFile pattern category) files c)) = false.
Proof.
  intros Hp. revert c. induction files as [|q files IH]; intros c Hin; [contradiction|].
  cbn [fold_left]. destruct Hin as [->|Hin].
  - apply invalidateFiles_gone. unfold CW.invalidateFile.
    rewrite fileName_cachePath, Hp. cbn. apply unlink_removes.
  - destruct (invalidateFile_keeps category c q) as [_ Hdir].
    assert (Hpath : CM.cachePath (CW.invalidateFile pattern category c q) category key =
                    CM.cachePath c category key)
      by (unfold CM.cachePath; now rewrite Hdir).
    rewrite <- Hpath. apply IH. now rewrite Hpath.
Qed.

Lemma invalidateCategories_remove (category key : jsstring) (cats : list jsstring)
      (c : CM.cache) :
  startsWith (key ++ str ".json") pattern = true ->
  includes (key ++ str ".json") (str "/") = false ->
  In category cats ->
  JSMap.has (CM.cachePath c category key)
            (CM.disk (fold_left (fun acc cat =>
                                   fold_left (CW.invalidateFile pattern cat)
                                             (CM.filesOf acc cat) acc) cats c)) = false.
Proof.
  intros Hp Hslash. revert c. induction cats as [|cat cats IH]; intros c Hin; [contradiction|].
  cbn [fold_left].
  destruct (invalidateFiles_keep cat (CM.filesOf c cat) c) as [_ Hdir].
  assert (Hpath : CM.cachePath (fold_left (CW.invalidateFile pattern cat) (CM.filesOf c cat) c)
                               category key = CM.cachePath c category key)
    by (unfold CM.cachePath; now rewrite Hdir).
  destruct (JSMap.has (CM.cachePath c category key) (CM.disk c)) eqn:Hhas.
  - destruct Hin as [->|Hin].
    + apply invalidateCategories_gone. apply invalidateFiles_remove; [exact Hp|].
      now apply filesOf_cachePath.
    + rewrite <- Hpath. now apply IH.
  - apply invalidateCategories_gone. now apply invalidateFiles_gone.
Qed.

End Invalidate.

(** X21: [invalidatePattern] deletes files only; the cache in memory is
    not touched.  After invalidating a key that was just stored, the file
    is gone, yet [get] still serves the data from memory until it lapses
    there, and counts a hit. *)
Theorem invalidated_entry_is_still_served
        (JSON_parse : jsstring -> option jsval) (JSON_stringify : jsval -> jsstring)
        (writable : jsstring -> bool)
        (now now' : Z) (key : jsstring) (data : jsval) (category : jsstring)
        (customTTL : option Z) (c : CM.cache) :
  In category CM.categories ->
  includes (key ++ str ".json") (str "/") = false ->
  truthy data = true ->
  (now' <= now + Z.min (CW.effectiveTTL c customTTL) 300 * 1000)%Z ->
  let invalidated :=
    CW.invalidatePattern key
      (CW.set JSON_stringify writable now key data category customTTL c) in
  CM.existsSync (CM.cachePath c category key) invalidated = false /\
  CM.get JSON_parse now' key category invalidated = (Some data, CM.countHit invalidated).
Proof.
  intros Hcat Hslash Ht Hnow invalidated. split.
  - unfold CM.existsSync. subst invalidated. unfold CW.invalidatePattern.
    rewrite <- (set_cachePath JSON_stringify writable now key data category customTTL c).
    apply invalidateCategories_remove; [apply startsWith_app | exact Hslash | exact Hcat].
  - unfold CM.get, CM.memoryGet.
    assert (Hmem : CM.memoryCache invalidated =
                   CM.memoryCache
                     (CW.set JSON_stringify writable now key data category customTTL c))
      by apply (invalidateCategories_keep key CM.categories).
    rewrite Hmem, set_memory, get_set_same. cbn [CM.expiresAt CM.value].
    replace (_ <? now')%Z with false by (symmetry; apply Z.ltb_ge; lia).
    cbn [CM.truthyValue]. now rewrite Ht.
Qed.

Lemma invalidated_entry_is_still_served_witness :
  let invalidated := CW.invalidatePattern (str "k7") Sample3.storedCache in
  CM.existsSync (str ".audit-cache/files/k7.json") invalidated = false /\
  CM.get Sample3.parseRecord 250000 (str "k7") (str "files") invalidated =
    (Some Sample3.analysis, CM.countHit invalidated).
Proof.
  apply (invalidated_entry_is_still_served
           Sample3.parseRecord Sample3.printRecord Sample3.everyPath
           1000 250000 (str "k7") Sample3.analysis (str "files") None Sample3.emptyCache).
  - vm_compute. tauto.
  - reflexivity.
  - reflexivity.
  - vm_compute. discriminate.
Defined.

Section SweepFacts.

Variable JSON_parse : jsstring -> option jsval.
Variable now : Z.

Lemma fold_left_pointwise (A B : Type) (g h : A -> B -> A) (l : list B) (a : A) :
  (forall x y, g x y = h x y) -> fold_left g l a = fold_left h l a.
Proof.
  intros H. revert a. induction l as [|y l IH]; intros a; [reflexivity|].
  cbn [fold_left]. now rewrite H, IH.
Qed.

Lemma clearExpired_sweepCategories (c : CM.cache) :
  CM.clearExpired JSON_parse now c = sweepCategories JSON_parse now CM.categories (c, 0).
Proof.
  unfold CM.clearExpired, sweepCategories. apply fold_left_pointwise.
  intros acc category. apply fold_left_pointwise. now intros [c' n] q.
Qed.

(** One step of the sweep either leaves the cache alone or deletes the
    file at hand, which then was not valid, and counts it. *)
Lemma sweepFile_step (acc : CM.cache * nat) (q : jsstring) :
  let acc' := sweepFile JSON_parse now acc q in
  CM.maxAge (fst acc') = CM.maxAge (fst acc) /\
  CM.cacheDir (fst acc') = CM.cacheDir (fst acc) /\
  (acc' = acc \/
   (CM.disk (fst acc') = CM.unlink q (CM.disk (fst acc)) /\
    snd acc' = S (snd acc) /\
    CM.deletes (CM.stats (fst acc')) = S (CM.deletes (CM.stats (fst acc))) /\
    exists f, JSMap.get q (CM.disk (fst acc)) = Some f /\
              forall d, CM.readEntry JSON_parse now (CM.maxAge (fst acc)) f <> CM.Valid d)).
Proof.
  destruct acc as [c n]. unfold sweepFile, CM.clearExpiredFile. cbn [fst snd].
  destruct (JSMap.get q (CM.disk c)) as [f|] eqn:G; [|cbn; auto].
  destruct (CM.readEntry JSON_parse now (CM.maxAge c) f) eqn:Er; cbn; auto;
    (split; [reflexivity|]; split; [reflexivity|]; right;
     repeat split; exists f; split; [reflexivity | congruence]).
Qed.

Lemma sweep_invariant (P : CM.cache * nat -> Prop) :
  (forall acc q, P acc -> P (sweepFile JSON_parse now acc q)) ->
  forall cats acc, P acc -> P (sweepCategories JSON_parse now cats acc).
Proof.
  intros Hstep. unfold sweepCategories.
  induction cats as [|cat cats IH]; intros acc H; [exact H|].
  cbn [fold_left]. apply IH.
  generalize (CM.filesOf (fst acc) cat). intros files. revert acc H.
  induction files as [|q files IHf]; intros acc H; [exact H|].
  cbn [fold_left]. apply IHf. now apply Hstep.
Qed.

Section OneFile.

Variable c : CM.cache.
Variable p : jsstring.
Variable f : CM.fileEntry.

Lemma sweepFile_gone (acc : CM.cache * nat) (q : jsstring) :
  JSMap.has p (CM.disk (fst acc)) = false ->
  JSMap.has p (CM.disk (fst (sweepFile JSON_parse now acc q))) = false.
Proof.
  intros H. destruct (sweepFile_step acc q) as (_ & _ & [->|(-> & _)]); [exact H|].
  now apply has_unlink_false.
Qed.

Lemma sweepFile_valid (d : option jsval) (acc : CM.cache * nat) (q : jsstring) :
  CM.readEntry JSON_parse now (CM.maxAge c) f = CM.Valid d ->
  CM.maxAge (fst acc) = CM.maxAge c /\ JSMap.get p (CM.disk (fst acc)) = Some f ->
  CM.maxAge (fst (sweepFile JSON_parse now acc q)) = CM.maxAge c /\
  JSMap.get p (CM.disk (fst (sweepFile JSON_parse now acc q))) = Some f.
Proof.
  intros Hv [Hmax Hget].
  destruct (sweepFile_step acc q) as (Hm & _ & [->|(-> & _ & _ & f' & Hq & Hnot)]);
    [now split|].
  split; [congruence|].
  destruct (JS.eqb p q) eqn:E.
  - apply eqb_eq in E. subst q. exfalso. rewrite Hget in Hq. injection Hq as <-.
    apply (Hnot d). now rewrite Hmax.
  - apply eqb_neq in E. now rewrite get_unlink_other.
Qed.

Hypothesis Hinvalid : forall d, CM.readEntry JSON_parse now (CM.maxAge c) f <> CM.Valid d.

(** Until its turn comes the file stays as it is, or is gone already. *)
Lemma sweepFile_waiting (acc : CM.cache * nat) (q : jsstring) :
  CM.maxAge (fst acc) = CM.maxAge c /\ CM.cacheDir (fst acc) = CM.cacheDir c /\
  JSMap.get p (CM.disk (fst acc)) = Some f ->
  (q = p -> JSMap.has p (CM.disk (fst (sweepFile JSON_parse now acc q))) = false) /\
  ((CM.maxAge (fst (sweepFile JSON_parse now acc q)) = CM.maxAge c /\
    CM.cacheDir (fst (sweepFile JSON_parse now acc q)) = CM.cacheDir c /\
    JSMap.get p (CM.disk (fst (sweepFile JSON_parse now acc q))) = Some f)
   \/ JSMap.has p (CM.disk (fst (sweepFile JSON_parse now acc q))) = false).
Proof.
  intros (Hmax & Hdir & Hget).
  assert (Hturn : JSMap.has p (CM.disk (fst (sweepFile JSON_parse now acc p))) = false).
  { destruct acc as [c' n]. cbn [fst] in *. unfold sweepFile, CM.clearExpiredFile.
    rewrite Hget, Hmax.
    destruct (CM.readEntry JSON_parse now (CM.maxAge c) f) eqn:Er;
      try (cbn; apply unlink_removes).
    exfalso. now apply (Hinvalid data). }
  split; [now intros ->|].
  destruct (JS.eqb p q) eqn:E.
  - apply eqb_eq in E. subst q. now right.
  - apply eqb_neq in E. left.
    destruct (sweepFile_step acc q) as (Hm & Hd & [->|(-> & _)]); [auto|].
    repeat split; try congruence. now rewrite get_unlink_other.
Qed.

Lemma sweepFiles_gone (files : list jsstring) (acc : CM.cache * nat) :
  JSMap.has p (CM.disk (fst acc)) = false ->
  JSMap.has p (CM.disk (fst (fold_left (sweepFile JSON_parse now) files acc))) = false.
Proof.
  revert acc. induction files as [|q files IH]; intros acc H; [exact H|].
  cbn [fold_left]. apply IH. now apply sweepFile_gone.
Qed.

Lemma sweepFiles_waiting (files : list jsstring) (acc : CM.cache * nat) :
  CM.maxAge (fst acc) = CM.maxAge c /\ CM.cacheDir (fst acc) = CM.cacheDir c /\
  JSMap.get p (CM.disk (fst acc)) = Some f ->
  let acc' := fold_left (sweepFile JSON_parse now) files acc in
  (In p files -> JSMap.has p (CM.disk (fst acc')) = false) /\
  ((CM.maxAge (fst acc') = CM.maxAge c /\ CM.cacheDir (fst acc') = CM.cacheDir c /\
    JSMap.get p (CM.disk (fst acc')) = Some f)
   \/ JSMap.has p (CM.disk (fst acc')) = false).
Proof.
  revert acc. induction files as [|q files IH]; intros acc H.
  - cbn. split; [contradiction | now left].
  - cbn [fold_left]. cbn zeta in *.
    destruct (sweepFile_waiting acc q H) as [Hturn [Hlive|Hgone]].
    + destruct (IH _ Hlive) as [IH1 IH2]. split; [|exact IH2].
      intros [->|Hin]; [|now apply IH1].
      apply sweepFiles_gone. now apply Hturn.
    + split; [intros _|right]; now apply sweepFiles_gone.
Qed.

Lemma sweepCategories_gone (cats : list jsstring) (acc : CM.cache * nat) :
  JSMap.has p (CM.disk (fst acc)) = false ->
  JSMap.has p (CM.disk (fst (sweepCategories JSON_parse now cats acc))) = false.
Proof.
  apply (sweep_invariant (fun acc => JSMap.has p (CM.disk (fst acc)) = false)).
  intros acc' q. apply sweepFile_gone.
Qed.

Lemma sweepCategories_removes (category : jsstring) (cats : list jsstring)
      (acc : CM.cache * nat) :
  In p (CM.filesOf c category) ->
  In category cats ->
  CM.maxAge (fst acc) = CM.maxAge c /\ CM.cacheDir (fst acc) = CM.cacheDir c /\
  JSMap.get p (CM.disk (fst acc)) = Some f ->
  JSMap.has p (CM.disk (fst (sweepCategories JSON_parse now cats acc))) = false.
Proof.
  intros Hfile. revert acc. induction cats as [|cat cats IH]; intros acc Hin H;
    [contradiction|].
  unfold sweepCategories. cbn [fold_left]. fold (sweepCategories JSON_parse now cats).
  destruct (sweepFiles_waiting (CM.filesOf (fst acc) cat) acc H) as [Hturn [Hlive|Hgone]];
    [|now apply sweepCategories_gone].
  destruct Hin as [->|Hin]; [|now apply IH].
  apply sweepCategories_gone. apply Hturn.
  destruct H as (_ & Hdir & Hget).
  unfold CM.filesOf in *. rewrite Hdir. apply filter_In. split.
  - apply has_In_keys. unfold JSMap.has. now rewrite Hget.
  - now apply filter_In in Hfile.
Qed.

End OneFile.

End SweepFacts.

(** X22: what [clearExpired] leaves behind.  A file that is valid at the
    time of the sweep, with an expiry that is absent, falsy or a number, is
    kept as it is; a file directly in one of the four category directories
    that is too old, past its time to live or unreadable is gone
    afterwards; and the number returned is the number of deletions added
    to the statistics. *)
Theorem clearExpired_sweeps
        (JSON_parse : jsstring -> option jsval) (now : Z) (c : CM.cache) :
  let swept := fst (CM.clearExpired JSON_parse now c) in
  (forall p f d,
      JSMap.get p (CM.disk c) = Some f ->
      numericExpiry (expiryOf JSON_parse f) = true ->
      CM.readEntry JSON_parse now (CM.maxAge c) f = CM.Valid d ->
      JSMap.get p (CM.disk swept) = Some f) /\
  (forall category p f,
      In category CM.categories ->
      In p (CM.filesOf c category) ->
      JSMap.get p (CM.disk c) = Some f ->
      (forall d, CM.readEntry JSON_parse now (CM.maxAge c) f <> CM.Valid d) ->
      CM.existsSync p swept = false) /\
  CM.deletes (CM.stats swept) =
    CM.deletes (CM.stats c) + snd (CM.clearExpired JSON_parse now c).
Proof.
  cbn zeta. rewrite clearExpired_sweepCategories. split; [|split].
  - intros p f d Hget _ Hvalid.
    apply (sweep_invariant JSON_parse now
             (fun acc => CM.maxAge (fst acc) = CM.maxAge c /\
                         JSMap.get p (CM.disk (fst acc)) = Some f)).
    + intros acc q. now apply (sweepFile_valid JSON_parse now c p f d).
    + now split.
  - intros category p f Hcat Hfile Hget Hinvalid. unfold CM.existsSync.
    now apply (sweepCategories_removes JSON_parse now c p f Hinvalid category).
  - apply (sweep_invariant JSON_parse now
             (fun acc => CM.deletes (CM.stats (fst acc)) =
                         CM.deletes (CM.stats c) + snd acc)).
    + intros acc q H.
      destruct (sweepFile_step JSON_parse now acc q) as (_ & _ & [->|(_ & -> & -> & _)]);
        [exact H | lia].
    + cbn. lia.
Qed.

Lemma clearExpired_sweeps_witness :
  CM.existsSync (str ".audit-cache/files/k1.json")
                (fst (CM.clearExpired Sample.parseEmptyObject 2000 Sample.corruptCache)) = false
  /\ JSMap.get (str ".audit-cache/files/k7.json")
               (CM.disk (fst (CM.clearExpired Sample3.parseRecord 2000 Sample3.storedCache))) =
     JSMap.get (str ".audit-cache/files/k7.json") (CM.disk Sample3.storedCache).
Proof.
  split.
  - apply (proj1 (proj2 (clearExpired_sweeps Sample.parseEmptyObject 2000 Sample.corruptCache))
             (str "files") (str ".audit-cache/files/k1.json")
             {| CM.mtime := 1000; CM.content := str "{ not json" |}).
    + vm_compute. tauto.
    + vm_compute. tauto.
    + reflexivity.
    + intros d. vm_compute. discriminate.
  - apply (proj1 (clearExpired_sweeps Sample3.parseRecord 2000 Sample3.storedCache)
             (str ".audit-cache/files/k7.json")
             {| CM.mtime := 1000; CM.content := str "<record>" |}
             (Some Sample3.analysis)).
    + reflexivity.
    + reflexivity.
    + vm_compute. reflexivity.
Defined.

(** * Object literals, and the common prefix of route paths *)

Lemma ofNat_nonempty (n : nat) : ofNat n <> [].
Proof.
  unfold ofNat, NilZero.string_of_uint.
  destruct (Nat.to_uint n); cbn; discriminate.
Qed.

Lemma keyName_nonempty (key : node) (name : jsstring) : keyName key = Some name -> name <> [].
Proof.
  destruct key as [v|v|v|q ex|nm|o p|callee a l|props|els|ty]; cbn; try discriminate.
  - destruct v; [discriminate|]. now intros [= <-].
  - destruct (Z.eqb v 0); [discriminate|]. intros [= <-]. apply ofNat_nonempty.
  - destruct v; [|discriminate]. now intros [= <-].
  - destruct nm; [discriminate|]. now intros [= <-].
Qed.

(** X23: the structure read from an object literal has every property name
    once, however often the literal repeats a name, and never the empty
    name. *)
Theorem extractObjectStructure_keys (n : node) :
  NoDup (JSMap.keys (extractObjectStructure n)) /\
  ~ In [] (JSMap.keys (extractObjectStructure n)).
Proof.
  assert (Hnil : NoDup (JSMap.keys (@nil (jsstring * jsval))) /\
                 ~ In [] (JSMap.keys (@nil (jsstring * jsval))))
    by (split; [constructor | intros []]).
  destruct n as [v|v|v|q ex|nm|o p|callee a l|props|els|ty];
    try exact Hnil.
  cbn [extractObjectStructure].
  revert Hnil. generalize (@nil (jsstring * jsval)).
  induction props as [|prop props IH]; intros structure Hs; [exact Hs|].
  apply IH. destruct prop as [[key value]|]; [|exact Hs].
  destruct (keyName key) as [name|] eqn:Ek; [|exact Hs].
  destruct Hs as [Hn He]. split; [now apply set_NoDup|].
  intros Hin. destruct (JSMap.has name structure) eqn:Hh.
  - rewrite keys_set_present in Hin by exact Hh. contradiction.
  - rewrite keys_set_absent in Hin by exact Hh.
    apply in_app_or in Hin as [Hin|[Hname|[]]]; [contradiction|].
    now apply keyName_nonempty in Ek.
Qed.

Section CommonPrefix.

Import BasePath.

Lemma startsWith_nil (s : jsstring) : startsWith s [] = true.
Proof. reflexivity. Qed.

Lemma startsWith_firstn (n : nat) (s : jsstring) : startsWith s (firstn n s) = true.
Proof.
  revert n. induction s as [|c s IH]; intros [|n]; try reflexivity.
  cbn [firstn startsWith]. now rewrite Ascii.eqb_refl, IH.
Qed.

Lemma startsWith_trans (a b c : jsstring) :
  startsWith b a = true -> startsWith c b = true -> startsWith c a = true.
Proof.
  revert b c. induction a as [|x a IH]; intros b c; [reflexivity|].
  destruct b as [|y b]; [discriminate|]. destruct c as [|z c]; [discriminate|].
  cbn [startsWith]. rewrite !andb_true_iff.
  intros [E1 H1] [E2 H2]. apply Ascii.eqb_eq in E1, E2. subst.
  split; [apply Ascii.eqb_refl | now apply (IH b)].
Qed.

Lemma lastIndexOf_lt (c : ascii) (s : jsstring) (i : nat) :
  lastIndexOf c s = Some i -> i < length s.
Proof.
  revert i. induction s as [|x s IH]; intros i; [discriminate|].
  cbn [lastIndexOf length]. destruct (lastIndexOf c s) as [j|].
  - intros [= <-]. specialize (IH j eq_refl). lia.
  - destruct (Ascii.eqb x c); [intros [= <-]; lia | discriminate].
Qed.

Lemma dropLastSegment_prefix (s : jsstring) : startsWith s (dropLastSegment s) = true.
Proof.
  unfold dropLastSegment. destruct (lastIndexOf "/" s); [apply startsWith_firstn | reflexivity].
Qed.

Lemma dropLastSegment_shorter (s : jsstring) :
  s <> [] -> length (dropLastSegment s) < length s.
Proof.
  intros Hs. unfold dropLastSegment. destruct (lastIndexOf "/" s) as [i|] eqn:E.
  - apply lastIndexOf_lt in E. rewrite length_firstn. lia.
  - destruct s; [contradiction | cbn; lia].
Qed.

(** With as many rounds as the prefix is long the loop has come to its
    end: what it returns is a prefix of the path (possibly the empty one),
    and of the prefix it started from. *)
Lemma shrink_spec (rounds : nat) (path prefix : jsstring) :
  length prefix <= rounds ->
  startsWith path (shrink rounds path prefix) = true /\
  startsWith prefix (shrink rounds path prefix) = true.
Proof.
  revert prefix. induction rounds as [|rounds IH]; intros prefix Hlen.
  - destruct prefix; [split; reflexivity | cbn in Hlen; lia].
  - cbn [shrink]. destruct prefix as [|c prefix]; [split; reflexivity|].
    cbn [isEmpty negb andb].
    destruct (startsWith path (c :: prefix)) eqn:Es; cbn [negb].
    + split; [exact Es|]. cbn [startsWith]. rewrite Ascii.eqb_refl.
      clear. induction prefix as [|x p IHp]; [reflexivity|].
      cbn [startsWith]. now rewrite Ascii.eqb_refl.
    + pose proof (dropLastSegment_shorter (c :: prefix)) as Hshort.
      destruct (IH (dropLastSegment (c :: prefix))) as [H1 H2].
      { assert (c :: prefix <> []) by discriminate. specialize (Hshort H). lia. }
      split; [exact H1|].
      eapply startsWith_trans; [exact H2 | apply dropLastSegment_prefix].
Qed.

Lemma shrinkTo_folds (rest : list jsstring) (first : jsstring) :
  startsWith first (fold_left shrinkTo rest first) = true /\
  forall p, In p rest -> startsWith p (fold_left shrinkTo rest first) = true.
Proof.
  revert first. induction rest as [|path rest IH]; intros first.
  - split; [|intros p []]. cbn. clear.
    induction first as [|x p IHp]; [reflexivity|].
    cbn [startsWith]. now rewrite Ascii.eqb_refl.
  - cbn [fold_left]. destruct (IH (shrinkTo first path)) as [H1 H2].
    destruct (shrink_spec (length first) path first (le_n _)) as [S1 S2].
    fold (shrinkTo first path) in S1, S2. split.
    + eapply startsWith_trans; [exact H1 | exact S2].
    + intros p [<-|Hin]; [|now apply H2].
      eapply startsWith_trans; [exact H1 | exact S1].
Qed.

End CommonPrefix.

(** X24: for two paths or more, what [findCommonPrefix] returns is a
    prefix of every one of them. *)
Theorem findCommonPrefix_is_common_prefix (paths : list jsstring) (p : jsstring) :
  2 <= length paths ->
  In p paths ->
  startsWith p (BasePath.findCommonPrefix paths) = true.
Proof.
  intros Hlen Hin. destruct paths as [|first [|second rest]]; cbn in Hlen; try lia.
  unfold BasePath.findCommonPrefix.
  set (prefix := fold_left BasePath.shrinkTo (second :: rest) first).
  assert (Hp : startsWith p prefix = true).
  { destruct (shrinkTo_folds (second :: rest) first) as [H1 H2].
    destruct Hin as [<-|Hin]; [exact H1 | now apply H2]. }
  destruct (negb (isEmpty prefix) && negb (JS.eqb prefix (str "/"))
            && negb (endsWith prefix (str "/"))); [|exact Hp].
  destruct (BasePath.lastIndexOf "/" prefix) as [lastSlash|]; [|exact Hp].
  destruct (0 <? lastSlash); [|exact Hp].
  eapply startsWith_trans; [apply startsWith_firstn | exact Hp].
Qed.

Lemma findCommonPrefix_is_common_prefix_witness :
  BasePath.findCommonPrefix
    [str "/api/users/list"; str "/api/users/:id"; str "/api/orders"] = str "/api" /\
  startsWith (str "/api/users/:id")
             (BasePath.findCommonPrefix
                [str "/api/users/list"; str "/api/users/:id"; str "/api/orders"]) = true.
Proof.
  split; [vm_compute; reflexivity|].
  apply (findCommonPrefix_is_common_prefix
           [str "/api/users/list"; str "/api/users/:id"; str "/api/orders"]
           (str "/api/users/:id")).
  - cbn. lia.
  - cbn. tauto.
Defined.

(** * Template literals and path parameters *)

Section TemplateUrls.

Lemma includes_cons_false (c : ascii) (s p : jsstring) :
  includes (c :: s) p = false -> startsWith (c :: s) p = false /\ includes s p = false.
Proof. cbn [includes]. apply orb_false_iff. Qed.

Lemma replaceTemplates_interpolation (t : jsstring) :
  replaceTemplates (str "${...}" ++ t) = str ":param" ++ replaceTemplates t.
Proof.
  lit. cbn [app]. now rewrite replaceTemplates_open.
Qed.

Lemma replaceTemplates_quasi (q t : jsstring) :
  includes q (str "${") = false ->
  replaceTemplates (q ++ str "${...}" ++ t) = q ++ str ":param" ++ replaceTemplates t.
Proof.
  induction q as [|c q IH]; intros H.
  - apply replaceTemplates_interpolation.
  - apply includes_cons_false in H as [Hs Hi]. cbn [app].
    destruct (Ascii.eqb_spec c "$") as [->|N].
    + rewrite replaceTemplates_dollar; [now rewrite IH|].
      destruct q as [|d q]; [reflexivity|].
      lit. cbn [startsWith app] in *. rewrite Ascii.eqb_refl in Hs. cbn [andb] in Hs.
      now rewrite Hs.
    + rewrite replaceTemplates_other by exact N. now rewrite IH.
Qed.

Lemma replaceTemplates_plain (q : jsstring) :
  includes q (str "${") = false -> replaceTemplates q = q.
Proof.
  induction q as [|c q IH]; intros H; [reflexivity|].
  apply includes_cons_false in H as [Hs Hi].
  destruct (Ascii.eqb_spec c "$") as [->|N].
  - rewrite replaceTemplates_dollar; [now rewrite IH|].
    destruct q as [|d q]; [reflexivity|].
    lit. cbn [startsWith] in *. rewrite Ascii.eqb_refl in Hs. cbn [andb] in Hs.
    now rewrite Hs.
  - rewrite replaceTemplates_other by exact N. now rewrite IH.
Qed.

Lemma replaceTemplates_join (quasis : list jsstring) :
  Forall (fun q => includes q (str "${") = false) quasis ->
  replaceTemplates (join (str "${...}") quasis) = join (str ":param") quasis.
Proof.
  induction quasis as [|q rest IH]; intros H; [reflexivity|].
  inversion H as [|? ? Hq Hrest]; subst.
  destruct rest as [|q' rest]; [now apply replaceTemplates_plain|].
  cbn [join]. rewrite replaceTemplates_quasi by exact Hq.
  cbn [join] in IH. now rewrite (IH Hrest).
Qed.

Lemma join_not_In (c : ascii) (sep : jsstring) (parts : list jsstring) :
  ~ In c sep -> Forall (fun q => ~ In c q) parts -> ~ In c (join sep parts).
Proof.
  intros Hsep. induction parts as [|q rest IH]; intros H; [intros []|].
  inversion H as [|? ? Hq Hrest]; subst.
  destruct rest as [|q' rest]; [exact Hq|].
  cbn [join]. rewrite !in_app_iff. specialize (IH Hrest). cbn [join] in IH. tauto.
Qed.

End TemplateUrls.

(** X26: a URL written as a template literal with interpolations, starting
    with a slash and free of [?] and of a literal dollar-brace, is cleaned
    to its literal pieces joined by [:param]: every interpolation becomes
    a parameter of that one name, whatever the interpolated expression. *)
Theorem template_url_is_cleaned_to_params
        (first : jsstring) (quasis : list jsstring) (expressions : list node) :
  expressions <> [] ->
  startsWith first (str "/") = true ->
  Forall (fun q => includes q (str "${") = false /\ ~ In "?"%char q) (first :: quasis) ->
  option_map cleanEndpoint
             (extractStringValue (Some (TemplateLiteral (first :: quasis) expressions))) =
  Some (join (str ":param") (first :: quasis)).
Proof.
  intros He Hs Hq. cbn [extractStringValue].
  destruct expressions as [|e es]; [contradiction|]. cbn [option_map]. f_equal.
  assert (Hhead : forall sep, exists t, join sep (first :: quasis) = "/"%char :: t).
  { intros sep. destruct first as [|c first']; [discriminate|].
    lit. cbn [startsWith] in Hs. rewrite andb_true_r in Hs.
    apply Ascii.eqb_eq in Hs. subst c.
    destruct quasis; cbn [join app]; eauto. }
  unfold cleanEndpoint.
  destruct (Hhead (str "${...}")) as [t Ht].
  rewrite Ht. cbn [isEmpty]. rewrite stripOrigin_slash, <- Ht.
  rewrite splitHead_id.
  2:{ apply join_not_In.
      - lit. cbn. intuition discriminate.
      - eapply Forall_impl; [|exact Hq]. cbn. tauto. }
  rewrite replaceTemplates_join by (eapply Forall_impl; [|exact Hq]; cbn; tauto).
  destruct (Hhead (str ":param")) as [t' Ht']. rewrite Ht'. reflexivity.
Qed.

Lemma template_url_is_cleaned_to_params_witness :
  option_map cleanEndpoint
             (extractStringValue
                (Some (TemplateLiteral [str "/api/users/"; str "/posts/"; []]
                                       [Identifier (str "id"); Identifier (str "postId")]))) =
  Some (str "/api/users/:param/posts/:param").
Proof.
  apply (template_url_is_cleaned_to_params
           (str "/api/users/") [str "/posts/"; []]
           [Identifier (str "id"); Identifier (str "postId")]).
  - discriminate.
  - reflexivity.
  - repeat constructor; try reflexivity; vm_compute; intuition discriminate.
Defined.

Section ColonParams.

Variable stop : ascii -> bool.

Lemma captured_cons (c : ascii) (s p : jsstring) :
  capturedAfterColon stop s p -> capturedAfterColon stop (c :: s) p.
Proof.
  intros (a & b & -> & H). exists (c :: a), b. now split.
Qed.

Lemma colonParams_sound (s : jsstring) :
  (forall p, In p (colonParams stop None s) -> capturedAfterColon stop s p) /\
  (forall acc p,
      acc <> [] \/ (exists d s', s = d :: s' /\ stop d = false) ->
      In p (colonParams stop (Some acc) s) ->
      capturedAfterColon stop s p \/
      exists q after, s = q ++ after /\ p = rev acc ++ q /\ p <> [] /\
                      forallb (fun c => negb (stop c)) q = true).
Proof.
  induction s as [|c s [IHn IHs]]; split.
  - intros p [].
  - intros acc p Hacc [<-|[]]. right. exists [], [].
    split; [reflexivity|]. split; [now rewrite app_nil_r|]. split; [|reflexivity].
    destruct Hacc as [Hacc|(d & s' & E & _)]; [|discriminate].
    intros Hr. apply Hacc. apply (f_equal (@rev ascii)) in Hr.
    now rewrite rev_involutive in Hr.
  - intros p. cbn [colonParams]. destruct (Ascii.eqb_spec c ":") as [->|N].
    + destruct s as [|d s']; [intros []|].
      destruct (stop d) eqn:Ed.
      * intros H. apply captured_cons. now apply IHn.
      * intros H. apply (IHs [] p) in H; [|right; eauto].
        destruct H as [H|(q & after & E & -> & Hne & Hq)]; [now apply captured_cons|].
        exists [], after. cbn [rev app] in *. rewrite E.
        split; [reflexivity|]. split; assumption.
    + intros H. apply captured_cons. now apply IHn.
  - intros acc p Hacc. cbn [colonParams]. destruct (stop c) eqn:Ec.
    + intros [<-|H].
      * right. exists [], (c :: s).
        split; [reflexivity|]. split; [now rewrite app_nil_r|]. split; [|reflexivity].
        destruct Hacc as [Hacc|(d & s' & [= <- _] & Hd)]; [|congruence].
        intros Hr. apply Hacc. apply (f_equal (@rev ascii)) in Hr.
        now rewrite rev_involutive in Hr.
      * left. apply captured_cons. now apply IHn.
    + intros H. apply (IHs (c :: acc) p) in H; [|left; discriminate].
      destruct H as [H|(q & after & -> & -> & Hne & Hq)]; [left; now apply captured_cons|].
      right. exists (c :: q), after. cbn [rev app forallb] in *.
      rewrite <- app_assoc in *. cbn [app] in *. rewrite Ec.
      split; [reflexivity|]. split; [reflexivity|]. split; assumption.
Qed.

End ColonParams.

Lemma includes_middle (a p b : jsstring) : includes (a ++ p ++ b) p = true.
Proof.
  induction a as [|c a IH].
  - cbn [app]. destruct (p ++ b) as [|x t] eqn:E.
    + destruct p; [reflexivity | discriminate].
    + rewrite <- E. cbn [includes].
      assert (H : startsWith (p ++ b) p = true) by apply startsWith_app.
      rewrite E in *. cbn [includes]. now rewrite H.
  - cbn [app includes]. rewrite IH. apply orb_true_r.
Qed.

(** X27: every parameter name that [extractPathParams] or
    [extractURLParams] returns is a non-empty stretch of the text that
    follows a colon there and holds no slash (for URLs, no [?] either); so
    the text contains the name with a colon before it, which is what
    [validateURLParams] looks for. *)
Theorem params_follow_a_colon (text p : jsstring) :
  In p (extractPathParams text) \/ In p (extractURLParams text) ->
  p <> [] /\ ~ In "/"%char p /\ includes text (":"%char :: p) = true /\
  (In p (extractURLParams text) -> ~ In "?"%char p).
Proof.
  intros H.
  assert (Hcap : exists stop, capturedAfterColon stop text p /\
                              (forall c, isSlash c = true -> stop c = true)).
  { destruct H as [H|H].
    - exists isSlash. split; [|auto].
      now apply (proj1 (colonParams_sound isSlash text)).
    - exists (fun c => isSlash c || Ascii.eqb c "?"). split.
      + now apply (proj1 (colonParams_sound _ text)).
      + intros c ->. reflexivity. }
  destruct Hcap as (stop & (a & b & -> & Hne & Hrun) & Hslash).
  rewrite forallb_forall in Hrun.
  split; [exact Hne|]. split; [|split].
  - intros Hin. specialize (Hrun _ Hin). rewrite Hslash in Hrun by reflexivity.
    discriminate.
  - change (a ++ ":"%char :: p ++ b) with (a ++ (":"%char :: p) ++ b).
    apply includes_middle.
  - intros Hu Hin.
    destruct (proj1 (colonParams_sound (fun c => isSlash c || Ascii.eqb c "?") _) p Hu)
      as (a' & b' & _ & _ & Hrun').
    rewrite forallb_forall in Hrun'. specialize (Hrun' _ Hin).
    cbn in Hrun'. discriminate.
Qed.

Lemma params_follow_a_colon_witness :
  str "id" <> [] /\ ~ In "/"%char (str "id") /\
  includes (str "/api/orders/:id/items") (":"%char :: str "id") = true /\
  (In (str "id") (extractURLParams (str "/api/orders/:id/items")) ->
   ~ In "?"%char (str "id")).
Proof.
  apply (params_follow_a_colon (str "/api/orders/:id/items") (str "id")).
  left. vm_compute. tauto.
Defined.

(** * The figures of the summary *)

Lemma unused_components_counted (R : rules) (ds : JSMap.t CV.dsComponentInfo) :
  length (CV.findUnusedComponents R ds) =
  length (filter (fun c => negb (CV.used c)) (JSMap.values ds)).
Proof.
  unfold CV.findUnusedComponents, JSMap.values.
  induction ds as [|[k c] ds IH]; [reflexivity|].
  cbn [flat_map map filter snd]. rewrite length_app, IH.
  now destruct (CV.used c).
Qed.

Lemma endpoint_types (R : rules) (E : JSMap.t B.endpoint) (C : JSMap.t (list F.callSite)) :
  Forall (fun i => type i <> UNUSED_DS_COMPONENT) (snd (EV.validate R E C)).
Proof.
  unfold EV.validate.
  assert (Hr : forall C E, Forall (fun i => type i <> UNUSED_DS_COMPONENT)
                                  (snd (EV.reconcile R E C))).
  { clear. intros C. induction C as [|[key calls] C IH]; intros E; [constructor|].
    cbn [EV.reconcile].
    assert (Hc : forall calls E, Forall (fun i => type i <> UNUSED_DS_COMPONENT)
                                        (snd (EV.validateCalls R key E calls))).
    { clear. intros calls. induction calls as [|call rest IHc]; intros E; [constructor|].
      cbn [EV.validateCalls].
      assert (H1 : Forall (fun i => type i <> UNUSED_DS_COMPONENT)
                          (snd (EV.validateCall R key E call))).
      { unfold EV.validateCall. destruct (JSMap.get key E) as [e|]; cbn [snd].
        - unfold EV.validateEndpointUsage, EV.validateURLParams, EV.validateRequestBody,
            EV.validateQueryParams.
          destruct (negb (truthy (F.data call))
                    || Nat.eqb (length (Object_keys (F.data call))) 0); issue_types.
        - repeat constructor. discriminate. }
      destruct (EV.validateCall R key E call) as [E1 i1].
      specialize (IHc E1). destruct (EV.validateCalls R key E1 rest) as [E2 i2].
      cbn [snd] in *. apply Forall_app. now split. }
    specialize (Hc calls E).
    destruct (EV.validateCalls R key E calls) as [E1 i1].
    specialize (IH E1). destruct (EV.reconcile R E1 C) as [E2 i2].
    cbn [snd] in *. apply Forall_app. now split. }
  specialize (Hr C E). destruct (EV.reconcile R E C) as [E' issues]. cbn [snd] in *.
  apply Forall_app. split; [exact Hr|].
  eapply Forall_impl; [|apply findUnusedEndpoints_types]. cbn. congruence.
Qed.

Lemma markUsage_length (ds : JSMap.t CV.dsComponentInfo) (fe : JSMap.t CV.feComponentInfo) :
  length (CV.markUsage ds fe) = length ds.
Proof.
  unfold CV.markUsage.
  assert (Hname : forall f m n, length (CV.markName f m n) = length m).
  { intros f m [n|]; [|reflexivity]. unfold CV.markName.
    destruct (JSMap.get n m) as [c|] eqn:G; [|reflexivity].
    rewrite <- !(length_map fst). change (map fst ?x) with (JSMap.keys x).
    rewrite keys_set_present; [reflexivity|]. unfold JSMap.has. now rewrite G. }
  generalize (CV.extractImportsFromFrontend fe).
  intros imports. revert ds.
  induction imports as [|[f l] imports IH]; intros ds; [reflexivity|].
  cbn [fold_left]. rewrite IH. clear IH. revert ds.
  induction l as [|imp l IHl]; intros ds; [reflexivity|].
  cbn [fold_left]. rewrite IHl. unfold CV.markImport.
  destruct (CV.isDesignSystemImport (CV.source imp)); [|reflexivity].
  assert (Hspec : forall specs m,
             length (fold_left
                       (fun acc '(imported, local) =>
                          CV.markName f acc
                            match CV.truthyName imported with
                            | Some n => Some n
                            | None => local
                            end) specs m) = length m).
  { clear -Hname. intros specs. induction specs as [|[i lo] specs IHs]; intros m;
      [reflexivity|]. cbn [fold_left]. now rewrite IHs, Hname. }
  destruct (CV.isDefault imp); [|apply Hspec].
  destruct (CV.truthyName (CV.defaultName imp)); [|apply Hspec].
  now rewrite Hname, Hspec.
Qed.

(** X28: after the validation phase every design-system component is
    either counted as used or reported once as UNUSED_DS_COMPONENT: the
    number of unused components in the summary is the number of those
    issues. *)
Theorem summary_accounts_for_every_component
        (R : rules) (res : AuditBot.results) (fe : AuditBot.frontendResults)
        (ds : JSMap.t CV.dsComponentInfo) :
  AuditBot.frontend res = Some fe ->
  AuditBot.designSystem res = Some ds ->
  AuditBot.calculateUnusedComponents (fst (AuditBot.performValidations R res)) =
    length (ofType UNUSED_DS_COMPONENT (snd (AuditBot.performValidations R res))) /\
  AuditBot.calculateUsedComponents (fst (AuditBot.performValidations R res))
  + AuditBot.calculateUnusedComponents (fst (AuditBot.performValidations R res))
  = length ds.
Proof.
  intros Hf Hd. unfold AuditBot.performValidations. rewrite Hf, Hd.
  set (endpointStep := match AuditBot.backend res with
                       | Some endpoints => _
                       | None => _
                       end).
  assert (He : Forall (fun i => type i <> UNUSED_DS_COMPONENT) (snd endpointStep)).
  { subst endpointStep. destruct (AuditBot.backend res) as [E|]; [|constructor].
    pose proof (endpoint_types R E (AuditBot.apiCalls fe)) as H.
    destruct (EV.validate R E (AuditBot.apiCalls fe)) as [E' found]. exact H. }
  destruct endpointStep as [backend' endpointIssues]. cbn [snd] in He.
  set (securityIssues := match backend' with
                         | Some endpoints => _
                         | None => _
                         end).
  assert (Hs : Forall (fun i => type i <> UNUSED_DS_COMPONENT) securityIssues).
  { subst securityIssues. destruct backend' as [E'|]; [|constructor].
    eapply Forall_impl; [|apply security_types]. cbn. intros i H. intuition congruence. }
  clearbody securityIssues.
  cbn [fst snd AuditBot.calculateUnusedComponents AuditBot.calculateUsedComponents
       AuditBot.designSystem CV.validateComponentUsage].
  set (ds' := CV.markUsage ds (AuditBot.components fe)).
  split.
  - rewrite !ofType_app, (ofType_none _ _ He), (ofType_none _ _ Hs), !app_nil_l.
    unfold CV.validate, CV.validateComponentUsage. fold ds'.
    rewrite !ofType_app.
    rewrite (ofType_none UNUSED_DS_COMPONENT (CV.detectIncorrectUsage ds' _)).
    2:{ eapply Forall_impl; [|apply detectIncorrectUsage_types]. cbn. congruence. }
    rewrite (ofType_none UNUSED_DS_COMPONENT (CV.validatePropsConsistency ds')).
    2:{ eapply Forall_impl; [|apply validatePropsConsistency_types]. cbn. congruence. }
    rewrite (ofType_all _ _ (findUnusedComponents_types R ds')).
    rewrite app_nil_l, app_nil_r. symmetry. apply unused_components_counted.
  - assert (Hlen : length ds' = length ds) by apply markUsage_length.
    rewrite <- Hlen. unfold JSMap.values. clear.
    induction ds' as [|[k c] ds' IH]; [reflexivity|].
    cbn [map filter snd length]. destruct (CV.used c); cbn [negb length]; lia.
Qed.

Lemma summary_accounts_for_every_component_witness :
  AuditBot.calculateUnusedComponents
    (fst (AuditBot.performValidations defaultRules Sample3.analysed)) =
    length (ofType UNUSED_DS_COMPONENT
                   (snd (AuditBot.performValidations defaultRules Sample3.analysed))) /\
  AuditBot.calculateUsedComponents
    (fst (AuditBot.performValidations defaultRules Sample3.analysed))
  + AuditBot.calculateUnusedComponents
      (fst (AuditBot.performValidations defaultRules Sample3.analysed))
  = length Sample.designSystem.
Proof.
  apply (summary_accounts_for_every_component
           defaultRules Sample3.analysed
           {| AuditBot.apiCalls := Sample.apiCalls;
              AuditBot.components := Sample.frontendComponents |}
           Sample.designSystem);
    reflexivity.
Defined.

(** X29: a call site whose key has no backend endpoint makes the audit
    fail: with the severity of missing endpoints left at CRITICAL, the
    issues of the validation phase contain a critical one. *)
Theorem missing_endpoint_fails_the_audit
        (R : rules) (res : AuditBot.results) (E : JSMap.t B.endpoint)
        (fe : AuditBot.frontendResults)
        (key : jsstring) (calls : list F.callSite) (call : F.callSite) :
  AuditBot.backend res = Some E ->
  AuditBot.frontend res = Some fe ->
  orElse (missingEndpoint (severityOf R)) CRITICAL = CRITICAL ->
  In (key, calls) (AuditBot.apiCalls fe) ->
  In call calls ->
  JSMap.has key E = false ->
  AuditBot.hasFailures (snd (AuditBot.performValidations R res)) = true.
Proof.
  intros Hb Hf Hsev HC Hcall Hhas. unfold AuditBot.performValidations. rewrite Hb, Hf.
  assert (Hin : In (EV.missingEndpointIssue R key call)
                   (snd (EV.validate R E (AuditBot.apiCalls fe)))).
  { unfold EV.validate.
    pose proof (reconcile_missing R (AuditBot.apiCalls fe) E) as Hm.
    destruct (EV.reconcile R E (AuditBot.apiCalls fe)) as [E' issues]. cbn [snd] in *.
    apply in_or_app. left.
    assert (Hof : In (EV.missingEndpointIssue R key call)
                     (ofType MISSING_BACKEND_ENDPOINT issues)).
    { rewrite Hm. apply in_flat_map. exists (key, calls). split; [exact HC|].
      rewrite Hhas. now apply in_map. }
    unfold ofType in Hof. now apply filter_In in Hof. }
  destruct (EV.validate R E (AuditBot.apiCalls fe)) as [E' found]. cbn [snd] in Hin.
  set (componentStep := match AuditBot.designSystem res with
                        | Some ds => _
                        | None => _
                        end).
  destruct componentStep as [ds' componentIssues]. cbn [snd].
  unfold AuditBot.hasFailures. apply existsb_exists.
  exists (EV.missingEndpointIssue R key call). split.
  - apply in_or_app. now left.
  - unfold AuditBot.isCritical. cbn [severity EV.missingEndpointIssue]. now rewrite Hsev.
Qed.

Lemma missing_endpoint_fails_the_audit_witness :
  AuditBot.hasFailures (snd (AuditBot.performValidations defaultRules Sample3.analysed)) = true.
Proof.
  apply (missing_endpoint_fails_the_audit
           defaultRules Sample3.analysed Sample.endpoints
           {| AuditBot.apiCalls := Sample.apiCalls;
              AuditBot.components := Sample.frontendComponents |}
           (str "GET /api/users/:param")
           [{| F.method := str "GET";
               F.endpoint := str "/api/users/:param";
               F.originalUrl := Some (str "/api/users/${...}");
               F.file := str "src/services/orders.js";
               F.line := 12;
               F.shape := F.axios;
               F.data := VObj [];
               F.hasAuth := false;
               F.params := [str "param"];
               F.queryParams := [] |}]
           {| F.method := str "GET";
              F.endpoint := str "/api/users/:param";
              F.originalUrl := Some (str "/api/users/${...}");
              F.file := str "src/services/orders.js";
              F.line := 12;
              F.shape := F.axios;
              F.data := VObj [];
              F.hasAuth := false;
              F.params := [str "param"];
              F.queryParams := [] |}).
  - reflexivity.
  - reflexivity.
  - reflexivity.
  - vm_compute. tauto.
  - left. reflexivity.
  - vm_compute. reflexivity.
Defined.
